(** * The input line widget of the Midnight Commander (lib/widget/input.c)

    A shallow embedding of the editing core of [WInput]: the byte buffer with
    its cursor and mark, the multi-byte assembler, the process-wide kill
    ring, the history list and the viewport, followed by the properties of
    the commands that work on them.

    Conventions.
    - A C [int], [long] or [size_t] is a [Z].  Signed overflow is undefined
      in C and the sizes involved are sizes of objects in memory, so the
      arithmetic is the arithmetic of [Z].
    - A [char *] into the heap is a [list byte] holding the whole allocated
      array; the C string it denotes is the part before the first NUL
      ([c_str]).  A pointer into the array is an index into the list.
    - A [const char *] argument that is only read is passed as its C string.
    - The C identifier [in] is a keyword here; the widget is called [w]. *)

From Stdlib Require Import ZArith Lia Strings.Byte Strings.String.
From stdpp Require Import base list.

Local Open Scope Z_scope.

#[global] Instance byte_eq_dec : EqDecision byte := Byte.byte_eq_dec.

(** ** Bytes and C strings *)

(** A string literal of the source as the bytes of a C string. *)
Definition bytes (s : string) : list byte := list_byte_of_string s.

(** The conversion [(char) c] of an [int]. *)
Definition char_of_int (c : Z) : byte :=
  default x00 (Byte.of_N (Z.to_N (c mod 256))).

(** The promotion of a [char] to [int]; plain [char] is signed on the
    targets the program is built for. *)
Definition int_of_char (b : byte) : Z :=
  let n := Z.of_N (Byte.to_N b) in
  if n <? 128 then n else n - 256.

(** The C string held by an array: everything before the first NUL. *)
Fixpoint c_str (a : list byte) : list byte :=
  match a with
  | [] => []
  | b :: a' => if decide (b = x00) then [] else b :: c_str a'
  end.

Definition strlen (a : list byte) : Z := Z.of_nat (length (c_str a)).

(** [a[i]] for an [int] index; reading outside the array is undefined in C
    and yields NUL here. *)
Definition rd (a : list byte) (i : Z) : byte :=
  if i <? 0 then x00 else default x00 (a !! Z.to_nat i).

(** [a[i] = b]. A write outside the array is undefined in C and changes
    nothing here. *)
Definition wr (a : list byte) (i : Z) (b : byte) : list byte :=
  if i <? 0 then a else <[Z.to_nat i := b]> a.

(** [memmove (a + dst, a + src, len)] inside one array. *)
Definition memmove (a : list byte) (dst src len : Z) : list byte :=
  take (Z.to_nat dst) a
    ++ take (Z.to_nat len) (drop (Z.to_nat src) a)
    ++ drop (Z.to_nat (dst + len)) a.

(** [memcpy (a + dst, src, len)] from another array. *)
Definition memcpy (a : list byte) (dst : Z) (src : list byte) (len : Z)
  : list byte :=
  take (Z.to_nat dst) a
    ++ take (Z.to_nat len) src
    ++ drop (Z.to_nat (dst + len)) a.

(** [g_strndup (a + off, n)]: at most [n] bytes, stopping at a NUL. *)
Definition g_strndup (a : list byte) (off n : Z) : list byte :=
  c_str (take (Z.to_nat n) (drop (Z.to_nat off) a)).

(** [g_strdup (a + off)]. *)
Definition g_strdup_at (a : list byte) (off : Z) : list byte :=
  c_str (drop (Z.to_nat off) a).

(** [g_try_renew (char, a, n)]: [None] when the allocator fails; otherwise
    the outcome carries the indeterminate content of the bytes that are new. *)
Definition g_try_renew (a : list byte) (n : Z) (heap : option (list byte))
  : option (list byte) :=
  match heap with
  | None => None
  | Some fresh => Some (resize (Z.to_nat n) x00 (a ++ fresh))
  end.

(** [strchr (s + from, c)] as the index in [s] of the first [c] at or after
    [from]. *)
Fixpoint strchr_from (s : list byte) (c : byte) (from : nat) : option nat :=
  match s with
  | [] => None
  | b :: s' =>
      match from with
      | O => if decide (b = c) then Some O else S <$> strchr_from s' c O
      | S from' => S <$> strchr_from s' c from'
      end
  end.

Definition strchr (s : list byte) (c : byte) : option nat := strchr_from s c 0.

(** [strrchr (s, c)]: the index of the last [c]. *)
Fixpoint strrchr (s : list byte) (c : byte) : option nat :=
  match s with
  | [] => None
  | b :: s' =>
      match strrchr s' c with
      | Some i => Some (S i)
      | None => if decide (b = c) then Some O else None
      end
  end.

Fixpoint is_prefix (p s : list byte) : bool :=
  match p, s with
  | [], _ => true
  | _ :: _, [] => false
  | x :: p', y :: s' => if decide (x = y) then is_prefix p' s' else false
  end.

(** [strstr (s, needle)]: the index of the first occurrence. *)
Fixpoint strstr (s needle : list byte) : option nat :=
  if is_prefix needle s then Some O
  else match s with
       | [] => None
       | _ :: s' => S <$> strstr s' needle
       end.

(** [g_ascii_isspace]. *)
Definition g_ascii_isspace (b : byte) : bool :=
  bool_decide (b ∈ [x20; x09; x0a; x0b; x0c; x0d]).

(** [g_strchug]: drop the leading white space. *)
Fixpoint g_strchug (s : list byte) : list byte :=
  match s with
  | [] => []
  | b :: s' => if g_ascii_isspace b then g_strchug s' else s
  end.

(** [g_strchomp]: drop the trailing white space. *)
Definition g_strchomp (s : list byte) : list byte :=
  rev (g_strchug (rev s)).

Definition g_strstrip (s : list byte) : list byte := g_strchomp (g_strchug s).

(** ** The string layer (lib/strutil.h)

    The widget reaches its text only through the functions of the string
    layer, which dispatches on the encoding of the terminal through a table
    of function pointers.  The table is a class here, as lib/strutil is not
    part of the sources at hand; what a property needs of the table is a
    hypothesis of that property. *)

Class str_class := {
  (** [str_offset_to_pos (text, length)]: the byte position of the character
      with offset [length]. *)
  str_offset_to_pos : list byte -> Z -> Z;
  (** [str_length (text)]: the number of characters. *)
  str_length : list byte -> Z;
  (** [str_is_valid_char (ch, size)]: 1 for a complete character, -1 for a
      broken one, -2 for the beginning of a multi-byte character. *)
  str_is_valid_char : list byte -> Z -> Z;
  (** [str_cnext_noncomb_char (&text)], given the text at [*text]: the
      number of characters stepped over. *)
  str_cnext_noncomb_char : list byte -> Z;
  (** [str_cprev_noncomb_char (&text, begin)], given the text at [begin] and
      the byte position of [*text] in it. *)
  str_cprev_noncomb_char : list byte -> Z -> Z;
  (** [str_term_width2 (text, length)]: the columns taken by the first
      [length] characters. *)
  str_term_width2 : list byte -> Z -> Z;
}.

(** Modelled from the spec: the string layer of a single-byte encoding
    (lib/strutil/strutil8bit.c is missing from the sources).  Point is a
    character offset; with one byte per character the character offset is
    the byte offset, the length in characters is the length in bytes, every
    byte completes a character, and a step forward or backward is one byte
    unless it would leave the text. *)
Definition str_8bit : str_class := {|
  str_offset_to_pos := fun _ length => length;
  str_length := fun text => Z.of_nat (length text);
  str_is_valid_char := fun _ _ => 1;
  str_cnext_noncomb_char := fun text => match text with [] => 0 | _ => 1 end;
  str_cprev_noncomb_char := fun _ pos => if 0 <? pos then 1 else 0;
  str_term_width2 := fun text length => Z.min (Z.of_nat (List.length text)) length;
|}.

(** Modelled from the spec: the assembler of a multi-byte encoding (4.1:
    feed gives Incomplete, Complete or Invalid), here the lead and
    continuation bytes of UTF-8; lib/strutil/strutilutf8.c is missing from
    the sources.  [utf8_need b] is the length announced by a lead byte. *)
Definition utf8_need (b : byte) : Z :=
  let n := Z.of_N (Byte.to_N b) in
  if n <? 128 then 1
  else if n <? 192 then 0
  else if n <? 224 then 2
  else if n <? 240 then 3
  else if n <? 248 then 4
  else 0.

(** Modelled from the spec: a continuation byte of a multi-byte character
    (lib/strutil/strutilutf8.c is missing). *)
Definition utf8_is_cont (b : byte) : bool :=
  let n := Z.of_N (Byte.to_N b) in (128 <=? n) && (n <? 192).

(** Modelled from the spec: the outcome of feeding the assembler (4.1), for
    the [size] bytes it holds: -2 while the sequence is incomplete, 1 when
    it is one complete character, -1 when it is malformed
    (lib/strutil/strutilutf8.c is missing). *)
Definition utf8_is_valid_char (ch : list byte) (size : Z) : Z :=
  match take (Z.to_nat size) ch with
  | [] => -2
  | b :: rest =>
      let need := utf8_need b in
      if need =? 0 then -1
      else if negb (forallb utf8_is_cont rest) then -1
      else if Z.of_nat (length rest) + 1 <? need then -2
      else if Z.of_nat (length rest) + 1 =? need then 1
      else -1
  end.

(** Modelled from the spec: the byte length of the first [n] characters of
    a UTF-8 text, a character being a lead byte with the bytes it announces
    (lib/strutil/strutilutf8.c is missing). *)
Fixpoint utf8_offset_to_pos (text : list byte) (n : nat) : nat :=
  match n, text with
  | O, _ => O
  | _, [] => O
  | S n', b :: _ =>
      let k := Nat.max 1 (Z.to_nat (utf8_need b)) in
      (Nat.min k (length text) + utf8_offset_to_pos (drop k text) n')%nat
  end.

(** Modelled from the spec: the length of a UTF-8 text in characters, one
    for each byte that is not a continuation byte
    (lib/strutil/strutilutf8.c is missing). *)
Definition utf8_length (text : list byte) : Z :=
  Z.of_nat (length (filter (fun b => utf8_is_cont b = false) text)).

(** Modelled from the spec: the string layer of a UTF-8 locale
    (lib/strutil/strutilutf8.c is missing), with the assembler and the
    offsets above; a step forward or backward is one character. *)
Definition str_utf8 : str_class := {|
  str_offset_to_pos := fun text n => Z.of_nat (utf8_offset_to_pos text (Z.to_nat n));
  str_length := utf8_length;
  str_is_valid_char := utf8_is_valid_char;
  str_cnext_noncomb_char := fun text => match text with [] => 0 | _ => 1 end;
  str_cprev_noncomb_char := fun _ pos => if 0 <? pos then 1 else 0;
  str_term_width2 := fun text n => Z.min (utf8_length text) n;
|}.

(** ** Data *)

Inductive cb_ret_t := MSG_NOT_HANDLED | MSG_HANDLED.

(** The states of a dialog (lib/widget/dialog.h). *)
Inductive dlg_state_t := DLG_CONSTRUCT | DLG_ACTIVE | DLG_SUSPENDED | DLG_CLOSED.

#[global] Instance dlg_state_eq_dec : EqDecision dlg_state_t.
Proof. solve_decision. Defined.

Record WDialog := { state : dlg_state_t; ret_value : Z }.

Record Widget := { cols : Z; owner : option WDialog }.

(** [struct input_history_t].  The [GList] is kept newest entry first:
    [in->history.list] points at the newest link, so [h_list] is the list
    read from that link through [g_list_previous], and NULL is [[]].
    [h_current] is the link [in->history.current] points at, counted from
    the newest link; an entry is the string of a link, never NULL. *)
Record input_history_t := {
  h_name : option (list byte);
  h_list : list (list byte);
  h_current : option nat;
  h_changed : bool;
}.

Record WInput := {
  widget : Widget;
  point : Z;
  mark : Z;
  highlight : bool;
  term_first_shown : Z;
  current_max_size : Z;
  first : bool;
  disable_update : Z;
  is_highlight_cmd : bool;
  buffer : list byte;
  need_push : bool;
  strip_password : bool;
  completions : option (list (list byte));
  charbuf : list byte;
  charpoint : Z;
  history : input_history_t;
}.

(** Assignments to one field. *)
Definition set_point (v : Z) (w : WInput) : WInput :=
  {| widget := widget w; point := v; mark := mark w; highlight := highlight w;
     term_first_shown := term_first_shown w;
     current_max_size := current_max_size w; first := first w;
     disable_update := disable_update w;
     is_highlight_cmd := is_highlight_cmd w; buffer := buffer w;
     need_push := need_push w; strip_password := strip_password w;
     completions := completions w; charbuf := charbuf w;
     charpoint := charpoint w; history := history w |}.

Definition set_mark (v : Z) (w : WInput) : WInput :=
  {| widget := widget w; point := point w; mark := v; highlight := highlight w;
     term_first_shown := term_first_shown w;
     current_max_size := current_max_size w; first := first w;
     disable_update := disable_update w;
     is_highlight_cmd := is_highlight_cmd w; buffer := buffer w;
     need_push := need_push w; strip_password := strip_password w;
     completions := completions w; charbuf := charbuf w;
     charpoint := charpoint w; history := history w |}.

Definition set_highlight (v : bool) (w : WInput) : WInput :=
  {| widget := widget w; point := point w; mark := mark w; highlight := v;
     term_first_shown := term_first_shown w;
     current_max_size := current_max_size w; first := first w;
     disable_update := disable_update w;
     is_highlight_cmd := is_highlight_cmd w; buffer := buffer w;
     need_push := need_push w; strip_password := strip_password w;
     completions := completions w; charbuf := charbuf w;
     charpoint := charpoint w; history := history w |}.

Definition set_term_first_shown (v : Z) (w : WInput) : WInput :=
  {| widget := widget w; point := point w; mark := mark w;
     highlight := highlight w; term_first_shown := v;
     current_max_size := current_max_size w; first := first w;
     disable_update := disable_update w;
     is_highlight_cmd := is_highlight_cmd w; buffer := buffer w;
     need_push := need_push w; strip_password := strip_password w;
     completions := completions w; charbuf := charbuf w;
     charpoint := charpoint w; history := history w |}.

Definition set_current_max_size (v : Z) (w : WInput) : WInput :=
  {| widget := widget w; point := point w; mark := mark w;
     highlight := highlight w; term_first_shown := term_first_shown w;
     current_max_size := v; first := first w;
     disable_update := disable_update w;
     is_highlight_cmd := is_highlight_cmd w; buffer := buffer w;
     need_push := need_push w; strip_password := strip_password w;
     completions := completions w; charbuf := charbuf w;
     charpoint := charpoint w; history := history w |}.

Definition set_first (v : bool) (w : WInput) : WInput :=
  {| widget := widget w; point := point w; mark := mark w;
     highlight := highlight w; term_first_shown := term_first_shown w;
     current_max_size := current_max_size w; first := v;
     disable_update := disable_update w;
     is_highlight_cmd := is_highlight_cmd w; buffer := buffer w;
     need_push := need_push w; strip_password := strip_password w;
     completions := completions w; charbuf := charbuf w;
     charpoint := charpoint w; history := history w |}.

Definition set_is_highlight_cmd (v : bool) (w : WInput) : WInput :=
  {| widget := widget w; point := point w; mark := mark w;
     highlight := highlight w; term_first_shown := term_first_shown w;
     current_max_size := current_max_size w; first := first w;
     disable_update := disable_update w;
     is_highlight_cmd := v; buffer := buffer w;
     need_push := need_push w; strip_password := strip_password w;
     completions := completions w; charbuf := charbuf w;
     charpoint := charpoint w; history := history w |}.

Definition set_buffer (v : list byte) (w : WInput) : WInput :=
  {| widget := widget w; point := point w; mark := mark w;
     highlight := highlight w; term_first_shown := term_first_shown w;
     current_max_size := current_max_size w; first := first w;
     disable_update := disable_update w;
     is_highlight_cmd := is_highlight_cmd w; buffer := v;
     need_push := need_push w; strip_password := strip_password w;
     completions := completions w; charbuf := charbuf w;
     charpoint := charpoint w; history := history w |}.

Definition set_need_push (v : bool) (w : WInput) : WInput :=
  {| widget := widget w; point := point w; mark := mark w;
     highlight := highlight w; term_first_shown := term_first_shown w;
     current_max_size := current_max_size w; first := first w;
     disable_update := disable_update w;
     is_highlight_cmd := is_highlight_cmd w; buffer := buffer w;
     need_push := v; strip_password := strip_password w;
     completions := completions w; charbuf := charbuf w;
     charpoint := charpoint w; history := history w |}.

Definition set_completions (v : option (list (list byte))) (w : WInput)
  : WInput :=
  {| widget := widget w; point := point w; mark := mark w;
     highlight := highlight w; term_first_shown := term_first_shown w;
     current_max_size := current_max_size w; first := first w;
     disable_update := disable_update w;
     is_highlight_cmd := is_highlight_cmd w; buffer := buffer w;
     need_push := need_push w; strip_password := strip_password w;
     completions := v; charbuf := charbuf w;
     charpoint := charpoint w; history := history w |}.

Definition set_charbuf (v : list byte) (w : WInput) : WInput :=
  {| widget := widget w; point := point w; mark := mark w;
     highlight := highlight w; term_first_shown := term_first_shown w;
     current_max_size := current_max_size w; first := first w;
     disable_update := disable_update w;
     is_highlight_cmd := is_highlight_cmd w; buffer := buffer w;
     need_push := need_push w; strip_password := strip_password w;
     completions := completions w; charbuf := v;
     charpoint := charpoint w; history := history w |}.

Definition set_charpoint (v : Z) (w : WInput) : WInput :=
  {| widget := widget w; point := point w; mark := mark w;
     highlight := highlight w; term_first_shown := term_first_shown w;
     current_max_size := current_max_size w; first := first w;
     disable_update := disable_update w;
     is_highlight_cmd := is_highlight_cmd w; buffer := buffer w;
     need_push := need_push w; strip_password := strip_password w;
     completions := completions w; charbuf := charbuf w;
     charpoint := v; history := history w |}.

Definition set_history (v : input_history_t) (w : WInput) : WInput :=
  {| widget := widget w; point := point w; mark := mark w;
     highlight := highlight w; term_first_shown := term_first_shown w;
     current_max_size := current_max_size w; first := first w;
     disable_update := disable_update w;
     is_highlight_cmd := is_highlight_cmd w; buffer := buffer w;
     need_push := need_push w; strip_password := strip_password w;
     completions := completions w; charbuf := charbuf w;
     charpoint := charpoint w; history := v |}.

Definition set_strip_password (v : bool) (w : WInput) : WInput :=
  {| widget := widget w; point := point w; mark := mark w;
     highlight := highlight w; term_first_shown := term_first_shown w;
     current_max_size := current_max_size w; first := first w;
     disable_update := disable_update w;
     is_highlight_cmd := is_highlight_cmd w; buffer := buffer w;
     need_push := need_push w; strip_password := v;
     completions := completions w; charbuf := charbuf w;
     charpoint := charpoint w; history := history w |}.

Definition set_widget (v : Widget) (w : WInput) : WInput :=
  {| widget := v; point := point w; mark := mark w;
     highlight := highlight w; term_first_shown := term_first_shown w;
     current_max_size := current_max_size w; first := first w;
     disable_update := disable_update w;
     is_highlight_cmd := is_highlight_cmd w; buffer := buffer w;
     need_push := need_push w; strip_password := strip_password w;
     completions := completions w; charbuf := charbuf w;
     charpoint := charpoint w; history := history w |}.

(** The groups of the event bus (lib/event.h). *)
Inductive event_group := MCEVENT_GROUP_FILEMANAGER | MCEVENT_GROUP_CORE.

(** One call of [mc_event_raise (group, name, data)]; [data] is the text
    handed over, if any. *)
Record mc_event := {
  ev_group : event_group;
  ev_name : string;
  ev_data : option (list byte);
}.

(** What the widgets of a process share: the kill ring of the file, a
    [static char *], and the calls made on the event bus, oldest first. *)
Record process := {
  kill_buffer : option (list byte);
  raised : list mc_event;
}.

Definition set_kill_buffer (v : option (list byte)) (g : process) : process :=
  {| kill_buffer := v; raised := raised g |}.

Definition mc_event_raise (grp : event_group) (name : string)
    (data : option (list byte)) (g : process) : process :=
  {| kill_buffer := kill_buffer g;
     raised := raised g ++ [ {| ev_group := grp; ev_name := name; ev_data := data |} ] |}.

(** ** Constants *)

Definition HISTORY_BUTTON_WIDTH : Z := 3.

(** [MB_LEN_MAX] of limits.h. *)
Definition MB_LEN_MAX : Z := 16.

(** [VFS_PATH_URL_DELIMITER] of lib/vfs/path.h. *)
Definition VFS_PATH_URL_DELIMITER : list byte := bytes "://".

(** ** The functions of input.c *)

Section Input.

Context {used_class : str_class}.

(** [list_append_unique] of lib/util.c, which is not part of the sources at
    hand: the history list with [text] appended as its newest link. *)
Context (list_append_unique : list (list byte) -> list byte -> list (list byte)).

(** The text of the editing buffer. *)
Definition text_of (w : WInput) : list byte := c_str (buffer w).

(** The value of a [GList *] that points at the newest link of [l]. *)
Definition newest_link (l : list (list byte)) : option nat :=
  match l with [] => None | _ :: _ => Some 0%nat end.

Definition should_show_history_button (w : WInput) : bool :=
  bool_decide (h_list (history w) <> [])
  && (HISTORY_BUTTON_WIDTH * 2 + 1 <? cols (widget w))
  && bool_decide (owner (widget w) <> None).

Definition input_set_markers (w : WInput) (m1 : Z) : WInput := set_mark m1 w.

Definition input_mark_cmd (w : WInput) (mark_on : bool) : WInput :=
  if negb mark_on then
    let w := set_highlight false w in
    input_set_markers w 0
  else
    let w := set_highlight true w in
    input_set_markers w (point w).

(** The result and the two output parameters. *)
Definition input_eval_marks (w : WInput) : bool * Z * Z :=
  if highlight w then
    (true, Z.min (mark w) (point w), Z.max (mark w) (point w))
  else (false, 0, 0).

Definition delete_region (w : WInput) (x_first x_last : Z) : WInput :=
  let first := Z.min x_first x_last in
  let last := Z.max x_first x_last in
  let w := input_mark_cmd w false in
  let w := set_point first w in
  let last := str_offset_to_pos (text_of w) last in
  let first := str_offset_to_pos (text_of w) first in
  let len := strlen (drop (Z.to_nat last) (buffer w)) + 1 in
  let w := set_buffer (memmove (buffer w) first last len) w in
  let w := set_charpoint 0 w in
  set_need_push true w.

(** [url] is the C string of a writable copy; [*colon = '\0'] cuts it at
    the colon while [at] still points at the rest of the old text. *)
Definition input_history_strip_password (url : list byte) : list byte :=
  match strrchr url "@"%byte with
  | None => url
  | Some at_ =>
      let colon :=
        match strstr url VFS_PATH_URL_DELIMITER with
        | Some delim =>
            strchr_from url ":"%byte (delim + length VFS_PATH_URL_DELIMITER)
        | None => strchr url ":"%byte
        end in
      let colon :=
        match colon with
        | Some c => if bool_decide (at_ < c)%nat then None else Some c
        | None => None
        end in
      match colon with
      | None => url
      | Some c => take c url ++ drop at_ url
      end
  end.

(** The text [t] that [push_history] offers to the list. *)
Definition push_history_text (w : WInput) (text : list byte) : list byte :=
  let t := g_strstrip text in
  let empty := bool_decide (t = []) in
  let t := if empty then [] else text in
  if negb empty && bool_decide (h_name (history w) <> None) && strip_password w
  then input_history_strip_password t
  else t.

Definition push_history (w : WInput) (text : option (list byte)) : WInput :=
  match text with
  | None => w
  | Some text =>
      let t := push_history_text w text in
      let h := history w in
      let w :=
        if bool_decide (h_list h = [])
           || bool_decide (head (h_list h) <> Some t)
           || h_changed h
        then
          let l := list_append_unique (h_list h) t in
          set_history {| h_name := h_name h; h_list := l;
                         h_current := newest_link l; h_changed := true |} w
        else w in
      set_need_push false w
  end.

(** The loop of [move_buffer_backward]:
    [for (i = pos; buffer[i + len - 1]; i++) buffer[i] = buffer[i + len];]
    It stops at the latest when [i + len - 1] leaves the array, so as many
    rounds as the array has bytes, and one more, are enough. *)
Fixpoint move_buffer_backward_loop (rounds : nat) (a : list byte) (i len : Z)
  : list byte :=
  match rounds with
  | O => a
  | S rounds' =>
      if decide (rd a (i + len - 1) = x00) then a
      else move_buffer_backward_loop rounds' (wr a i (rd a (i + len))) (i + 1) len
  end.

Definition move_buffer_backward (w : WInput) (start end_ : Z) : WInput :=
  let str_len := str_length (text_of w) in
  if (str_len <=? start) || (str_len + 1 <? end_) then w
  else
    let pos := str_offset_to_pos (text_of w) start in
    let len := str_offset_to_pos (text_of w) end_ - pos in
    set_buffer
      (move_buffer_backward_loop (S (length (buffer w))) (buffer w) pos len) w.

(** The loop of [insert_char] that opens the gap:
    [for (i = rest_bytes + 1; i > 0; i--)
       buffer[ins_point + i + charpoint - 1] = buffer[ins_point + i - 1];] *)
Fixpoint insert_char_shift (a : list byte) (ins_point charpoint : Z) (i : nat)
  : list byte :=
  match i with
  | O => a
  | S i' =>
      insert_char_shift
        (wr a (ins_point + Z.of_nat i + charpoint - 1)
              (rd a (ins_point + Z.of_nat i - 1)))
        ins_point charpoint i'
  end.

(** [heap] is what the allocator answers if it is asked. *)
Definition insert_char (w : WInput) (c_code : Z) (heap : option (list byte))
  : cb_ret_t * WInput :=
  let w :=
    if highlight w then
      match input_eval_marks w with
      | (true, m1, m2) => delete_region w m1 m2
      | _ => w
      end
    else w in
  if c_code =? -1 then (MSG_NOT_HANDLED, w)
  else if MB_LEN_MAX <=? charpoint w then (MSG_HANDLED, w)
  else
    let w := set_charbuf (wr (charbuf w) (charpoint w) (char_of_int c_code)) w in
    let w := set_charpoint (charpoint w + 1) w in
    let res := str_is_valid_char (charbuf w) (charpoint w) in
    if res <? 0 then
      let w := if negb (res =? -2) then set_charpoint 0 w else w in
      (MSG_HANDLED, w)
    else
      let w := set_need_push true w in
      let w :=
        if current_max_size w <=? strlen (buffer w) + 1 + charpoint w then
          let new_length :=
            current_max_size w + cols (widget w) + charpoint w in
          match g_try_renew (buffer w) new_length heap with
          | Some narea =>
              set_current_max_size new_length (set_buffer narea w)
          | None => w
          end
        else w in
      let w :=
        if strlen (buffer w) + charpoint w <? current_max_size w then
          let ins_point := str_offset_to_pos (text_of w) (point w) in
          let rest_bytes := strlen (drop (Z.to_nat ins_point) (buffer w)) in
          let a :=
            insert_char_shift (buffer w) ins_point (charpoint w)
              (Z.to_nat (rest_bytes + 1)) in
          let a := memcpy a ins_point (charbuf w) (charpoint w) in
          set_point (point w + 1) (set_buffer a w)
        else w in
      (MSG_HANDLED, set_charpoint 0 w).

Definition delete_char (w : WInput) : WInput :=
  let end_ := point w in
  let act := str_offset_to_pos (text_of w) (point w) in
  let end_ :=
    end_ + str_cnext_noncomb_char (c_str (drop (Z.to_nat act) (buffer w))) in
  let w := move_buffer_backward w (point w) end_ in
  let w := set_charpoint 0 w in
  set_need_push true w.

Definition port_region_marked_for_delete (w : WInput) : WInput :=
  let w := set_buffer (wr (buffer w) 0 x00) w in
  let w := set_point 0 w in
  let w := set_first false w in
  set_charpoint 0 w.

Definition input_free_completions (w : WInput) : WInput :=
  set_completions None w.

(** What is left of the process when a widget is destroyed: [None] is the
    [exit (EXIT_FAILURE)] on a null widget.  The widget itself is gone; its
    history, name and buffer are freed with it. *)
Definition input_destroy (w : option WInput) (g : process) : option process :=
  match w with
  | None => None
  | Some _ => Some (set_kill_buffer None g)
  end.

Definition input_delete_selection (w : WInput) : WInput :=
  match input_eval_marks w with
  | (true, m1, m2) => delete_region w m1 m2
  | _ => w
  end.

(** The drawing calls of [input_update] write to the terminal only; what
    the function does to the widget is kept. *)
Definition input_update (w : WInput) (clear_first : bool) : WInput :=
  if negb (disable_update w =? 0) then w
  else
    match owner (widget w) with
    | None => w
    | Some d =>
        if negb (bool_decide (state d = DLG_ACTIVE)) then w
        else
          let has_history :=
            if should_show_history_button w then HISTORY_BUTTON_WIDTH else 0 in
          let buf_len := str_length (text_of w) in
          let w := set_mark (Z.min (mark w) buf_len) w in
          let pw := str_term_width2 (text_of w) (point w) in
          let w :=
            if (pw <? term_first_shown w)
               || (term_first_shown w + cols (widget w) - has_history <=? pw)
            then
              let w :=
                set_term_first_shown (pw - Z.quot (cols (widget w)) 3) w in
              if term_first_shown w <? 0 then set_term_first_shown 0 w else w
            else w in
          if clear_first then set_first false w else w
    end.

(** The width of the window that [input_update] draws the text into. *)
Definition visible_width (w : WInput) : Z :=
  cols (widget w)
  - (if should_show_history_button w then HISTORY_BUTTON_WIDTH else 0).

(** [g_realloc] does not return when the allocator fails. *)
Definition input_assign_text (w : WInput) (text : option (list byte)) : WInput :=
  let text := default [] text in
  let w := input_free_completions w in
  let w := set_mark 0 w in
  let w := set_need_push true w in
  let w := set_charpoint 0 w in
  let text_len := Z.of_nat (length text) in
  let buffer_len := 1 + Z.max (cols (widget w)) text_len in
  let w := set_current_max_size buffer_len w in
  let w :=
    if cols (widget w) <? buffer_len then
      set_buffer (resize (Z.to_nat buffer_len) x00 (buffer w)) w
    else w in
  let w := set_buffer (memcpy (buffer w) 0 (text ++ [x00]) (text_len + 1)) w in
  let w := set_point (str_length (text_of w)) w in
  input_update w true.

(** [def_text] is [None] for NULL and for [INPUT_LAST_TEXT]. *)
Definition input_new (width : Z) (def_text : option (list byte))
    (histname : option (list byte)) : WInput :=
  let w :=
    {| widget := {| cols := width; owner := None |};
       point := 0; mark := 0; highlight := false; term_first_shown := 0;
       current_max_size := width + 1; first := true; disable_update := 0;
       is_highlight_cmd := false;
       buffer := replicate (Z.to_nat (width + 1)) x00;
       need_push := false; strip_password := false; completions := None;
       charbuf := replicate (Z.to_nat MB_LEN_MAX) x00; charpoint := 0;
       history :=
         {| h_name := match histname with
                      | Some (_ :: _) => histname
                      | _ => None
                      end;
            h_list := []; h_current := None; h_changed := false |} |} in
  input_assign_text w (Some (default [] def_text)).

(** *** The commands *)

Definition mc_winput_cmd_start_highlight (w : WInput) : WInput :=
  let w :=
    if negb (highlight w) then input_mark_cmd (input_mark_cmd w false) true
    else w in
  set_is_highlight_cmd true w.

Definition mc_winput_cmd_stop_highlight (w : WInput) : WInput :=
  if highlight w then input_mark_cmd w false else w.

Definition mc_winput_cmd_backward_char (w : WInput) : WInput :=
  let act := str_offset_to_pos (text_of w) (point w) in
  let w :=
    if 0 <? point w then
      set_point (point w - str_cprev_noncomb_char (text_of w) act) w
    else w in
  set_charpoint 0 w.

Definition mc_winput_cmd_delete (w : WInput) : WInput :=
  if first w then port_region_marked_for_delete w
  else if highlight w then input_delete_selection w
  else delete_char w.

Definition mc_winput_cmd_mark (w : WInput) : WInput := input_mark_cmd w true.

Definition mc_winput_cmd_remove (w : WInput) : WInput :=
  delete_region w (point w) (mark w).

Definition mc_winput_cmd_clipboard_copy (w : WInput) (g : process) : process :=
  let first := Z.min (mark w) (point w) in
  let last := Z.max (mark w) (point w) in
  if last =? first then
    let g :=
      mc_event_raise MCEVENT_GROUP_FILEMANAGER
        "panel_save_current_file_to_clip_file" None g in
    mc_event_raise MCEVENT_GROUP_CORE "clipboard_file_to_ext_clip" None g
  else
    let first := str_offset_to_pos (text_of w) first in
    let last := str_offset_to_pos (text_of w) last in
    let g := set_kill_buffer (Some (g_strndup (buffer w) first (last - first))) g in
    let g :=
      mc_event_raise MCEVENT_GROUP_CORE "clipboard_text_to_file"
        (kill_buffer g) g in
    mc_event_raise MCEVENT_GROUP_CORE "clipboard_file_to_ext_clip" None g.

Definition mc_winput_cmd_clipboard_cut (w : WInput) (g : process)
  : WInput * process :=
  let g := mc_winput_cmd_clipboard_copy w g in
  (mc_winput_cmd_remove w, g).

(** [for (p = kill_buffer; *p != '\0'; p++) insert_char (input, *p);]
    [heap k] is the answer of the allocator for the [k]-th byte. *)
Fixpoint insert_chars (w : WInput) (p : list byte)
    (heap : nat -> option (list byte)) (k : nat) : WInput :=
  match p with
  | [] => w
  | c :: p' =>
      insert_chars (snd (insert_char w (int_of_char c) (heap k))) p' heap (S k)
  end.

Definition mc_winput_cmd_yank (w : WInput) (g : process)
    (heap : nat -> option (list byte)) : WInput :=
  match kill_buffer g with
  | Some kb =>
      let w := set_charpoint 0 w in
      let w := insert_chars w kb heap 0 in
      set_charpoint 0 w
  | None => w
  end.

Definition mc_winput_cmd_delete_to_end (w : WInput) (g : process)
  : WInput * process :=
  let chp := str_offset_to_pos (text_of w) (point w) in
  let g := set_kill_buffer (Some (g_strdup_at (buffer w) chp)) g in
  let w := set_buffer (wr (buffer w) chp x00) w in
  (set_charpoint 0 w, g).

End Input.

(** ** More of input.c: the other commands, the history and the keys *)

(** The functions of the string layer that only the word commands use. *)
Class str_word_class := {
  (** [str_isspace (p)], given the text at [p]. *)
  str_isspace : list byte -> bool;
  (** [str_ispunct (p)], given the text at [p]. *)
  str_ispunct : list byte -> bool;
  (** [str_cnext_char (&p)], given the text at [p]: the bytes [p] moves
      forward. *)
  str_cnext_char : list byte -> Z;
  (** [str_cprev_char (&p)], given the text of the buffer and the byte
      position of [p] in it: the new position of [p]. *)
  str_cprev_char : list byte -> Z -> Z;
}.

(** Modelled from the spec: the word functions of a single-byte encoding
    (lib/strutil/strutil8bit.c is missing from the sources).  A character
    is one byte, so a step forward or backward moves [p] by one byte; the
    classifier of the locale (6: [is_separator], white space or
    punctuation) is given by two predicates on bytes, and the NUL that ends
    the text is in neither class. *)
Definition str_8bit_word (isspace ispunct : byte -> bool) : str_word_class := {|
  str_isspace := fun text => match text with [] => false | b :: _ => isspace b end;
  str_ispunct := fun text => match text with [] => false | b :: _ => ispunct b end;
  str_cnext_char := fun _ => 1;
  str_cprev_char := fun _ pos => pos - 1;
|}.

Section MoreInput.

Context {used_class : str_class} {used_word_class : str_word_class}.

Context (list_append_unique : list (list byte) -> list byte -> list (list byte)).

(** [g_list_previous (link)]: the next older link of the history, counted
    from the newest; NULL for NULL and for the oldest link. *)
Definition g_list_previous (l : list (list byte)) (link : option nat)
  : option nat :=
  match link with
  | Some i => if bool_decide (S i < length l)%nat then Some (S i) else None
  | None => None
  end.

(** [g_list_next (link)]: the next newer link. *)
Definition g_list_next (l : list (list byte)) (link : option nat)
  : option nat :=
  match link with
  | Some (S i) => Some i
  | _ => None
  end.

(** The text [p] points at when [p] is [buffer + pos]. *)
Definition text_at (w : WInput) (pos : Z) : list byte :=
  c_str (drop (Z.to_nat pos) (buffer w)).

(** [str_isspace (p) || str_ispunct (p)]. *)
Definition is_separator (w : WInput) (p : Z) : bool :=
  str_isspace (text_at w p) || str_ispunct (text_at w p).

Definition mc_winput_cmd_begin_of_line (w : WInput) : WInput :=
  let w := set_point 0 w in
  set_charpoint 0 w.

Definition mc_winput_cmd_end_of_line (w : WInput) : WInput :=
  let w := set_point (str_length (text_of w)) w in
  set_charpoint 0 w.

Definition mc_winput_cmd_forward_char (w : WInput) : WInput :=
  let act := str_offset_to_pos (text_of w) (point w) in
  let w :=
    if negb (bool_decide (rd (buffer w) act = x00)) then
      set_point (point w + str_cnext_noncomb_char (text_at w act)) w
    else w in
  set_charpoint 0 w.

(** One loop of [mc_winput_cmd_forward_word]:
    [while (p[0] != '\0' && sep (p)) { str_cnext_char (&p); input->point++; }]
    where [sep (p)] is [str_isspace (p) || str_ispunct (p)] in the first
    loop and its negation in the second.  The pair is [p] and the widget.
    Every round moves [p] on, so as many rounds as the buffer has bytes are
    enough. *)
Fixpoint forward_word_loop (rounds : nat) (skip_separators : bool)
    (p : Z) (w : WInput) : Z * WInput :=
  match rounds with
  | O => (p, w)
  | S rounds' =>
      if negb (bool_decide (rd (buffer w) p = x00))
         && eqb (is_separator w p) skip_separators
      then
        forward_word_loop rounds' skip_separators
          (p + str_cnext_char (text_at w p)) (set_point (point w + 1) w)
      else (p, w)
  end.

Definition mc_winput_cmd_forward_word (w : WInput) : WInput :=
  let p := str_offset_to_pos (text_of w) (point w) in
  let '(p, w) := forward_word_loop (length (buffer w)) true p w in
  let '(p, w) := forward_word_loop (length (buffer w)) false p w in
  w.

(** The first loop of [mc_winput_cmd_backward_word]:
    [for (...; (p != input->buffer) && (p[0] == '\0');
          str_cprev_char (&p), input->point--);] *)
Fixpoint backward_word_rewind (rounds : nat) (p : Z) (w : WInput)
  : Z * WInput :=
  match rounds with
  | O => (p, w)
  | S rounds' =>
      if negb (p =? 0) && bool_decide (rd (buffer w) p = x00) then
        backward_word_rewind rounds' (str_cprev_char (text_of w) p)
          (set_point (point w - 1) w)
      else (p, w)
  end.

(** Its second loop, over the separators before [p]. *)
Fixpoint backward_word_separators (rounds : nat) (p : Z) (w : WInput)
  : Z * WInput :=
  match rounds with
  | O => (p, w)
  | S rounds' =>
      if negb (p =? 0) then
        let p_tmp := p in
        let p := str_cprev_char (text_of w) p in
        if negb (str_isspace (text_at w p)) && negb (str_ispunct (text_at w p))
        then (p_tmp, w)
        else backward_word_separators rounds' p (set_point (point w - 1) w)
      else (p, w)
  end.

(** Its third loop, over the word before [p]. *)
Fixpoint backward_word_word (rounds : nat) (p : Z) (w : WInput)
  : Z * WInput :=
  match rounds with
  | O => (p, w)
  | S rounds' =>
      if negb (p =? 0) then
        let p := str_cprev_char (text_of w) p in
        if str_isspace (text_at w p) || str_ispunct (text_at w p)
        then (p, w)
        else backward_word_word rounds' p (set_point (point w - 1) w)
      else (p, w)
  end.

(** Every round of the three loops moves [p] back, so as many rounds as
    the buffer has bytes, and one more, are enough. *)
Definition mc_winput_cmd_backward_word (w : WInput) : WInput :=
  let p := str_offset_to_pos (text_of w) (point w) in
  let '(p, w) := backward_word_rewind (S (length (buffer w))) p w in
  let '(p, w) := backward_word_separators (S (length (buffer w))) p w in
  let '(p, w) := backward_word_word (S (length (buffer w))) p w in
  w.

Definition mc_winput_cmd_backspace (w : WInput) : WInput :=
  if highlight w then input_delete_selection w
  else
    let act := str_offset_to_pos (text_of w) (point w) in
    if negb (point w =? 0) then
      let start := point w - str_cprev_noncomb_char (text_of w) act in
      let w := move_buffer_backward w start (point w) in
      let w := set_charpoint 0 w in
      let w := set_need_push true w in
      set_point start w
    else w.

Definition mc_winput_cmd_kill_word (w : WInput) : WInput :=
  let old_point := point w in
  let w := mc_winput_cmd_forward_word w in
  let new_point := point w in
  let w := set_point old_point w in
  let w := delete_region w old_point new_point in
  let w := set_need_push true w in
  set_charpoint 0 w.

Definition mc_winput_cmd_back_kill_word (w : WInput) : WInput :=
  let old_point := point w in
  let w := mc_winput_cmd_backward_word w in
  let new_point := point w in
  let w := set_point old_point w in
  let w := delete_region w old_point new_point in
  set_need_push true w.

Definition mc_winput_cmd_clear_all (w : WInput) : WInput :=
  let w := set_need_push true w in
  let w := set_buffer (wr (buffer w) 0 x00) w in
  let w := set_point 0 w in
  let w := set_mark 0 w in
  let w := set_highlight false w in
  set_charpoint 0 w.

(** [clip] is what the handler of "clipboard_text_from_file" hands back:
    the text of the clipboard file, or nothing. *)
Definition mc_winput_cmd_clipboard_paste (w : WInput) (g : process)
    (clip : option (list byte)) (heap : nat -> option (list byte))
  : WInput * process :=
  let g :=
    mc_event_raise MCEVENT_GROUP_CORE "clipboard_file_from_ext_clip" None g in
  let g := mc_event_raise MCEVENT_GROUP_CORE "clipboard_text_from_file" None g in
  match clip with
  | Some p => (insert_chars w p heap 0, g)
  | None => (w, g)
  end.

Definition set_h_current (c : option nat) (changed : bool) (w : WInput)
  : WInput :=
  set_history {| h_name := h_name (history w); h_list := h_list (history w);
                 h_current := c; h_changed := changed |} w.

Definition mc_winput_cmd_history_previous (w : WInput) : WInput :=
  if bool_decide (h_list (history w) = []) then w
  else
    let w :=
      if need_push w then push_history list_append_unique w (Some (text_of w))
      else w in
    let prev := g_list_previous (h_list (history w)) (h_current (history w)) in
    match prev with
    | Some i =>
        let w := input_assign_text w (h_list (history w) !! i) in
        let w := set_h_current prev true w in
        set_need_push false w
    | None => w
    end.

Definition mc_winput_cmd_history_next (w : WInput) : WInput :=
  if need_push w then
    let w := push_history list_append_unique w (Some (text_of w)) in
    input_assign_text w (Some [])
  else if bool_decide (h_list (history w) = []) then w
  else
    let next := g_list_next (h_list (history w)) (h_current (history w)) in
    match next with
    | None =>
        let w := input_assign_text w (Some []) in
        set_h_current (newest_link (h_list (history w)))
          (h_changed (history w)) w
    | Some i =>
        let w := input_assign_text w (h_list (history w) !! i) in
        let w := set_h_current next true w in
        set_need_push false w
    end.

Definition input_set_point (w : WInput) (pos : Z) : WInput :=
  let max_pos := str_length (text_of w) in
  let pos := Z.min pos max_pos in
  let w := if negb (pos =? point w) then input_free_completions w else w in
  let w := set_point pos w in
  let w := set_charpoint 0 w in
  input_update w true.

Definition set_disable_update (v : Z) (w : WInput) : WInput :=
  {| widget := widget w; point := point w; mark := mark w;
     highlight := highlight w; term_first_shown := term_first_shown w;
     current_max_size := current_max_size w; first := first w;
     disable_update := v;
     is_highlight_cmd := is_highlight_cmd w; buffer := buffer w;
     need_push := need_push w; strip_password := strip_password w;
     completions := completions w; charbuf := charbuf w;
     charpoint := charpoint w; history := history w |}.

Definition input_enable_update (w : WInput) : WInput :=
  let w := set_disable_update (disable_update w - 1) w in
  input_update w false.

Definition input_disable_update (w : WInput) : WInput :=
  set_disable_update (disable_update w + 1) w.

Definition input_clean (w : WInput) : WInput :=
  let w := push_history list_append_unique w (Some (text_of w)) in
  let w := set_need_push true w in
  let w := set_buffer (wr (buffer w) 0 x00) w in
  let w := set_point 0 w in
  let w := set_charpoint 0 w in
  let w := set_mark 0 w in
  let w := set_highlight false w in
  let w := input_free_completions w in
  input_update w false.

Definition input_raw_handle_char (w : WInput) (key : Z)
    (heap : option (list byte)) : cb_ret_t * WInput :=
  let w := input_free_completions w in
  let '(v, w) := insert_char w key heap in
  (v, input_update w true).

(** [mc_keymap_process_group] runs the commands bound to the key, if any:
    [keymap key w] is [None] when the key is not bound, and otherwise the
    widget the commands leave together with [in->is_complete_cmd], the flag
    that only the completion command sets and that [input_handle_char]
    clears again before it returns. *)
Definition input_handle_char (keymap : Z -> WInput -> option (WInput * bool))
    (w : WInput) (key : Z) (heap : option (list byte)) : cb_ret_t * WInput :=
  let keymap_handled := keymap key w in
  let w := match keymap_handled with Some (w', _) => w' | None => w end in
  let w := if negb (is_highlight_cmd w) then set_highlight false w else w in
  let w := set_is_highlight_cmd false w in
  match keymap_handled with
  | None =>
      if 255 <? key then (MSG_NOT_HANDLED, w)
      else
        let w := if first w then port_region_marked_for_delete w else w in
        let w := input_free_completions w in
        let '(v, w) := insert_char w key heap in
        (v, input_update w true)
  | Some (_, is_complete_cmd) =>
      let w := if negb is_complete_cmd then input_free_completions w else w in
      let w := if first w then input_update w true else w in
      (MSG_HANDLED, input_update w true)
  end.

(** The loop of [input_insert], which hands every byte of [text] to
    [input_handle_char] as an [unsigned char].
    [heap k] is the answer of the allocator for the [k]-th byte. *)
Fixpoint input_insert_loop (keymap : Z -> WInput -> option (WInput * bool))
    (w : WInput) (text : list byte) (heap : nat -> option (list byte))
    (k : nat) : WInput :=
  match text with
  | [] => w
  | c :: text' =>
      input_insert_loop keymap
        (snd (input_handle_char keymap w (Z.of_N (Byte.to_N c)) (heap k)))
        text' heap (S k)
  end.

Definition input_insert (keymap : Z -> WInput -> option (WInput * bool))
    (w : WInput) (text : list byte) (insert_extra_space : bool)
    (heap : nat -> option (list byte)) : WInput :=
  let w := input_disable_update w in
  let w := input_insert_loop keymap w text heap 0 in
  let w :=
    if insert_extra_space then
      snd (input_handle_char keymap w 32 (heap (length text)))
    else w in
  let w := input_enable_update w in
  input_update w true.

End MoreInput.

(** ** Well-formed widgets and the contract of the string layer *)

(** The array of the buffer holds a terminated string. *)
Definition terminated (a : list byte) : Prop :=
  strlen a < Z.of_nat (length a).

(** [current_max_size] is the size of the array the buffer points at, and
    the array holds a terminated string. *)
Definition buffer_ok (w : WInput) : Prop :=
  Z.of_nat (length (buffer w)) = current_max_size w /\ terminated (buffer w).

(** [n] is a character offset into the text of [w]: a valid position of
    point or mark. *)
Definition valid_offset `{str_class} (w : WInput) (n : Z) : Prop :=
  0 <= n <= str_length (text_of w).

(** What the editing functions rely on when they turn character offsets
    into byte positions, said of one text: the text is well formed for the
    string layer in use.  The position of an offset of the text lies in the
    text, a character takes at least one byte, and the position of an
    offset depends on the text before it only. *)
Record text_ok `{str_class} (text : list byte) : Prop := {
  offset_bounds :
    forall m : Z,
      0 <= m <= str_length text ->
      0 <= str_offset_to_pos text m <= Z.of_nat (length text);
  offset_strict :
    forall m n : Z,
      0 <= m < n -> n <= str_length text ->
      str_offset_to_pos text m < str_offset_to_pos text n;
  offset_prefix :
    forall (text' : list byte) (m : Z),
      0 <= m <= str_length text ->
      take (Z.to_nat (str_offset_to_pos text m)) text'
      = take (Z.to_nat (str_offset_to_pos text m)) text ->
      m <= str_length text'
      /\ str_offset_to_pos text' m = str_offset_to_pos text m;
}.

(** The assembler holds [charpoint] bytes of the [MB_LEN_MAX] of its array,
    and the widget has a width. *)
Definition assembler_ok (w : WInput) : Prop :=
  Z.of_nat (length (charbuf w)) = MB_LEN_MAX
  /\ 0 <= charpoint w
  /\ 0 <= cols (widget w).

(** Modelled from the spec: [list_append_unique] of lib/util.c, which is
    missing from the sources; the history is a sequence of distinct strings,
    so appending a new newest entry removes the older entries equal to it. *)
Definition list_append_unique_distinct (l : list (list byte)) (t : list byte)
  : list (list byte) :=
  t :: filter (fun e => e <> t) l.

(** Where [input_history_strip_password] starts to look for the colon:
    behind the first delimiter of a VFS prefix, or at the start. *)
Definition colon_search_start (url : list byte) : nat :=
  match strstr url VFS_PATH_URL_DELIMITER with
  | Some delim => (delim + length VFS_PATH_URL_DELIMITER)%nat
  | None => 0%nat
  end.

(** The rule as the specification words it, to be compared with
    [input_history_strip_password]: split on the last at-sign; the colon
    nearest before it that is not the colon of a VFS prefix delimiter is
    the password separator; what lies between that colon and the at-sign
    is dropped. *)
Definition is_separator_colon (url : list byte) (c : nat) : bool :=
  bool_decide (url !! c = Some ":"%byte)
  && negb (is_prefix VFS_PATH_URL_DELIMITER (drop c url)).

Definition strip_password_nearest_colon (url : list byte) : list byte :=
  match strrchr url "@"%byte with
  | None => url
  | Some at_ =>
      match last (filter (fun c => is_separator_colon url c = true) (seq 0 at_)) with
      | Some c => take c url ++ drop at_ url
      | None => url
      end
  end.

(** The number of leading bytes of [l] that satisfy [f]. *)
Fixpoint leading (f : byte -> bool) (l : list byte) : nat :=
  match l with
  | [] => 0%nat
  | b :: l' => if f b then S (leading f l') else 0%nat
  end.

(** [str_isspace (p) || str_ispunct (p)] on the byte at [p], for the
    classifier of a single-byte locale. *)
Definition separator_byte (isspace ispunct : byte -> bool) (b : byte) : bool :=
  isspace b || ispunct b.

(** Where the loops of [mc_winput_cmd_backward_word] over separators and
    word start from, in a single-byte locale: its first loop steps back
    once when point is at the end of a text that is not empty. *)
Definition backward_word_start (text : list byte) (p : Z) : Z :=
  if (p =? Z.of_nat (length text)) && negb (p =? 0) then p - 1 else p.

(** ** Widgets to run the functions on *)

Module Scenario.

(** A widget of ten columns, created with [text] in a single-byte locale. *)
Definition created (text : string) : WInput :=
  @input_new str_8bit 10 (Some (bytes text)) None.

(** Scenario D of the specification: "abcdef", the mark set at 2, point
    moved to 5. *)
Definition marked : WInput :=
  set_point 5 (input_mark_cmd (set_point 2 (created "abcdef")) true).

(** The cursor moved to 3 in "abcdef"; nothing is selected. *)
Definition moved : WInput := set_point 3 (created "abcdef").

(** A widget of three columns that holds "abc": its buffer is full. *)
Definition full : WInput := @input_new str_8bit 3 (Some (bytes "abc")) None.

(** A widget of three columns that holds "ab": one more byte fits. *)
Definition nearly_full : WInput :=
  @input_new str_8bit 3 (Some (bytes "ab")) None.

(** A widget in a UTF-8 locale with the cursor behind the "h" of "hllo". *)
Definition utf8_created : WInput :=
  set_point 1 (@input_new str_utf8 10 (Some (bytes "hllo")) None).


(** An empty widget in a UTF-8 locale after the first byte of a two-byte
    character was typed. *)
Definition utf8_pending : WInput :=
  snd (@insert_char str_utf8 (@input_new str_utf8 10 None None) 195 None).

(** A widget with a history called "cmdline" whose owner asked for
    passwords to be stripped. *)
Definition with_history : WInput :=
  set_strip_password true
    (@input_new str_8bit 10 None (Some (bytes "cmdline"))).

(** "abc" after it was pushed to the history. *)
Definition pushed : WInput :=
  push_history list_append_unique_distinct (created "abc") (Some (bytes "abc")).

(** "abc" is the newest entry of a history that is clean. *)
Definition saved : WInput :=
  set_history
    {| h_name := Some (bytes "cmdline"); h_list := [bytes "abc"];
       h_current := Some 0%nat; h_changed := false |}
    (created "abc").

(** The newest entry of a clean history is the empty text. *)
Definition empty_entry : WInput :=
  set_history
    {| h_name := Some (bytes "cmdline"); h_list := [[]];
       h_current := Some 0%nat; h_changed := false |}
    (created "").

(** The history holds an entry of two blanks and is clean. *)
Definition blank_history : WInput :=
  set_history
    {| h_name := Some (bytes "cmdline"); h_list := [bytes "  "];
       h_current := Some 0%nat; h_changed := false |}
    (created "").

(** Twenty characters in a widget of ten columns, shown in an active
    dialog, before it was drawn. *)
Definition wide : WInput :=
  set_widget {| cols := 10;
                owner := Some {| state := DLG_ACTIVE; ret_value := 0 |} |}
    (created "01234567890123456789").

(** A process whose kill ring holds "xyz". *)
Definition killed_xyz : process :=
  {| kill_buffer := Some (bytes "xyz"); raised := [] |}.

(** A process with an empty kill ring. *)
Definition fresh_process : process := {| kill_buffer := None; raised := [] |}.

(** "ab" with the cursor between the two letters. *)
Definition ab : WInput := set_point 1 (created "ab").

End Scenario.

(** ** More widgets, two keymaps and a classifier to run the functions on *)

Module Session.

(** "abcdef" with "cde" selected, the mark at 2 and point at 5, after a
    first key was handled. *)
Definition selected : WInput := set_first false Scenario.marked.

(** "abcdef" with the cursor at 3, after a first key was handled. *)
Definition touched : WInput := set_first false Scenario.moved.

(** A history of three entries, the newest first. *)
Definition three_entries : input_history_t :=
  {| h_name := Some (bytes "cmdline");
     h_list := [bytes "ls"; bytes "cd /tmp"; bytes "make"];
     h_current := Some 0%nat; h_changed := false |}.

(** "ls", the newest entry of that history, as the history commands leave
    it in the widget. *)
Definition recalled : WInput :=
  set_need_push false (set_history three_entries (Scenario.created "ls")).

(** "ls -l" typed into a widget with that history. *)
Definition edited : WInput :=
  set_history three_entries (Scenario.created "ls -l").


(** A keymap that binds no key. *)
Definition no_keys : Z -> WInput -> option (WInput * bool) :=
  fun _ _ => None.

(** A keymap that binds two keys: 1 to the command that moves to the
    beginning of the line, 1000 to the two commands that extend the
    selection by one character to the left. *)
Definition two_keys (key : Z) (w : WInput) : option (WInput * bool) :=
  if key =? 1 then Some (mc_winput_cmd_begin_of_line w, false)
  else if key =? 1000 then
    Some (@mc_winput_cmd_backward_char str_8bit
            (mc_winput_cmd_start_highlight w), false)
  else None.

(** A classifier: the white space of ASCII and some punctuation. *)
Definition isspace : byte -> bool := g_ascii_isspace.

Definition ispunct (b : byte) : bool := bool_decide (b ∈ bytes ".,;:/-").

(** "cp a.c, b.c" with the cursor behind "cp". *)
Definition command_line : WInput :=
  set_first false (set_point 2 (Scenario.created "cp a.c, b.c")).

End Session.

(** ** Properties *)

Section CStrings.

Implicit Types a u v : list byte.

Lemma c_str_app a u : x00 ∉ u -> c_str (u ++ a) = u ++ c_str a.
Proof.
  induction u as [|b u IH]; intros Hu; [reflexivity|].
  apply not_elem_of_cons in Hu as [Hb Hu]. simpl.
  destruct (decide (b = x00)) as [E|_]; [congruence|].
  now rewrite IH.
Qed.

Lemma c_str_nul a : c_str (x00 :: a) = [].
Proof. reflexivity. Qed.

Lemma c_str_no_nul a : x00 ∉ c_str a.
Proof.
  induction a as [|b a IH]; simpl; [apply not_elem_of_nil|].
  destruct (decide (b = x00)); [apply not_elem_of_nil|].
  apply not_elem_of_cons. split; [congruence|assumption].
Qed.

Lemma c_str_length a : (length (c_str a) <= length a)%nat.
Proof.
  induction a as [|b a IH]; simpl; [lia|].
  destruct (decide (b = x00)); simpl; lia.
Qed.

(** A terminated array is its string, the NUL, and what follows. *)
Lemma terminated_split a :
  terminated a -> exists r, a = c_str a ++ x00 :: r.
Proof.
  unfold terminated, strlen. induction a as [|b a IH]; simpl.
  - lia.
  - destruct (decide (b = x00)) as [->|Hb]; simpl; intros H.
    + now exists a.
    + destruct IH as [r Hr]; [lia|]. exists r. now rewrite <- Hr.
Qed.

Lemma c_str_split u a : x00 ∉ u -> c_str (u ++ x00 :: a) = u.
Proof.
  intros Hu. rewrite c_str_app by assumption. simpl. apply app_nil_r.
Qed.

Lemma not_elem_of_take u (n : nat) : x00 ∉ u -> x00 ∉ take n u.
Proof. intros Hu Hin. apply Hu. eapply subseteq_take, Hin. Qed.

Lemma not_elem_of_drop u (n : nat) : x00 ∉ u -> x00 ∉ drop n u.
Proof. intros Hu Hin. apply Hu. eapply subseteq_drop, Hin. Qed.

(** The string that starts [n] bytes into a string. *)
Lemma c_str_drop a (n : nat) :
  (n <= length (c_str a))%nat -> c_str (drop n a) = drop n (c_str a).
Proof.
  revert n. induction a as [|b a IH]; intros n Hn.
  - rewrite drop_nil. simpl. now rewrite drop_nil.
  - destruct n as [|n]; [reflexivity|]. simpl in *.
    destruct (decide (b = x00)); simpl in *; [lia|].
    apply IH. lia.
Qed.

Lemma strlen_drop a (n : Z) :
  0 <= n <= strlen a -> strlen (drop (Z.to_nat n) a) = strlen a - n.
Proof.
  unfold strlen. intros Hn. rewrite c_str_drop by lia.
  rewrite length_drop. lia.
Qed.

(** [memmove] of the tail of a string, with its NUL, onto an earlier
    position of the string. *)
Lemma memmove_tail a (f l : Z) :
  terminated a -> 0 <= f <= l -> l <= strlen a ->
  exists r,
    memmove a f l (strlen (drop (Z.to_nat l) a) + 1)
    = (take (Z.to_nat f) (c_str a) ++ drop (Z.to_nat l) (c_str a)) ++ x00 :: r
    /\ length (memmove a f l (strlen (drop (Z.to_nat l) a) + 1)) = length a.
Proof.
  intros Ht Hf Hl. rewrite strlen_drop by lia.
  destruct (terminated_split a Ht) as [r Hr].
  unfold strlen in *. set (s := c_str a) in *.
  exists (drop (Z.to_nat (f + (Z.of_nat (length s) - l + 1))) a).
  assert (Hmv : memmove a f l (Z.of_nat (length s) - l + 1)
    = (take (Z.to_nat f) s ++ drop (Z.to_nat l) s) ++ x00 ::
        drop (Z.to_nat (f + (Z.of_nat (length s) - l + 1))) a).
  { unfold memmove.
    assert (H1 : take (Z.to_nat f) a = take (Z.to_nat f) s).
    { rewrite Hr at 1. now rewrite take_app_le by lia. }
    assert (H2 : take (Z.to_nat (Z.of_nat (length s) - l + 1))
                   (drop (Z.to_nat l) a) = drop (Z.to_nat l) s ++ [x00]).
    { rewrite Hr at 1. rewrite drop_app_le by lia.
      rewrite take_app_ge by (rewrite length_drop; lia).
      rewrite length_drop.
      replace (Z.to_nat (Z.of_nat (length s) - l + 1)
               - (length s - Z.to_nat l))%nat with 1%nat by lia.
      reflexivity. }
    rewrite H1, H2, <- !app_assoc. reflexivity. }
  split; [exact Hmv|].
  rewrite Hmv. rewrite !length_app, length_take, length_drop. simpl.
  rewrite length_drop.
  assert (length a = length s + S (length r))%nat
    by (rewrite Hr at 1; rewrite length_app; reflexivity).
  lia.
Qed.

End CStrings.

(** *** Every text is well formed for the single-byte string layer *)

Lemma str_8bit_text_ok (text : list byte) : @text_ok str_8bit text.
Proof.
  constructor; simpl.
  - intros m Hm. lia.
  - intros m n Hm Hn. lia.
  - intros text' m Hm Htake. split; [|reflexivity].
    apply (f_equal length) in Htake. rewrite !length_take in Htake. lia.
Qed.

Section Editing.

Context {used_class : str_class}.

Lemma input_eval_marks_active (w : WInput) :
  highlight w = true ->
  input_eval_marks w
  = (true, Z.min (mark w) (point w), Z.max (mark w) (point w)).
Proof. unfold input_eval_marks. now intros ->. Qed.

Lemma input_eval_marks_inactive (w : WInput) :
  highlight w = false -> input_eval_marks w = (false, 0, 0).
Proof. unfold input_eval_marks. now intros ->. Qed.

(** The byte positions of two valid offsets, in order. *)
Lemma valid_offsets_pos (w : WInput) (a b : Z) :
  text_ok (text_of w) -> valid_offset w a -> valid_offset w b ->
  0 <= str_offset_to_pos (text_of w) (Z.min a b)
    <= str_offset_to_pos (text_of w) (Z.max a b)
  /\ str_offset_to_pos (text_of w) (Z.max a b) <= strlen (buffer w).
Proof.
  unfold valid_offset, strlen, text_of. intros Htxt Ha Hb.
  pose proof (offset_bounds _ Htxt _ Ha) as Ba.
  pose proof (offset_bounds _ Htxt _ Hb) as Bb.
  destruct (Z.lt_total a b) as [Hab|[->|Hab]].
  - pose proof (offset_strict _ Htxt a b) as Hs.
    rewrite Z.min_l, Z.max_r by lia. lia.
  - rewrite Z.min_id, Z.max_id. lia.
  - pose proof (offset_strict _ Htxt b a) as Hs.
    rewrite Z.min_r, Z.max_l by lia. lia.
Qed.

Lemma delete_region_buffer (w : WInput) (a b : Z) :
  buffer (delete_region w a b)
  = memmove (buffer w)
      (str_offset_to_pos (text_of w) (Z.min a b))
      (str_offset_to_pos (text_of w) (Z.max a b))
      (strlen (drop (Z.to_nat (str_offset_to_pos (text_of w) (Z.max a b)))
                 (buffer w)) + 1).
Proof. reflexivity. Qed.

(** What [delete_region] does between two valid offsets. *)
Lemma delete_region_text (w : WInput) (a b : Z) :
  buffer_ok w -> text_ok (text_of w) ->
  valid_offset w a -> valid_offset w b ->
  let lo := str_offset_to_pos (text_of w) (Z.min a b) in
  let hi := str_offset_to_pos (text_of w) (Z.max a b) in
  let w' := delete_region w a b in
  text_of w' = take (Z.to_nat lo) (text_of w) ++ drop (Z.to_nat hi) (text_of w)
  /\ highlight w' = false
  /\ point w' = Z.min a b
  /\ buffer_ok w'.
Proof.
  intros [Hsz Ht] Htxt Ha Hb lo hi w'.
  destruct (valid_offsets_pos w a b Htxt Ha Hb) as [Hlo Hhi].
  fold lo hi in Hlo, Hhi.
  destruct (memmove_tail (buffer w) lo hi Ht Hlo Hhi) as (r & Hmv & Hlen).
  assert (Hbuf : buffer w'
    = memmove (buffer w) lo hi (strlen (drop (Z.to_nat hi) (buffer w)) + 1))
    by reflexivity.
  assert (Hnul : x00 ∉ take (Z.to_nat lo) (c_str (buffer w))
                       ++ drop (Z.to_nat hi) (c_str (buffer w))).
  { rewrite not_elem_of_app. split.
    - apply not_elem_of_take, c_str_no_nul.
    - apply not_elem_of_drop, c_str_no_nul. }
  assert (Htext : text_of w'
    = take (Z.to_nat lo) (text_of w) ++ drop (Z.to_nat hi) (text_of w)).
  { unfold text_of at 1. rewrite Hbuf, Hmv. now apply c_str_split. }
  repeat split; try reflexivity.
  - exact Htext.
  - rewrite Hbuf, Hlen. exact Hsz.
  - unfold terminated, strlen. fold (text_of w'). rewrite Htext, Hbuf, Hlen.
    unfold terminated, strlen in Ht. unfold text_of.
    rewrite length_app, length_take, length_drop. lia.
Qed.

End Editing.

(** *** The loop that opens the gap for a character *)

Section Gap.

Implicit Types a p s g cb : list byte.

Lemma wr_nat a (n : nat) b : wr a (Z.of_nat n) b = <[n := b]> a.
Proof.
  unfold wr. destruct (Z.ltb_spec (Z.of_nat n) 0); [lia|].
  now rewrite Nat2Z.id.
Qed.

Lemma rd_nat a (n : nat) : rd a (Z.of_nat n) = default x00 (a !! n).
Proof.
  unfold rd. destruct (Z.ltb_spec (Z.of_nat n) 0); [lia|].
  now rewrite Nat2Z.id.
Qed.

Lemma length_wr a i b : length (wr a i b) = length a.
Proof. unfold wr. destruct (i <? 0); [reflexivity|apply length_insert]. Qed.

Lemma insert_char_shift_length a ins cp i :
  length (insert_char_shift a ins cp i) = length a.
Proof.
  revert a. induction i as [|i IH]; intros a; [reflexivity|].
  simpl. rewrite IH. apply length_wr.
Qed.

(** After the loop the [i] bytes from [ins] on are found [cp] bytes further
    on, and every other byte is where it was. *)
Lemma insert_char_shift_lookup (ins cp i : nat) a (k : nat) :
  (ins + i + cp <= length a)%nat ->
  insert_char_shift a (Z.of_nat ins) (Z.of_nat cp) i !! k
  = if decide (ins + cp <= k < ins + cp + i)%nat then a !! (k - cp)%nat
    else a !! k.
Proof.
  revert a. induction i as [|i IH]; intros a Hlen.
  - simpl. destruct (decide _); [lia|reflexivity].
  - cbn [insert_char_shift].
    replace (Z.of_nat ins + Z.of_nat (S i) + Z.of_nat cp - 1)
      with (Z.of_nat (ins + i + cp)) by lia.
    replace (Z.of_nat ins + Z.of_nat (S i) - 1)
      with (Z.of_nat (ins + i)) by lia.
    rewrite wr_nat, rd_nat, IH by (rewrite length_insert; lia).
    destruct (lookup_lt_is_Some_2 a (ins + i)%nat) as [x Hx]; [lia|].
    rewrite Hx. simpl.
    destruct (decide (ins + cp <= k < ins + cp + i)%nat).
    + rewrite list_lookup_insert_ne by lia.
      destruct (decide _); [reflexivity|lia].
    + destruct (decide (k = ins + i + cp)%nat) as [->|Hk].
      * rewrite list_lookup_insert_eq by lia.
        destruct (decide _); [|lia].
        replace (ins + i + cp - cp)%nat with (ins + i)%nat by lia.
        now rewrite Hx.
      * rewrite list_lookup_insert_ne by lia.
        destruct (decide _); [lia|reflexivity].
Qed.

(** The loop and the [memcpy] after it put the bytes of the character
    between the text before the insertion point and the text after it. *)
Lemma insert_char_gap p s g cb (cp : Z) :
  0 <= cp <= Z.of_nat (length cb) -> cp <= Z.of_nat (length g) ->
  memcpy
    (insert_char_shift (p ++ s ++ x00 :: g) (Z.of_nat (length p)) cp
       (Z.to_nat (Z.of_nat (length s) + 1)))
    (Z.of_nat (length p)) cb cp
  = p ++ take (Z.to_nat cp) cb ++ s ++ x00 :: drop (Z.to_nat cp) g.
Proof.
  intros Hcp Hg.
  set (a := p ++ s ++ x00 :: g).
  set (n := Z.to_nat cp).
  replace cp with (Z.of_nat n) by lia.
  replace (Z.to_nat (Z.of_nat (length s) + 1)) with (S (length s)) by lia.
  set (a' := insert_char_shift a (Z.of_nat (length p)) (Z.of_nat n) (S (length s))).
  assert (Hla : length a = (length p + S (length s) + length g)%nat).
  { unfold a. rewrite !length_app. simpl. lia. }
  assert (Hlk : forall k, a' !! k
    = if decide (length p + n <= k < length p + n + S (length s))%nat
      then a !! (k - n)%nat else a !! k).
  { intros k. apply insert_char_shift_lookup. lia. }
  assert (Hla' : length a' = length a) by apply insert_char_shift_length.
  unfold memcpy. rewrite Nat2Z.id. f_equal; [|f_equal].
  - apply list_eq. intros k.
    destruct (decide (k < length p)%nat) as [Hk|Hk].
    + rewrite lookup_take_lt by lia. rewrite Hlk.
      destruct (decide _); [lia|]. unfold a. now rewrite lookup_app_l by lia.
    + rewrite lookup_take_ge by lia. symmetry. apply lookup_ge_None_2. lia.
  - now rewrite Nat2Z.id.
  - replace (Z.to_nat (Z.of_nat (length p) + Z.of_nat n))
      with (length p + n)%nat by lia.
    apply list_eq. intros k. rewrite lookup_drop, Hlk.
    destruct (decide _) as [Hk|Hk].
    + replace (length p + n + k - n)%nat with (length p + k)%nat by lia.
      unfold a. rewrite lookup_app_r by lia.
      replace (length p + k - length p)%nat with k by lia.
      change (x00 :: drop n g) with ([x00] ++ drop n g).
      change (x00 :: g) with ([x00] ++ g).
      rewrite !app_assoc.
      rewrite !(lookup_app_l (s ++ [x00])) by (rewrite length_app; simpl; lia).
      reflexivity.
    + unfold a. rewrite lookup_app_r by lia.
      change (x00 :: drop n g) with ([x00] ++ drop n g).
      change (x00 :: g) with ([x00] ++ g).
      rewrite !app_assoc.
      rewrite !(lookup_app_r (s ++ [x00])) by (rewrite length_app; simpl; lia).
      rewrite lookup_drop. f_equal. rewrite length_app. simpl. lia.
Qed.

End Gap.

(** *** Growing the buffer and putting the character in *)

Section Put.

Implicit Types a cb fresh : list byte.

(** A buffer that was grown holds the string it held. *)
Lemma resize_terminated a fresh (n : nat) :
  terminated a -> (length a <= n)%nat ->
  c_str (resize n x00 (a ++ fresh)) = c_str a
  /\ terminated (resize n x00 (a ++ fresh))
  /\ length (resize n x00 (a ++ fresh)) = n.
Proof.
  intros Ht Hn. destruct (terminated_split a Ht) as [r Hr].
  assert (Hc : c_str (resize n x00 (a ++ fresh)) = c_str a).
  { rewrite resize_app_ge by lia. rewrite Hr at 1.
    rewrite <- app_assoc. simpl. apply c_str_split, c_str_no_nul. }
  repeat split.
  - exact Hc.
  - unfold terminated, strlen in *. rewrite Hc, length_resize. lia.
  - apply length_resize.
Qed.

(** The gap loop and the copy, on a terminated array with room for [cp]
    more bytes. *)
Lemma insert_char_put a cb (ins cp : Z) :
  terminated a -> 0 <= ins <= strlen a ->
  0 <= cp <= Z.of_nat (length cb) ->
  strlen a + cp < Z.of_nat (length a) ->
  let a' :=
    memcpy
      (insert_char_shift a ins cp
         (Z.to_nat (strlen (drop (Z.to_nat ins) a) + 1)))
      ins cb cp in
  exists r,
    a' = take (Z.to_nat ins) (c_str a) ++ take (Z.to_nat cp) cb
         ++ drop (Z.to_nat ins) (c_str a) ++ x00 :: r
    /\ length a' = length a.
Proof.
  intros Ht Hins Hcp Hfit a'.
  destruct (terminated_split a Ht) as [g Hg].
  assert (Hla : length a = (length (c_str a) + S (length g))%nat).
  { rewrite Hg at 1. rewrite length_app. reflexivity. }
  unfold strlen in Hins, Hfit.
  set (t := c_str a) in *.
  set (p := take (Z.to_nat ins) t). set (s := drop (Z.to_nat ins) t).
  assert (Hp : Z.of_nat (length p) = ins)
    by (unfold p; rewrite length_take; lia).
  assert (Hs : Z.of_nat (length s) = Z.of_nat (length t) - ins)
    by (unfold s; rewrite length_drop; lia).
  assert (Ha : a = p ++ s ++ x00 :: g).
  { rewrite app_assoc. unfold p, s. now rewrite take_drop. }
  assert (Hrest : strlen (drop (Z.to_nat ins) a) = Z.of_nat (length s)).
  { rewrite strlen_drop by (unfold strlen; fold t; lia).
    unfold strlen. fold t. lia. }
  exists (drop (Z.to_nat cp) g).
  assert (Ha' : a' = p ++ take (Z.to_nat cp) cb ++ s
                     ++ x00 :: drop (Z.to_nat cp) g).
  { unfold a'. rewrite Hrest. rewrite Ha at 1. rewrite <- Hp.
    apply insert_char_gap; lia. }
  split; [exact Ha'|].
  rewrite Ha', Hla. rewrite !length_app, length_take. simpl.
  rewrite length_drop. lia.
Qed.

End Put.

(** *** Inserting a character *)

(** Closing a goal about a concrete widget by running the functions. *)
Ltac run := vm_compute; repeat split; try reflexivity; try discriminate.

(** A byte that does not occur in a concrete string. *)
Ltac absent := refine (bool_decide_unpack _ _); vm_compute; exact I.

(** Reading a field of a widget that was assigned to. *)
Ltac fields :=
  unfold text_of in *;
  cbn [widget point mark highlight term_first_shown current_max_size first
       disable_update is_highlight_cmd buffer need_push strip_password
       completions charbuf charpoint history
       set_point set_mark set_highlight set_term_first_shown
       set_current_max_size set_first set_is_highlight_cmd set_buffer
       set_need_push set_completions set_charbuf set_charpoint set_history]
    in *.

Section InsertChar.

Context {used_class : str_class}.

Lemma highlight_input_delete_selection (w : WInput) :
  highlight (input_delete_selection w) = false.
Proof.
  unfold input_delete_selection, input_eval_marks.
  destruct (highlight w) eqn:H; [reflexivity|exact H].
Qed.

(** [insert_char] starts with what [input_delete_selection] does. *)
Lemma insert_char_after_selection (w : WInput) (c : Z) heap :
  insert_char w c heap = insert_char (input_delete_selection w) c heap.
Proof.
  unfold input_delete_selection, input_eval_marks.
  destruct (highlight w) eqn:H; [|reflexivity].
  remember (delete_region w (Z.min (mark w) (point w))
              (Z.max (mark w) (point w))) as w1 eqn:Hw1.
  assert (H1 : highlight w1 = false) by (subst w1; reflexivity).
  unfold insert_char, input_eval_marks. rewrite H, H1. cbv iota.
  rewrite <- Hw1. reflexivity.
Qed.

(** A byte that does not complete a character changes the assembler only. *)
Lemma insert_char_incomplete (w : WInput) (c : Z) heap :
  highlight w = false -> c <> -1 -> charpoint w < MB_LEN_MAX ->
  str_is_valid_char (wr (charbuf w) (charpoint w) (char_of_int c))
    (charpoint w + 1) < 0 ->
  exists w',
    insert_char w c heap = (MSG_HANDLED, w')
    /\ buffer w' = buffer w /\ point w' = point w /\ mark w' = mark w
    /\ highlight w' = false /\ current_max_size w' = current_max_size w
    /\ need_push w' = need_push w.
Proof.
  intros Hh Hc Hcp Hres. unfold insert_char. rewrite Hh.
  destruct (Z.eqb_spec c (-1)) as [|_]; [contradiction|].
  destruct (Z.leb_spec MB_LEN_MAX (charpoint w)); [lia|].
  cbn [charbuf charpoint set_charbuf set_charpoint].
  destruct (Z.ltb_spec
    (str_is_valid_char (wr (charbuf w) (charpoint w) (char_of_int c))
       (charpoint w + 1)) 0); [|lia].
  eexists. split; [reflexivity|].
  destruct (negb _); repeat split; assumption.
Qed.

(** A byte that completes a character, and for which there is room or
    room can be made, is put at the byte position of point. *)
Lemma insert_char_complete (w : WInput) (c : Z) heap :
  highlight w = false -> buffer_ok w -> assembler_ok w ->
  c <> -1 -> charpoint w < MB_LEN_MAX ->
  let cb := wr (charbuf w) (charpoint w) (char_of_int c) in
  let cp := charpoint w + 1 in
  let ins := str_offset_to_pos (text_of w) (point w) in
  0 <= str_is_valid_char cb cp ->
  0 <= ins <= strlen (buffer w) ->
  heap <> None \/ strlen (buffer w) + cp < current_max_size w ->
  exists w' r,
    insert_char w c heap = (MSG_HANDLED, w')
    /\ buffer w'
       = take (Z.to_nat ins) (text_of w) ++ take (Z.to_nat cp) cb
         ++ drop (Z.to_nat ins) (text_of w) ++ x00 :: r
    /\ point w' = point w + 1 /\ charpoint w' = 0
    /\ highlight w' = false /\ mark w' = mark w
    /\ Z.of_nat (length (buffer w')) = current_max_size w'.
Proof.
  intros Hh [Hsz Ht] (Hcb & Hcp0 & Hcols) Hc Hcp cb cp ins Hres Hins Hroom.
  unfold text_of in *.
  assert (Hcplen : 0 <= cp <= Z.of_nat (length cb)).
  { unfold cb, cp. rewrite length_wr, Hcb. lia. }
  pose proof Ht as Hlt. unfold terminated in Hlt.
  unfold insert_char. rewrite Hh.
  destruct (Z.eqb_spec c (-1)) as [|_]; [contradiction|].
  destruct (Z.leb_spec MB_LEN_MAX (charpoint w)); [lia|].
  fields.
  fold cb cp.
  destruct (Z.ltb_spec (str_is_valid_char cb cp) 0); [lia|].
  fields.
  destruct (Z.leb_spec (current_max_size w) (strlen (buffer w) + 1 + cp))
    as [Hgrow|Hgrow].
  - destruct heap as [fresh|]; cbn [g_try_renew].
    + set (n := current_max_size w + cols (widget w) + cp).
      destruct (resize_terminated (buffer w) fresh (Z.to_nat n) Ht)
        as (Hc' & Ht' & Hl'); [lia|].
      set (a := resize (Z.to_nat n) x00 (buffer w ++ fresh)) in *.
      fields.
      assert (Hsl : strlen a = strlen (buffer w))
        by (unfold strlen; now rewrite Hc').
      rewrite Hsl.
      destruct (Z.ltb_spec (strlen (buffer w) + cp) n); [|lia].
      fields.
      rewrite Hc'. fold ins.
      destruct (insert_char_put a cb ins cp Ht') as (r & Hr & Hlr);
        [lia|lia|lia|].
      eexists. exists r. split; [reflexivity|].
      fields.
      rewrite <- Hc'.
      repeat split; try assumption; try reflexivity. lia.
    + destruct Hroom as [Hroom|Hroom]; [congruence|].
      fields.
      destruct (Z.ltb_spec (strlen (buffer w) + cp) (current_max_size w));
        [|lia].
      fields.
      fold ins.
      destruct (insert_char_put (buffer w) cb ins cp Ht) as (r & Hr & Hlr);
        [lia|lia|lia|].
      eexists. exists r. split; [reflexivity|].
      fields.
      repeat split; try assumption; try reflexivity. lia.
  - fields.
    destruct (Z.ltb_spec (strlen (buffer w) + cp) (current_max_size w));
      [|lia].
    fields.
    fold ins.
    destruct (insert_char_put (buffer w) cb ins cp Ht) as (r & Hr & Hlr);
      [lia|lia|lia|].
    eexists. exists r. split; [reflexivity|].
    fields.
    repeat split; try assumption; try reflexivity. lia.
Qed.

End InsertChar.

Section InsertCharSelection.

Context {used_class : str_class}.

(** A completed character for which there is no room and no new memory. *)
Lemma insert_char_dropped (w : WInput) (c : Z) :
  highlight w = false -> c <> -1 -> charpoint w < MB_LEN_MAX ->
  0 <= str_is_valid_char (wr (charbuf w) (charpoint w) (char_of_int c))
         (charpoint w + 1) ->
  current_max_size w <= strlen (buffer w) + (charpoint w + 1) ->
  exists w',
    insert_char w c None = (MSG_HANDLED, w')
    /\ buffer w' = buffer w /\ current_max_size w' = current_max_size w
    /\ point w' = point w /\ mark w' = mark w /\ charpoint w' = 0
    /\ need_push w' = true.
Proof.
  intros Hh Hc Hcp Hres Hfull. unfold insert_char. rewrite Hh.
  destruct (Z.eqb_spec c (-1)) as [|_]; [contradiction|].
  destruct (Z.leb_spec MB_LEN_MAX (charpoint w)); [lia|].
  fields.
  destruct (Z.ltb_spec
    (str_is_valid_char (wr (charbuf w) (charpoint w) (char_of_int c))
       (charpoint w + 1)) 0); [lia|].
  fields.
  destruct (Z.leb_spec (current_max_size w)
              (strlen (buffer w) + 1 + (charpoint w + 1))); [|lia].
  cbn [g_try_renew]. fields.
  destruct (Z.ltb_spec (strlen (buffer w) + (charpoint w + 1))
              (current_max_size w)); [lia|].
  eexists. split; [reflexivity|]. fields. repeat split.
Qed.

(** The start of a deleted region is an offset into what is left, at the
    byte position it had. *)
Lemma delete_region_point (w : WInput) (a b : Z) :
  buffer_ok w -> text_ok (text_of w) ->
  valid_offset w a -> valid_offset w b ->
  let w' := delete_region w a b in
  str_offset_to_pos (text_of w') (point w')
  = str_offset_to_pos (text_of w) (Z.min a b).
Proof.
  intros Hok Htxt Ha Hb w'.
  destruct (delete_region_text w a b Hok Htxt Ha Hb) as (Ht & _ & Hp & _).
  destruct (valid_offsets_pos w a b Htxt Ha Hb) as [Hlo Hhi].
  fold w' in Ht, Hp. rewrite Hp.
  apply (offset_prefix _ Htxt).
  - unfold valid_offset in *. lia.
  - rewrite Ht.
    rewrite take_app_le
      by (unfold strlen, text_of in *; rewrite length_take; lia).
    rewrite take_take. f_equal. lia.
Qed.


(** When the character does not fit after the selection is gone and the
    allocator fails, nothing was selected and the insert is dropped. *)
Lemma insert_char_no_memory (w : WInput) (c : Z) :
  buffer_ok w -> assembler_ok w -> c <> -1 ->
  (highlight w = true ->
   text_ok (text_of w)
   /\ valid_offset w (mark w) /\ valid_offset w (point w)) ->
  let w1 := input_delete_selection w in
  charpoint w1 < MB_LEN_MAX ->
  0 <= str_is_valid_char (wr (charbuf w1) (charpoint w1) (char_of_int c))
         (charpoint w1 + 1) ->
  current_max_size w1 <= strlen (buffer w1) + (charpoint w1 + 1) ->
  exists w',
    insert_char w c None = (MSG_HANDLED, w')
    /\ buffer w' = buffer w /\ current_max_size w' = current_max_size w
    /\ point w' = point w /\ charpoint w' = 0 /\ buffer_ok w'.
Proof.
  intros Hok Hasm Hc Hsel w1 Hcp Hres Hfull.
  rewrite insert_char_after_selection. fold w1.
  destruct (insert_char_dropped w1 c) as (w' & Hrun & Hb & Hsz & Hp & _ & Hc0 & _);
    try assumption.
  { apply highlight_input_delete_selection. }
  assert (Hsame : buffer w1 = buffer w /\ current_max_size w1 = current_max_size w
                  /\ point w1 = point w).
  { unfold w1, input_delete_selection, input_eval_marks in *.
    destruct (highlight w) eqn:Hh; [|repeat split].
    destruct (Hsel eq_refl) as (Htxt & Hm & Hp').
    assert (Hlo' : valid_offset w (Z.min (mark w) (point w)))
      by (unfold valid_offset in *; lia).
    assert (Hhi' : valid_offset w (Z.max (mark w) (point w)))
      by (unfold valid_offset in *; lia).
    destruct (delete_region_text w _ _ Hok Htxt Hlo' Hhi')
      as (Ht & _ & Hp1 & _).
    destruct (valid_offsets_pos w _ _ Htxt Hm Hp') as [Hlo Hhi].
    pose proof (delete_region_buffer w (Z.min (mark w) (point w))
                  (Z.max (mark w) (point w))) as Hbuf.
    cbv zeta in Ht, Hp1.
    replace (Z.min (Z.min (mark w) (point w)) (Z.max (mark w) (point w)))
      with (Z.min (mark w) (point w)) in * by lia.
    replace (Z.max (Z.min (mark w) (point w)) (Z.max (mark w) (point w)))
      with (Z.max (mark w) (point w)) in * by lia.
    set (w2 := delete_region w (Z.min (mark w) (point w))
                 (Z.max (mark w) (point w))) in *.
    set (lo := str_offset_to_pos (text_of w) (Z.min (mark w) (point w))) in *.
    set (hi := str_offset_to_pos (text_of w) (Z.max (mark w) (point w))) in *.
    assert (Hsl : strlen (buffer w2) = strlen (buffer w) - (hi - lo)).
    { unfold strlen at 1. fold (text_of w2). rewrite Ht.
      unfold strlen, text_of in *.
      rewrite length_app, length_take, length_drop. lia. }
    destruct Hok as [Hsz0 Hterm]. unfold terminated in Hterm.
    change (current_max_size w2) with (current_max_size w) in Hfull.
    change (charpoint w2) with 0 in Hfull.
    assert (Heq : lo = hi) by lia.
    assert (Hmp : mark w = point w).
    { destruct (Z.lt_total (mark w) (point w)) as [Hlt|[Heq'|Hlt]];
        [|exact Heq'|].
      - pose proof (offset_strict _ Htxt (mark w) (point w)) as Hs.
        unfold lo, hi, valid_offset in *.
        rewrite Z.min_l, Z.max_r in Heq by lia. lia.
      - pose proof (offset_strict _ Htxt (point w) (mark w)) as Hs.
        unfold lo, hi, valid_offset in *.
        rewrite Z.min_r, Z.max_l in Heq by lia. lia. }
    repeat split.
    - rewrite Hbuf, <- Heq. unfold memmove.
      replace (Z.to_nat (lo + (strlen (drop (Z.to_nat lo) (buffer w)) + 1)))
        with (Z.to_nat lo + Z.to_nat (strlen (drop (Z.to_nat lo) (buffer w)) + 1))%nat
        by (unfold strlen; lia).
      rewrite <- drop_drop, take_drop. apply take_drop.
    - rewrite Hp1. lia. }
  destruct Hsame as (Hb1 & Hsz1 & Hp1).
  exists w'. rewrite Hb, Hsz, Hp, Hb1, Hsz1, Hp1.
  repeat split; try assumption.
  - destruct Hok as [Hl _]. unfold buffer_ok. rewrite Hb, Hb1, Hsz, Hsz1.
    exact Hl.
  - destruct Hok as [_ Ht]. rewrite Hb, Hb1. exact Ht.
Qed.

End InsertCharSelection.

(** *** Searching a string *)

Section Search.

Implicit Types s u h : list byte.

Lemma strrchr_None s (c : byte) : c ∉ s -> strrchr s c = None.
Proof.
  induction s as [|b s IH]; intros Hc; [reflexivity|].
  apply not_elem_of_cons in Hc as [Hb Hs]. simpl. rewrite IH by assumption.
  destruct (decide (b = c)); [congruence|reflexivity].
Qed.

(** The last occurrence is the one with no occurrence behind it. *)
Lemma strrchr_last s h (c : byte) :
  c ∉ h -> strrchr (s ++ c :: h) c = Some (length s).
Proof.
  intros Hc. induction s as [|b s IH]; simpl.
  - rewrite strrchr_None by assumption.
    destruct (decide (c = c)); [reflexivity|congruence].
  - now rewrite IH.
Qed.

Lemma strchr_from_lookup s (c : byte) (from i : nat) :
  strchr_from s c from = Some i -> s !! i = Some c /\ (from <= i)%nat.
Proof.
  revert from i. induction s as [|b s IH]; intros from i; [discriminate|].
  destruct from as [|from]; simpl.
  - destruct (decide (b = c)) as [->|_].
    + intros [= <-]. split; [reflexivity|lia].
    + destruct (strchr_from s c 0) as [j|] eqn:E; [|discriminate].
      intros [= <-]. destruct (IH _ _ E). split; [assumption|lia].
  - destruct (strchr_from s c from) as [j|] eqn:E; [|discriminate].
    intros [= <-]. destruct (IH _ _ E). split; [assumption|lia].
Qed.

(** The first occurrence behind [pre] is the one with no occurrence
    between [pre] and it. *)
Lemma strchr_from_first (pre u rest : list byte) (c : byte) :
  c ∉ u ->
  strchr_from (pre ++ u ++ c :: rest) c (length pre)
  = Some (length pre + length u)%nat.
Proof.
  intros Hc. induction pre as [|b pre IH]; simpl.
  - induction u as [|b u IHu]; simpl.
    + destruct (decide (c = c)); [reflexivity|congruence].
    + apply not_elem_of_cons in Hc as [Hb Hu].
      destruct (decide (b = c)); [congruence|].
      now rewrite IHu.
  - now rewrite IH.
Qed.

Lemma lookup_middle_ne (u h : list byte) (a c : byte) (i : nat) :
  c ∉ u -> a <> c -> (u ++ a :: h) !! i = Some c -> (length u < i)%nat.
Proof.
  intros Hu Ha Hi.
  destruct (decide (i < length u)%nat) as [Hlt|Hge].
  - rewrite lookup_app_l in Hi by assumption.
    exfalso. apply Hu. eapply list_elem_of_lookup_2, Hi.
  - destruct (decide (i = length u)) as [->|Hne]; [|lia].
    rewrite list_lookup_middle in Hi by reflexivity. congruence.
Qed.

End Search.

(** *** The password of a URL *)

Section StripPassword.

Implicit Types url pre u p h : list byte.

Lemma colon_lookup url (from i : nat) :
  strchr_from url ":"%byte from = Some i -> url !! i = Some ":"%byte.
Proof. intros H. now apply strchr_from_lookup in H. Qed.

(** The function in one equation: the last at-sign and the first colon
    behind the start of the search decide. *)
Lemma input_history_strip_password_eq url :
  input_history_strip_password url
  = match strrchr url "@"%byte,
          strchr_from url ":"%byte (colon_search_start url) with
    | Some at_, Some c =>
        if bool_decide (at_ < c)%nat then url else take c url ++ drop at_ url
    | _, _ => url
    end.
Proof.
  unfold input_history_strip_password, colon_search_start, strchr.
  destruct (strrchr url "@"%byte) as [at_|]; [|reflexivity].
  destruct (strstr url VFS_PATH_URL_DELIMITER) as [delim|];
    destruct (strchr_from url ":"%byte _) as [c|]; try reflexivity;
    destruct (bool_decide _); reflexivity.
Qed.

(** No at-sign: nothing to strip. *)
Lemma strip_password_no_at url :
  "@"%byte ∉ url -> input_history_strip_password url = url.
Proof.
  intros H. unfold input_history_strip_password.
  now rewrite strrchr_None.
Qed.

(** No colon before the last at-sign: nothing to strip. *)
Lemma strip_password_colon_after_at u h :
  ":"%byte ∉ u -> "@"%byte ∉ h ->
  input_history_strip_password (u ++ "@"%byte :: h) = u ++ "@"%byte :: h.
Proof.
  intros Hu Hh. unfold input_history_strip_password.
  rewrite strrchr_last by assumption.
  assert (Hafter : forall from c,
    strchr_from (u ++ "@"%byte :: h) ":"%byte from = Some c ->
    (length u < c)%nat).
  { intros from c Hc. apply colon_lookup in Hc.
    eapply lookup_middle_ne; [exact Hu| |exact Hc]. discriminate. }
  destruct (strstr _ VFS_PATH_URL_DELIMITER) as [delim|].
  - destruct (strchr_from _ _ _) as [c|] eqn:E; [|reflexivity].
    apply Hafter in E. rewrite bool_decide_eq_true_2 by assumption.
    reflexivity.
  - unfold strchr. destruct (strchr_from _ _ _) as [c|] eqn:E; [|reflexivity].
    apply Hafter in E. rewrite bool_decide_eq_true_2 by assumption.
    reflexivity.
Qed.

(** The first colon behind the prefix lies before the last at-sign: the
    text from that colon up to the at-sign goes. *)
Lemma strip_password_strips pre u p h :
  length pre = colon_search_start (pre ++ u ++ ":"%byte :: p ++ "@"%byte :: h) ->
  ":"%byte ∉ u -> "@"%byte ∉ h ->
  input_history_strip_password (pre ++ u ++ ":"%byte :: p ++ "@"%byte :: h)
  = pre ++ u ++ "@"%byte :: h.
Proof.
  intros Hpre Hu Hh.
  set (url := pre ++ u ++ ":"%byte :: p ++ "@"%byte :: h) in *.
  assert (Hat : strrchr url "@"%byte
                = Some (length pre + length u + S (length p))%nat).
  { unfold url.
    replace (pre ++ u ++ ":"%byte :: p ++ "@"%byte :: h)
      with ((pre ++ u ++ ":"%byte :: p) ++ "@"%byte :: h)
      by (rewrite <- !app_assoc; reflexivity).
    rewrite strrchr_last by assumption.
    rewrite !length_app. simpl. f_equal. lia. }
  assert (Hcolon : strchr_from url ":"%byte (length pre)
                   = Some (length pre + length u)%nat)
    by (apply strchr_from_first; assumption).
  assert (Htake : take (length pre + length u) url = pre ++ u).
  { unfold url. rewrite (app_assoc pre u).
    apply take_app_length'. now rewrite length_app. }
  assert (Hdrop : drop (length pre + length u + S (length p)) url
                  = "@"%byte :: h).
  { unfold url.
    replace (pre ++ u ++ ":"%byte :: p ++ "@"%byte :: h)
      with ((pre ++ u ++ ":"%byte :: p) ++ "@"%byte :: h)
      by (rewrite <- !app_assoc; reflexivity).
    apply drop_app_length'. rewrite !length_app. simpl. lia. }
  unfold input_history_strip_password. rewrite Hat.
  unfold colon_search_start in Hpre. unfold strchr.
  destruct (strstr url VFS_PATH_URL_DELIMITER) as [delim|];
    rewrite <- Hpre, Hcolon;
    rewrite bool_decide_eq_false_2 by lia;
    rewrite Htake, Hdrop; now rewrite <- app_assoc.
Qed.

End StripPassword.

(** *** The history *)

Section History.

Context (list_append_unique : list (list byte) -> list byte -> list (list byte)).

(** [push_history] leaves the list alone when the text is the newest entry
    of a clean list. *)
Lemma push_history_skip (w : WInput) (text : list byte) :
  head (h_list (history w)) = Some (push_history_text w text) ->
  h_changed (history w) = false ->
  push_history list_append_unique w (Some text) = set_need_push false w.
Proof.
  intros Hhd Hch. unfold push_history.
  rewrite Hch, orb_false_r.
  rewrite (bool_decide_eq_false_2 (head _ <> _)) by (intros H; now apply H).
  rewrite orb_false_r.
  rewrite bool_decide_eq_false_2; [reflexivity|].
  intros E. rewrite E in Hhd. discriminate.
Qed.

(** Otherwise it hands the text to [list_append_unique]. *)
Lemma push_history_append (w : WInput) (text : list byte) :
  ~ (head (h_list (history w)) = Some (push_history_text w text)
     /\ h_changed (history w) = false) ->
  let l := list_append_unique (h_list (history w)) (push_history_text w text) in
  push_history list_append_unique w (Some text)
  = set_need_push false
      (set_history {| h_name := h_name (history w); h_list := l;
                      h_current := newest_link l; h_changed := true |} w).
Proof.
  intros Hn l. unfold push_history.
  destruct (h_changed (history w)) eqn:Hch.
  - now rewrite orb_true_r.
  - rewrite orb_false_r.
    destruct (decide (head (h_list (history w))
                      = Some (push_history_text w text))) as [E|E].
    + exfalso. apply Hn. now split.
    + rewrite (bool_decide_eq_true_2 _ E). now rewrite orb_true_r.
Qed.

(** The text offered to the list is the text pushed, without its password
    where the widget asks for that, unless the text is blank. *)
Lemma push_history_text_not_blank (w : WInput) (text : list byte) :
  g_strstrip text <> [] ->
  push_history_text w text
  = if bool_decide (h_name (history w) <> None) && strip_password w
    then input_history_strip_password text else text.
Proof.
  intros Hne. unfold push_history_text.
  rewrite (bool_decide_eq_false_2 _ Hne). reflexivity.
Qed.

(** After a push the newest entry is the text offered. *)
Lemma push_history_newest (w : WInput) (text : list byte) :
  (forall l t, head (list_append_unique l t) = Some t) ->
  head (h_list (history (push_history list_append_unique w (Some text))))
  = Some (push_history_text w text).
Proof.
  intros Hlau.
  destruct (decide (head (h_list (history w)) = Some (push_history_text w text)
                    /\ h_changed (history w) = false)) as [[Hhd Hch]|Hn].
  - rewrite push_history_skip by assumption. exact Hhd.
  - rewrite push_history_append by assumption. apply Hlau.
Qed.

End History.

(** *** The viewport *)

Section Viewport.

Context {used_class : str_class}.

(** What a redraw does to the widget. *)
Lemma input_update_redraw (w : WInput) (clear_first : bool) (d : WDialog) :
  disable_update w = 0 -> owner (widget w) = Some d -> state d = DLG_ACTIVE ->
  let pw := str_term_width2 (text_of w) (point w) in
  let shown :=
    if (pw <? term_first_shown w)
       || (term_first_shown w + visible_width w <=? pw)
    then Z.max 0 (pw - Z.quot (cols (widget w)) 3)
    else term_first_shown w in
  let w' := input_update w clear_first in
  term_first_shown w' = shown
  /\ buffer w' = buffer w /\ point w' = point w /\ widget w' = widget w
  /\ history w' = history w
  /\ mark w' = Z.min (mark w) (str_length (text_of w)).
Proof.
  intros Hdis Hown Hact pw shown w'.
  unfold w', shown, input_update, visible_width. rewrite Hdis, Hown, Hact.
  cbn [Z.eqb negb]. rewrite bool_decide_eq_true_2 by reflexivity.
  cbn [negb]. fields. fold pw.
  replace (term_first_shown w + cols (widget w)
           - (if should_show_history_button w then HISTORY_BUTTON_WIDTH else 0))
    with (term_first_shown w
          + (cols (widget w)
             - (if should_show_history_button w then HISTORY_BUTTON_WIDTH else 0)))
    by lia.
  destruct ((pw <? term_first_shown w) || _); fields.
  - destruct (Z.ltb_spec (pw - Z.quot (cols (widget w)) 3) 0);
      destruct clear_first; fields; repeat split; lia.
  - destruct clear_first; fields; repeat split.
Qed.

End Viewport.

(** *** The loop of [move_buffer_backward] comes to its end *)

Section MoveBackward.

Implicit Types a : list byte.

Lemma rd_not_nul a (i : Z) :
  rd a i <> x00 -> 0 <= i < Z.of_nat (length a).
Proof.
  unfold rd. destruct (Z.ltb_spec i 0); [congruence|].
  destruct (a !! Z.to_nat i) eqn:E; [|simpl; congruence].
  intros _. apply lookup_lt_Some in E. lia.
Qed.

(** One more round changes nothing once the rounds outnumber the bytes
    that are left to look at. *)
Lemma move_buffer_backward_loop_stable (rounds : nat) a (i len : Z) :
  (0 < rounds)%nat ->
  (0 <= i + len - 1 -> Z.of_nat (length a) - (i + len - 1) < Z.of_nat rounds) ->
  move_buffer_backward_loop (S rounds) a i len
  = move_buffer_backward_loop rounds a i len.
Proof.
  revert a i. induction rounds as [|r IH]; intros a i Hpos Hleft; [lia|].
  cbn [move_buffer_backward_loop].
  destruct (decide (rd a (i + len - 1) = x00)) as [|Hrd]; [reflexivity|].
  apply rd_not_nul in Hrd.
  destruct r as [|r].
  - specialize (Hleft ltac:(lia)). lia.
  - apply IH; [lia|]. rewrite length_wr. intros _.
    specialize (Hleft ltac:(lia)). lia.
Qed.

(** The rounds [move_buffer_backward] allows are enough: more of them give
    the same buffer. *)
Lemma move_buffer_backward_loop_enough (more : nat) a (i len : Z) :
  move_buffer_backward_loop (more + S (length a)) a i len
  = move_buffer_backward_loop (S (length a)) a i len.
Proof.
  induction more as [|more IH]; [reflexivity|].
  rewrite <- IH. cbn [Nat.add].
  apply move_buffer_backward_loop_stable; lia.
Qed.

End MoveBackward.

(** *** The origin of the viewport stays non-negative *)

Section ViewportInvariant.

Context {used_class : str_class}.

Lemma input_update_term_first_shown (w : WInput) (clear_first : bool) :
  0 <= term_first_shown w ->
  0 <= term_first_shown (input_update w clear_first).
Proof.
  intros H. unfold input_update.
  destruct (negb _); [exact H|].
  destruct (owner (widget w)) as [d|]; [|exact H].
  destruct (negb _); [exact H|]. fields.
  destruct (_ || _); fields.
  - destruct (Z.ltb_spec
      (str_term_width2 (c_str (buffer w)) (point w)
       - Z.quot (cols (widget w)) 3) 0);
      destruct clear_first; fields; lia.
  - destruct clear_first; exact H.
Qed.

Lemma input_new_term_first_shown (width : Z) def_text histname :
  term_first_shown (input_new width def_text histname) = 0.
Proof.
  unfold input_new, input_assign_text. fields.
  destruct (_ <? _); reflexivity.
Qed.

End ViewportInvariant.

(** *** The clipboard *)

Section Clipboard.

Context {used_class : str_class}.

(** Mark and point apart: the text between them goes to the kill ring and
    to the clipboard file, whatever the highlight flag says. *)
Lemma clipboard_copy_region (w : WInput) (g : process) :
  mark w <> point w ->
  let first := str_offset_to_pos (text_of w) (Z.min (mark w) (point w)) in
  let last := str_offset_to_pos (text_of w) (Z.max (mark w) (point w)) in
  kill_buffer (mc_winput_cmd_clipboard_copy w g)
  = Some (g_strndup (buffer w) first (last - first)).
Proof.
  intros Hne first last. unfold mc_winput_cmd_clipboard_copy.
  destruct (Z.eqb_spec (Z.max (mark w) (point w)) (Z.min (mark w) (point w)));
    [lia|reflexivity].
Qed.

End Clipboard.

(** *** The scenarios of the specification *)

(** Scenario D. *)
Example scenario_D :
  input_eval_marks Scenario.marked = (true, 2, 5)
  /\ text_of (@delete_region str_8bit Scenario.marked 2 5) = bytes "abf"
  /\ point (@delete_region str_8bit Scenario.marked 2 5) = 2.
Proof. run. Qed.

(** Scenario E: "xyz" yanked into "ab" at 1 gives "axyzb" with point at 4,
    when the buffer can grow. *)
Example scenario_E :
  let w := @mc_winput_cmd_yank str_8bit Scenario.ab Scenario.killed_xyz
             (fun _ => Some []) in
  text_of w = bytes "axyzb" /\ point w = 4.
Proof. run. Qed.

(** A two-byte character typed byte by byte in a UTF-8 locale: the first
    byte waits in the assembler, the second puts the character in. *)
Example two_byte_character :
  let w1 := snd (@insert_char str_utf8 Scenario.utf8_created 195 None) in
  let w2 := snd (@insert_char str_utf8 w1 169 None) in
  (text_of w1 = bytes "hllo" /\ point w1 = 1 /\ charpoint w1 = 1)
  /\ (text_of w2 = [x68; xc3; xa9; x6c; x6c; x6f] /\ point w2 = 2
      /\ charpoint w2 = 0).
Proof. run. Qed.

(** The buffer is asked to grow one byte before it must: when the
    allocator fails and the character still fits, it is put in. *)
Example insert_char_last_byte :
  let w := snd (@insert_char str_8bit Scenario.nearly_full 120 None) in
  current_max_size Scenario.nearly_full = 4
  /\ text_of w = bytes "abx" /\ point w = 3 /\ current_max_size w = 4.
Proof. run. Qed.

(** A blank text is offered to the history as the empty text: pushed onto
    a clean history whose newest entry is the same two blanks, it is
    appended as "". *)
Example push_history_blank :
  let w := push_history list_append_unique_distinct Scenario.blank_history
             (Some (bytes "  ")) in
  push_history_text Scenario.blank_history (bytes "  ") = []
  /\ h_list (history w) = [[]; bytes "  "]
  /\ h_changed (history w) = true.
Proof. run. Qed.

(** [delete_char] in the middle of a text. *)
Example delete_char_middle :
  text_of (@delete_char str_8bit Scenario.moved) = bytes "abcef"
  /\ point (@delete_char str_8bit Scenario.moved) = 3.
Proof. run. Qed.

(** ** The claims of the specification *)

Section Claims.

Context {used_class : str_class}.

(** C1, as amended: when the strip-password policy is enabled and a history
    name is set, [push_history] leaves as the newest entry the pushed text,
    if it is not blank, with the password removed.  The text is split on
    the last at-sign; the first colon of the text, or the first colon
    behind the delimiter of a VFS prefix when the text has one, is the
    password separator if it lies before that at-sign, and what lies from
    that colon up to the at-sign is dropped.  A text with no at-sign, or
    whose colons all lie after the last at-sign, is stored unchanged. *)
Theorem push_history_strips_password
    (list_append_unique : list (list byte) -> list byte -> list (list byte))
    (w : WInput) (text : list byte) :
  (forall l t, head (list_append_unique l t) = Some t) ->
  strip_password w = true -> h_name (history w) <> None ->
  g_strstrip text <> [] ->
  head (h_list (history (push_history list_append_unique w (Some text))))
  = Some (input_history_strip_password text)
  /\ input_history_strip_password text
     = match strrchr text "@"%byte,
             strchr_from text ":"%byte (colon_search_start text) with
       | Some at_, Some c =>
           if bool_decide (at_ < c)%nat then text
           else take c text ++ drop at_ text
       | _, _ => text
       end
  /\ ("@"%byte ∉ text -> input_history_strip_password text = text)
  /\ (forall u h,
        text = u ++ "@"%byte :: h -> ":"%byte ∉ u -> "@"%byte ∉ h ->
        input_history_strip_password text = text)
  /\ (forall pre u p h,
        text = pre ++ u ++ ":"%byte :: p ++ "@"%byte :: h ->
        length pre = colon_search_start text ->
        ":"%byte ∉ u -> "@"%byte ∉ h ->
        input_history_strip_password text = pre ++ u ++ "@"%byte :: h).
Proof.
  intros Hlau Hstrip Hname Hblank. repeat split.
  - rewrite push_history_newest by exact Hlau.
    rewrite push_history_text_not_blank by exact Hblank.
    rewrite Hstrip, (bool_decide_eq_true_2 _ Hname). reflexivity.
  - apply input_history_strip_password_eq.
  - apply strip_password_no_at.
  - intros u h -> Hu Hh. now apply strip_password_colon_after_at.
  - intros pre u p h -> Hpre Hu Hh. now apply strip_password_strips.
Qed.

(** C2, as amended: when mark and point coincide, whatever the highlight
    flag says, the copy command, and with it the copy phase of cut, puts
    nothing into the kill ring; it raises the two events of the file-level
    clipboard action instead. *)
Theorem clipboard_copy_empty_region (w : WInput) (g : process) :
  mark w = point w ->
  kill_buffer (mc_winput_cmd_clipboard_copy w g) = kill_buffer g
  /\ raised (mc_winput_cmd_clipboard_copy w g)
     = raised g
       ++ [ {| ev_group := MCEVENT_GROUP_FILEMANAGER;
               ev_name := "panel_save_current_file_to_clip_file";
               ev_data := None |};
            {| ev_group := MCEVENT_GROUP_CORE;
               ev_name := "clipboard_file_to_ext_clip";
               ev_data := None |} ]
  /\ snd (mc_winput_cmd_clipboard_cut w g) = mc_winput_cmd_clipboard_copy w g.
Proof.
  intros Hmp. unfold mc_winput_cmd_clipboard_cut, mc_winput_cmd_clipboard_copy.
  rewrite Hmp, Z.min_id, Z.max_id, Z.eqb_refl. simpl.
  rewrite <- app_assoc. repeat split.
Qed.

(** C3, as amended: destroying a widget frees the kill ring of the process
    and leaves it empty, so a yank in any other widget then inserts
    nothing. *)
Theorem input_destroy_frees_kill_ring (w : WInput) (g : process) :
  exists g',
    input_destroy (Some w) g = Some g'
    /\ kill_buffer g' = None /\ raised g' = raised g
    /\ forall (other : WInput) heap, mc_winput_cmd_yank other g' heap = other.
Proof.
  exists (set_kill_buffer None g). repeat split.
Qed.


(** C4: for all character offsets [a] and [b] that are valid positions in
    the buffer, [delete_region] removes exactly the characters of the
    half-open range from [min a b] to [max a b], that is the bytes from the
    position of the first offset up to the position of the second, clears
    the selection and moves point to [min a b]. *)
Theorem delete_region_removes_range (w : WInput) (a b : Z) :
  buffer_ok w -> text_ok (text_of w) ->
  valid_offset w a -> valid_offset w b ->
  let lo := str_offset_to_pos (text_of w) (Z.min a b) in
  let hi := str_offset_to_pos (text_of w) (Z.max a b) in
  let w' := delete_region w a b in
  text_of w' = take (Z.to_nat lo) (text_of w) ++ drop (Z.to_nat hi) (text_of w)
  /\ highlight w' = false
  /\ point w' = Z.min a b.
Proof.
  intros Hok Htxt Ha Hb lo hi w'.
  destruct (delete_region_text w a b Hok Htxt Ha Hb) as (Ht & Hh & Hp & _).
  repeat split; assumption.
Qed.

(** C6: when a completed character does not fit into the buffer, so that
    the buffer has to grow, and the allocation fails, the buffer is left as
    it was, the insert is dropped, and the function returns as usual; the
    one byte it writes, into the assembler, lies inside the array of the
    assembler. *)
Theorem insert_char_allocation_failure (w : WInput) (c : Z) :
  buffer_ok w -> assembler_ok w -> c <> -1 ->
  (highlight w = true ->
   text_ok (text_of w)
   /\ valid_offset w (mark w) /\ valid_offset w (point w)) ->
  let w1 := input_delete_selection w in
  charpoint w1 < MB_LEN_MAX ->
  0 <= str_is_valid_char (wr (charbuf w1) (charpoint w1) (char_of_int c))
         (charpoint w1 + 1) ->
  current_max_size w1 <= strlen (buffer w1) + (charpoint w1 + 1) ->
  (exists w',
     insert_char w c None = (MSG_HANDLED, w')
     /\ buffer w' = buffer w /\ current_max_size w' = current_max_size w
     /\ point w' = point w /\ charpoint w' = 0 /\ buffer_ok w')
  /\ 0 <= charpoint w1 < Z.of_nat (length (charbuf w1)).
Proof.
  intros Hok Hasm Hc Hsel w1 Hcp Hres Hfull. split.
  - now apply insert_char_no_memory.
  - destruct Hasm as (Hlen & Hcp0 & _).
    assert (Hcb : charbuf w1 = charbuf w /\ 0 <= charpoint w1).
    { unfold w1, input_delete_selection, input_eval_marks.
      destruct (highlight w); split; try reflexivity; try assumption. }
    destruct Hcb as [-> Hcp1]. lia.
Qed.

(** C7, as amended: the backward-character command at point 0 and
    [delete_char] at the end of the text leave the buffer, point, mark and
    selection as they are; the first resets the assembler, the second
    resets the assembler and marks the text as to be pushed to the
    history. *)
Theorem boundary_commands_keep_text (w : WInput) :
  (point w = 0 -> mc_winput_cmd_backward_char w = set_charpoint 0 w)
  /\ (point w = str_length (text_of w) ->
      delete_char w = set_need_push true (set_charpoint 0 w)).
Proof.
  split; intros Hp.
  - unfold mc_winput_cmd_backward_char. rewrite Hp. reflexivity.
  - unfold delete_char, move_buffer_backward.
    rewrite <- Hp, Z.leb_refl. reflexivity.
Qed.

(** C8, as amended: [push_history] appends no entry when the text it
    offers equals the newest entry and the history is not marked dirty; in
    every other case it appends the text it offers as the new newest entry,
    moves the current position to it and marks the history dirty.  The text
    it offers is the pushed text, with its password stripped where asked
    for, and the empty text when the pushed text is blank. *)
Theorem push_history_dedup
    (list_append_unique : list (list byte) -> list byte -> list (list byte))
    (w : WInput) (text : list byte) :
  (forall l t, head (list_append_unique l t) = Some t) ->
  let t := push_history_text w text in
  let h := history w in
  let h' := history (push_history list_append_unique w (Some text)) in
  (head (h_list h) = Some t /\ h_changed h = false -> h' = h)
  /\ (~ (head (h_list h) = Some t /\ h_changed h = false) ->
      h_list h' = list_append_unique (h_list h) t
      /\ head (h_list h') = Some t
      /\ h_current h' = Some 0%nat
      /\ h_changed h' = true)
  /\ (g_strstrip text <> [] ->
      t = if bool_decide (h_name h <> None) && strip_password w
          then input_history_strip_password text else text)
  /\ (g_strstrip text = [] -> t = []).
Proof.
  intros Hlau t h h'. repeat split.
  - intros [Hhd Hch]. unfold h'. now rewrite push_history_skip.
  - unfold h'. now rewrite push_history_append.
  - unfold h'. rewrite push_history_append by assumption. apply Hlau.
  - unfold h'. rewrite push_history_append by assumption. fields.
    cbn [h_current]. specialize (Hlau (h_list h) t). fold h t.
    destruct (list_append_unique (h_list h) t); [discriminate|reflexivity].
  - unfold h'. now rewrite push_history_append.
  - apply push_history_text_not_blank.
  - intros Hblank. unfold t, push_history_text. rewrite Hblank.
    reflexivity.
Qed.

(** C9: after every redraw of a widget that is at least one column wide the
    viewport origin [term_first_shown] is non-negative and the column of
    the cursor lies in the visible window; when the column was outside the
    window, the origin is a third of the width before the column, but not
    less than 0. *)
Theorem input_update_cursor_visible (w : WInput) (clear_first : bool)
    (d : WDialog) :
  disable_update w = 0 -> owner (widget w) = Some d -> state d = DLG_ACTIVE ->
  0 < cols (widget w) -> 0 <= term_first_shown w ->
  let pw := str_term_width2 (text_of w) (point w) in
  0 <= pw ->
  let w' := input_update w clear_first in
  str_term_width2 (text_of w') (point w') = pw
  /\ visible_width w' = visible_width w
  /\ 0 <= term_first_shown w'
  /\ term_first_shown w' <= pw < term_first_shown w' + visible_width w'
  /\ (~ term_first_shown w <= pw < term_first_shown w + visible_width w ->
      term_first_shown w' = Z.max 0 (pw - Z.quot (cols (widget w)) 3)).
Proof.
  intros Hdis Hown Hact Hcols Htfs pw Hpw w'.
  destruct (input_update_redraw w clear_first d Hdis Hown Hact)
    as (Hshown & Hb & Hp & Hw & Hh & _).
  fold pw w' in Hshown, Hb, Hp, Hw, Hh.
  assert (Hvw : visible_width w' = visible_width w).
  { unfold visible_width, should_show_history_button. now rewrite Hw, Hh. }
  assert (Hthird : Z.quot (cols (widget w)) 3 < visible_width w).
  { unfold visible_width, should_show_history_button, HISTORY_BUTTON_WIDTH.
    destruct (bool_decide _); destruct (Z.ltb_spec (3 * 2 + 1) (cols (widget w)));
      destruct (bool_decide _); cbn [andb]; Z.quot_rem_to_equations; lia. }
  assert (Hq : 0 <= Z.quot (cols (widget w)) 3)
    by (Z.quot_rem_to_equations; lia).
  unfold text_of. rewrite Hb, Hp, Hvw, Hshown. fold (text_of w). fold pw.
  destruct (Z.ltb_spec pw (term_first_shown w));
    destruct (Z.leb_spec (term_first_shown w + visible_width w) pw);
    cbn [orb]; repeat split; try lia.
Qed.

(** C10: while the widget is untouched, its [first] flag still set, the
    delete-forward command clears the whole buffer and sets point to 0,
    whatever the buffer holds and wherever the cursor is. *)
Theorem delete_clears_untouched_widget (w : WInput) :
  first w = true ->
  let w' := mc_winput_cmd_delete w in
  text_of w' = [] /\ point w' = 0 /\ first w' = false /\ charpoint w' = 0.
Proof.
  intros Hf w'. unfold w', mc_winput_cmd_delete. rewrite Hf.
  unfold port_region_marked_for_delete. fields. repeat split.
  destruct (buffer w); reflexivity.
Qed.

End Claims.

(** ** The claims on the scenarios *)

(** The model of [list_append_unique] puts the text first. *)
Lemma list_append_unique_distinct_newest (l : list (list byte)) (t : list byte) :
  head (list_append_unique_distinct l t) = Some t.
Proof. reflexivity. Qed.

(** C1, scenario C: "admin:secret@host/path" is stored as
    "admin@host/path". *)
Lemma push_history_strips_password_witness :
  head (h_list (history
    (push_history list_append_unique_distinct Scenario.with_history
       (Some (bytes "admin:secret@host/path")))))
  = Some (bytes "admin@host/path").
Proof.
  destruct (push_history_strips_password list_append_unique_distinct
              Scenario.with_history (bytes "admin:secret@host/path"))
    as (Hnewest & _ & _ & _ & Hstrip).
  - exact list_append_unique_distinct_newest.
  - reflexivity.
  - discriminate.
  - vm_compute. discriminate.
  - rewrite Hnewest. apply (f_equal Some).
    apply (Hstrip [] (bytes "admin") (bytes "secret") (bytes "host/path")).
    + reflexivity.
    + reflexivity.
    + absent.
    + absent.
Defined.

(** C1, as the specification words it, fails on "user:pa:ss@host": the
    colon nearest before the at-sign would leave "user:pa@host", the widget
    stores "user@host". *)
Lemma push_history_nearest_colon_counterexample :
  strip_password Scenario.with_history = true
  /\ h_name (history Scenario.with_history) <> None
  /\ head (h_list (history
       (push_history list_append_unique_distinct Scenario.with_history
          (Some (bytes "user:pa:ss@host")))))
     = Some (bytes "user@host")
  /\ strip_password_nearest_colon (bytes "user:pa:ss@host")
     = bytes "user:pa@host"
  /\ bytes "user@host" <> bytes "user:pa@host".
Proof. run. Qed.

(** C2 on an empty widget, where mark and point are both 0. *)
Lemma clipboard_copy_empty_region_witness :
  kill_buffer
    (@mc_winput_cmd_clipboard_copy str_8bit (Scenario.created "")
       Scenario.killed_xyz)
  = Some (bytes "xyz").
Proof.
  destruct (@clipboard_copy_empty_region str_8bit (Scenario.created "")
              Scenario.killed_xyz) as (Hkill & _).
  - reflexivity.
  - rewrite Hkill. reflexivity.
Defined.

(** C2, as the specification words it, fails on "abcdef" with the cursor
    at 3 and nothing selected: the copy command puts "abc", the text
    between the mark at 0 and point, into the kill ring. *)
Lemma clipboard_copy_without_selection_counterexample :
  highlight Scenario.moved = false
  /\ kill_buffer Scenario.fresh_process = None
  /\ kill_buffer
       (@mc_winput_cmd_clipboard_copy str_8bit Scenario.moved
          Scenario.fresh_process)
     = Some (bytes "abc")
  /\ kill_buffer
       (snd (@mc_winput_cmd_clipboard_cut str_8bit Scenario.moved
               Scenario.fresh_process))
     = Some (bytes "abc").
Proof. run. Qed.

(** C3, as the specification words it, fails with "xyz" in the kill ring:
    before another widget is destroyed a yank into "ab" at 1 gives "axyzb";
    after it the kill ring is empty and the yank leaves "ab". *)
Lemma input_destroy_kill_ring_counterexample :
  text_of (@mc_winput_cmd_yank str_8bit Scenario.ab Scenario.killed_xyz
             (fun _ => Some []))
  = bytes "axyzb"
  /\ exists g',
       input_destroy (Some (Scenario.created "")) Scenario.killed_xyz = Some g'
       /\ kill_buffer g' = None
       /\ kill_buffer g' <> kill_buffer Scenario.killed_xyz
       /\ text_of (@mc_winput_cmd_yank str_8bit Scenario.ab g'
                     (fun _ => Some []))
          = bytes "ab".
Proof.
  split; [reflexivity|].
  exists Scenario.fresh_process. run.
Qed.

(** C4, scenario D: the active range of "abcdef" with the mark at 2 and
    point at 5 is (2, 5), and deleting it leaves "abf" with point at 2. *)
Lemma delete_region_removes_range_witness :
  input_eval_marks Scenario.marked = (true, 2, 5)
  /\ text_of (@delete_region str_8bit Scenario.marked 2 5) = bytes "abf"
  /\ highlight (@delete_region str_8bit Scenario.marked 2 5) = false
  /\ point (@delete_region str_8bit Scenario.marked 2 5) = 2.
Proof.
  split; [reflexivity|].
  destruct (@delete_region_removes_range str_8bit Scenario.marked 2 5)
    as (Htext & Hhl & Hpoint).
  - split; vm_compute; reflexivity.
  - apply str_8bit_text_ok.
  - run.
  - run.
  - rewrite Htext, Hhl, Hpoint. repeat split.
Defined.




(** C6 on "abc" in a buffer of four bytes. *)
Lemma insert_char_allocation_failure_witness :
  exists w',
    @insert_char str_8bit Scenario.full 120 None = (MSG_HANDLED, w')
    /\ text_of w' = bytes "abc" /\ point w' = 3.
Proof.
  destruct (@insert_char_allocation_failure str_8bit Scenario.full 120)
    as [(w' & Hrun & Hbuf & _ & Hpoint & _) _].
  - split; vm_compute; reflexivity.
  - run.
  - discriminate.
  - discriminate.
  - reflexivity.
  - run.
  - run.
  - exists w'. unfold text_of. rewrite Hbuf, Hpoint. repeat split.
    exact Hrun.
Defined.

(** C7 on an empty widget and on "abc" with the cursor at its end. *)
Lemma boundary_commands_keep_text_witness :
  text_of (@mc_winput_cmd_backward_char str_8bit (Scenario.created "")) = []
  /\ point (@mc_winput_cmd_backward_char str_8bit (Scenario.created "")) = 0
  /\ text_of (@delete_char str_8bit (Scenario.created "abc")) = bytes "abc"
  /\ point (@delete_char str_8bit (Scenario.created "abc")) = 3.
Proof.
  destruct (@boundary_commands_keep_text str_8bit (Scenario.created ""))
    as [Hback _].
  destruct (@boundary_commands_keep_text str_8bit (Scenario.created "abc"))
    as [_ Hdel].
  rewrite Hback by reflexivity. rewrite Hdel by reflexivity.
  repeat split.
Defined.

(** C7, as the specification words it, fails on a widget whose assembler
    holds the first byte of a character, which the backward-character
    command at point 0 throws away, and on a text that was pushed to the
    history, which [delete_char] at its end marks as to be pushed again. *)
Lemma boundary_commands_change_state_counterexample :
  point Scenario.utf8_pending = 0
  /\ @mc_winput_cmd_backward_char str_utf8 Scenario.utf8_pending
     <> Scenario.utf8_pending
  /\ point Scenario.pushed = @str_length str_8bit (text_of Scenario.pushed)
  /\ @delete_char str_8bit Scenario.pushed <> Scenario.pushed.
Proof.
  split; [vm_compute; reflexivity|]. split.
  { intros E. apply (f_equal charpoint) in E. vm_compute in E. discriminate. }
  split; [vm_compute; reflexivity|].
  intros E. apply (f_equal need_push) in E. vm_compute in E. discriminate.
Qed.

(** C8 on a first push, which appends, and on a push of the newest entry
    of a clean history, which does not. *)
Lemma push_history_dedup_witness :
  h_list (history
    (push_history list_append_unique_distinct (Scenario.created "abc")
       (Some (bytes "abc"))))
  = [bytes "abc"]
  /\ history
       (push_history list_append_unique_distinct Scenario.saved
          (Some (bytes "abc")))
     = history Scenario.saved.
Proof.
  destruct (push_history_dedup list_append_unique_distinct
              (Scenario.created "abc") (bytes "abc")
              list_append_unique_distinct_newest) as (_ & Happend & _).
  destruct (push_history_dedup list_append_unique_distinct
              Scenario.saved (bytes "abc")
              list_append_unique_distinct_newest) as (Hskip & _).
  split.
  - destruct Happend as (Hlist & _).
    + intros [Hhd _]. vm_compute in Hhd. discriminate.
    + rewrite Hlist. reflexivity.
  - apply Hskip. split; reflexivity.
Defined.

(** C8, as the specification words it, fails on two blanks pushed onto a
    clean history whose newest entry is the empty text: the text pushed is
    not the newest entry, yet nothing is appended and the history stays
    clean. *)
Lemma push_history_blank_counterexample :
  let w := Scenario.empty_entry in
  let w' := push_history list_append_unique_distinct w (Some (bytes "  ")) in
  strip_password w = false
  /\ h_changed (history w) = false
  /\ head (h_list (history w)) <> Some (bytes "  ")
  /\ history w' = history w.
Proof. run. Qed.

(** C9 on twenty characters in ten columns with the cursor at the end. *)
Lemma input_update_cursor_visible_witness :
  term_first_shown (@input_update str_8bit Scenario.wide true) = 17
  /\ 17 <= @str_term_width2 str_8bit (text_of Scenario.wide)
             (point Scenario.wide) < 17 + 10.
Proof.
  destruct (@input_update_cursor_visible str_8bit Scenario.wide true
              {| state := DLG_ACTIVE; ret_value := 0 |})
    as (_ & _ & _ & _ & Hshown).
  - reflexivity.
  - reflexivity.
  - reflexivity.
  - reflexivity.
  - discriminate.
  - discriminate.
  - rewrite Hshown.
    + run.
    + vm_compute. intros [_ H]. discriminate.
Defined.

(** C10 on "abc", just created. *)
Lemma delete_clears_untouched_widget_witness :
  text_of (@mc_winput_cmd_delete str_8bit (Scenario.created "abc")) = []
  /\ point (@mc_winput_cmd_delete str_8bit (Scenario.created "abc")) = 0.
Proof.
  destruct (@delete_clears_untouched_widget str_8bit (Scenario.created "abc"))
    as (Htext & Hpoint & _).
  - reflexivity.
  - split; assumption.
Defined.

(** ** More properties of input.c *)

(** *** What a redraw leaves alone *)

Section UpdateFrame.

Context {used_class : str_class}.

(** [input_update] writes [mark], [term_first_shown] and [first] only. *)
Lemma input_update_fields (w : WInput) (clear_first : bool) :
  let w' := input_update w clear_first in
  buffer w' = buffer w /\ point w' = point w /\ highlight w' = highlight w
  /\ current_max_size w' = current_max_size w
  /\ charbuf w' = charbuf w /\ charpoint w' = charpoint w
  /\ history w' = history w /\ need_push w' = need_push w
  /\ widget w' = widget w /\ disable_update w' = disable_update w
  /\ is_highlight_cmd w' = is_highlight_cmd w
  /\ strip_password w' = strip_password w
  /\ completions w' = completions w.
Proof.
  unfold input_update.
  destruct (negb _); [repeat split|].
  destruct (owner (widget w)) as [d|]; [|repeat split].
  destruct (negb _); [repeat split|].
  fields.
  destruct (_ || _); fields;
    [destruct (_ <? _)|]; destruct clear_first; repeat split.
Qed.

Lemma text_of_input_update (w : WInput) (clear_first : bool) :
  text_of (input_update w clear_first) = text_of w.
Proof.
  unfold text_of.
  now destruct (input_update_fields w clear_first) as (-> & _).
Qed.

Lemma buffer_ok_input_update (w : WInput) (clear_first : bool) :
  buffer_ok w -> buffer_ok (input_update w clear_first).
Proof.
  unfold buffer_ok.
  destruct (input_update_fields w clear_first) as (-> & _ & _ & -> & _).
  trivial.
Qed.

(** A redraw that takes place clears [first] when asked to and keeps the
    mark within the text. *)
Lemma input_update_mark_first (w : WInput) (clear_first : bool) (d : WDialog) :
  disable_update w = 0 -> owner (widget w) = Some d -> state d = DLG_ACTIVE ->
  let w' := input_update w clear_first in
  mark w' = Z.min (mark w) (str_length (text_of w))
  /\ first w' = (if clear_first then false else first w).
Proof.
  intros Hdis Hown Hact. unfold input_update. rewrite Hdis, Hown, Hact.
  cbn [Z.eqb negb]. rewrite bool_decide_eq_true_2 by reflexivity.
  cbn [negb]. fields.
  destruct (_ || _); fields;
    [destruct (_ <? _)|]; destruct clear_first; repeat split.
Qed.

(** Without a redraw nothing changes. *)
Lemma input_update_disabled (w : WInput) (clear_first : bool) :
  disable_update w <> 0 \/ owner (widget w) = None ->
  input_update w clear_first = w.
Proof.
  intros [Hdis|Hown]; unfold input_update.
  - destruct (Z.eqb_spec (disable_update w) 0); [contradiction|reflexivity].
  - rewrite Hown. now destruct (negb _).
Qed.

End UpdateFrame.

(** *** Assigning a text *)

Section AssignText.

Context {used_class : str_class}.

Lemma c_str_id (text : list byte) : x00 ∉ text -> c_str text = text.
Proof.
  intros H. rewrite <- (app_nil_r text) at 1.
  rewrite c_str_app by assumption. simpl. apply app_nil_r.
Qed.

(** What [input_assign_text] leaves in the widget. *)
Lemma input_assign_text_fields (w : WInput) (text : list byte) :
  0 <= cols (widget w) -> x00 ∉ text ->
  let w' := input_assign_text w (Some text) in
  text_of w' = text
  /\ point w' = str_length text
  /\ current_max_size w'
     = 1 + Z.max (cols (widget w)) (Z.of_nat (length text))
  /\ buffer_ok w'
  /\ charpoint w' = 0 /\ need_push w' = true
  /\ highlight w' = highlight w /\ history w' = history w
  /\ widget w' = widget w /\ charbuf w' = charbuf w
  /\ strip_password w' = strip_password w
  /\ disable_update w' = disable_update w.
Proof.
  intros Hcols Htext w'.
  set (n := 1 + Z.max (cols (widget w)) (Z.of_nat (length text))).
  set (a := memcpy (resize (Z.to_nat n) x00 (buffer w)) 0 (text ++ [x00])
              (Z.of_nat (length text) + 1)).
  assert (Ha : exists r, a = text ++ x00 :: r
                         /\ Z.of_nat (length a) = n).
  { exists (drop (length text + 1) (resize (Z.to_nat n) x00 (buffer w))).
    unfold a, memcpy. change (Z.to_nat 0) with 0%nat.
    rewrite take_0. cbn [app].
    rewrite (take_ge (text ++ [x00])) by (rewrite length_app; simpl; lia).
    replace (Z.to_nat (0 + (Z.of_nat (length text) + 1)))
      with (length text + 1)%nat by lia.
    rewrite <- app_assoc. split; [reflexivity|].
    rewrite !length_app, length_drop, length_resize. simpl. lia. }
  destruct Ha as (r & Ha & Hla).
  assert (Hw : exists v,
    w' = input_update v true
    /\ buffer v = a /\ point v = str_length (c_str a)
    /\ current_max_size v = n /\ charpoint v = 0 /\ need_push v = true
    /\ highlight v = highlight w /\ history v = history w
    /\ widget v = widget w /\ charbuf v = charbuf w
    /\ strip_password v = strip_password w
    /\ disable_update v = disable_update w).
  { unfold w', input_assign_text, input_free_completions.
    change (default [] (Some text)) with text.
    fields. fold n.
    destruct (Z.ltb_spec (cols (widget w)) n) as [_|Hge]; [|unfold n in Hge; lia].
    fields. fold a. eexists. split; [reflexivity|]. fields. repeat split. }
  destruct Hw as (v & -> & Hb & Hp & Hm & Hcp & Hnp & Hh & Hhist & Hwid & Hcb
                  & Hsp & Hdu).
  assert (Hc : c_str a = text) by (rewrite Ha; now apply c_str_split).
  destruct (input_update_fields v true)
    as (Eb & Ep & Eh & Em & Ecb & Ecp & Ehist & Enp & Ewid & Edu & _ & Esp & _).
  unfold text_of, buffer_ok, terminated, strlen.
  rewrite Eb, Ep, Eh, Em, Ecb, Ecp, Ehist, Enp, Ewid, Edu, Esp.
  rewrite Hb, Hp, Hm, Hcp, Hnp, Hh, Hhist, Hwid, Hcb, Hsp, Hdu, Hc.
  repeat split; try reflexivity; try lia.
Qed.

End AssignText.

(** *** Closing the gap of deleted characters *)

Section MoveBackwardText.

Implicit Types s p x r : list byte.

Lemma insert_head_app p (v y : byte) (l : list byte) :
  <[length p := v]> (p ++ y :: l) = p ++ v :: l.
Proof.
  replace (length p) with (length p + 0)%nat by lia.
  now rewrite insert_app_r.
Qed.

(** The loop on a buffer that holds [p], then the bytes [x] to delete,
    then the rest [s] of the text: it ends with [p ++ s] in the buffer. *)
Lemma move_buffer_backward_loop_text s :
  forall p x r (rounds : nat),
    x <> [] -> x00 ∉ x -> x00 ∉ s -> (length s + 2 <= rounds)%nat ->
    exists r',
      move_buffer_backward_loop rounds (p ++ x ++ s ++ x00 :: r)
        (Z.of_nat (length p)) (Z.of_nat (length x))
      = p ++ s ++ x00 :: r'
      /\ length r' = (length x + length r)%nat.
Proof.
  induction s as [|b s IH]; intros p x r rounds Hx Hnx Hns Hrounds;
    (destruct x as [|b0 xt]; [congruence|]);
    (destruct rounds as [|rounds]; [lia|]);
    cbn [move_buffer_backward_loop].
  - (* the last round copies the NUL *)
    assert (Hlast : rd (p ++ (b0 :: xt) ++ [] ++ x00 :: r)
                      (Z.of_nat (length p) + Z.of_nat (length (b0 :: xt)) - 1)
                    <> x00).
    { replace (Z.of_nat (length p) + Z.of_nat (length (b0 :: xt)) - 1)
        with (Z.of_nat (length p + length xt)) by (simpl; lia).
      rewrite rd_nat, lookup_app_r by lia.
      replace (length p + length xt - length p)%nat with (length xt) by lia.
      rewrite lookup_app_l by (simpl; lia).
      destruct (lookup_lt_is_Some_2 (b0 :: xt) (length xt)) as [y Hy];
        [simpl; lia|].
      rewrite Hy. simpl. intros ->.
      apply Hnx. eapply list_elem_of_lookup_2, Hy. }
    destruct (decide _) as [E|_]; [contradiction|].
    assert (Hval : rd (p ++ (b0 :: xt) ++ [] ++ x00 :: r)
                     (Z.of_nat (length p) + Z.of_nat (length (b0 :: xt)))
                   = x00).
    { replace (Z.of_nat (length p) + Z.of_nat (length (b0 :: xt)))
        with (Z.of_nat (length p + length (b0 :: xt))) by lia.
      rewrite rd_nat, lookup_app_r by lia.
      replace (length p + length (b0 :: xt) - length p)%nat
        with (length (b0 :: xt)) by lia.
      rewrite lookup_app_r by lia.
      now rewrite Nat.sub_diag. }
    rewrite Hval, wr_nat. cbn [app]. rewrite insert_head_app.
    destruct rounds as [|rounds]; [simpl in Hrounds; lia|].
    cbn [move_buffer_backward_loop].
    assert (Hstop : rd (p ++ x00 :: xt ++ x00 :: r)
                      (Z.of_nat (length p) + 1 + Z.of_nat (length (b0 :: xt)) - 1)
                    = x00).
    { replace (Z.of_nat (length p) + 1 + Z.of_nat (length (b0 :: xt)) - 1)
        with (Z.of_nat (length p + S (length xt))) by (simpl; lia).
      rewrite rd_nat, lookup_app_r by lia.
      replace (length p + S (length xt) - length p)%nat
        with (S (length xt)) by lia.
      rewrite lookup_cons, lookup_app_r by lia.
      now rewrite Nat.sub_diag. }
    destruct (decide _) as [_|E]; [|contradiction].
    exists (xt ++ x00 :: r). split; [reflexivity|].
    rewrite length_app. simpl. lia.
  - apply not_elem_of_cons in Hns as [Hb Hns].
    assert (Hlast : rd (p ++ (b0 :: xt) ++ (b :: s) ++ x00 :: r)
                      (Z.of_nat (length p) + Z.of_nat (length (b0 :: xt)) - 1)
                    <> x00).
    { replace (Z.of_nat (length p) + Z.of_nat (length (b0 :: xt)) - 1)
        with (Z.of_nat (length p + length xt)) by (simpl; lia).
      rewrite rd_nat, lookup_app_r by lia.
      replace (length p + length xt - length p)%nat with (length xt) by lia.
      rewrite lookup_app_l by (simpl; lia).
      destruct (lookup_lt_is_Some_2 (b0 :: xt) (length xt)) as [y Hy];
        [simpl; lia|].
      rewrite Hy. simpl. intros ->.
      apply Hnx. eapply list_elem_of_lookup_2, Hy. }
    destruct (decide _) as [E|_]; [contradiction|].
    assert (Hval : rd (p ++ (b0 :: xt) ++ (b :: s) ++ x00 :: r)
                     (Z.of_nat (length p) + Z.of_nat (length (b0 :: xt)))
                   = b).
    { replace (Z.of_nat (length p) + Z.of_nat (length (b0 :: xt)))
        with (Z.of_nat (length p + length (b0 :: xt))) by lia.
      rewrite rd_nat, lookup_app_r by lia.
      replace (length p + length (b0 :: xt) - length p)%nat
        with (length (b0 :: xt)) by lia.
      rewrite lookup_app_r by lia.
      now rewrite Nat.sub_diag. }
    rewrite Hval, wr_nat. cbn [app]. rewrite insert_head_app.
    destruct (IH (p ++ [b]) (xt ++ [b]) r rounds) as (r' & Hr' & Hlen).
    + now destruct xt.
    + rewrite not_elem_of_app. split.
      * intros H. apply Hnx. now right.
      * apply not_elem_of_cons. split; [congruence|apply not_elem_of_nil].
    + exact Hns.
    + simpl in Hrounds. lia.
    + exists r'. split.
      * transitivity ((p ++ [b]) ++ s ++ x00 :: r');
          [|rewrite <- app_assoc; reflexivity].
        rewrite <- Hr'. f_equal.
        -- rewrite <- !app_assoc. reflexivity.
        -- rewrite length_app. simpl. lia.
        -- rewrite length_app. simpl. lia.
      * rewrite Hlen, length_app. simpl. lia.
Qed.

End MoveBackwardText.

(** *** Deleting characters *)

Section DeleteChars.

Context {used_class : str_class}.

(** [move_buffer_backward] between two offsets of the text takes the
    characters between them out of the buffer. *)
Lemma move_buffer_backward_text (w : WInput) (start end_ : Z) :
  buffer_ok w -> text_ok (text_of w) ->
  0 <= start < end_ -> end_ <= str_length (text_of w) ->
  let lo := str_offset_to_pos (text_of w) start in
  let hi := str_offset_to_pos (text_of w) end_ in
  exists a,
    move_buffer_backward w start end_ = set_buffer a w
    /\ c_str a
       = take (Z.to_nat lo) (text_of w) ++ drop (Z.to_nat hi) (text_of w)
    /\ length a = length (buffer w).
Proof.
  intros [Hsz Ht] Htxt Hse Hend lo hi.
  pose proof (offset_bounds _ Htxt start ltac:(lia)) as Hlo.
  pose proof (offset_bounds _ Htxt end_ ltac:(lia)) as Hhi.
  pose proof (offset_strict _ Htxt start end_ ltac:(lia) Hend) as Hlt.
  fold lo in Hlo, Hlt. fold hi in Hhi, Hlt.
  unfold move_buffer_backward.
  destruct (Z.leb_spec (str_length (text_of w)) start); [lia|].
  destruct (Z.ltb_spec (str_length (text_of w) + 1) end_); [lia|].
  cbn [orb]. fold lo hi.
  destruct (terminated_split _ Ht) as [r Hr].
  unfold text_of in *. set (t := c_str (buffer w)) in *.
  set (p := take (Z.to_nat lo) t).
  set (x := take (Z.to_nat (hi - lo)) (drop (Z.to_nat lo) t)).
  set (s := drop (Z.to_nat hi) t).
  assert (Hp : Z.of_nat (length p) = lo)
    by (unfold p; rewrite length_take; lia).
  assert (Hx : Z.of_nat (length x) = hi - lo)
    by (unfold x; rewrite length_take, length_drop; lia).
  assert (Hsplit : t = p ++ x ++ s).
  { unfold p, x, s.
    replace (Z.to_nat hi) with (Z.to_nat lo + Z.to_nat (hi - lo))%nat by lia.
    rewrite <- drop_drop, take_drop. now rewrite take_drop. }
  assert (Hnul : x00 ∉ t) by apply c_str_no_nul.
  destruct (move_buffer_backward_loop_text s p x r (S (length (buffer w))))
    as (r' & Hloop & Hlen).
  - intros E. rewrite E in Hx. simpl in Hx. lia.
  - unfold x. now apply not_elem_of_take, not_elem_of_drop.
  - unfold s. now apply not_elem_of_drop.
  - rewrite Hr, Hsplit, !length_app. simpl.
    assert (0 < length x)%nat by lia. lia.
  - exists (p ++ s ++ x00 :: r'). repeat split.
    + f_equal. rewrite <- Hloop. f_equal; [|lia..].
      rewrite Hr at 1. rewrite Hsplit at 1. now rewrite <- !app_assoc.
    + rewrite app_assoc. apply c_str_split.
      rewrite not_elem_of_app. split.
      * unfold p. now apply not_elem_of_take.
      * unfold s. now apply not_elem_of_drop.
    + rewrite Hr, Hsplit, !length_app. simpl. lia.
Qed.

End DeleteChars.

(** *** The assembler and the buffer under [insert_char] *)

Section InsertCharInvariant.

Context {used_class : str_class}.

Lemma terminated_app_nul (u r : list byte) : terminated (u ++ x00 :: r).
Proof.
  unfold terminated, strlen. rewrite length_app. simpl.
  assert (length (c_str (u ++ x00 :: r)) <= length u)%nat; [|lia].
  induction u as [|b u IH]; simpl; [lia|].
  destruct (decide (b = x00)); simpl; lia.
Qed.

Lemma input_delete_selection_fields (w : WInput) :
  let w1 := input_delete_selection w in
  charbuf w1 = charbuf w /\ widget w1 = widget w /\ history w1 = history w
  /\ current_max_size w1 = current_max_size w /\ first w1 = first w
  /\ (charpoint w1 = charpoint w \/ charpoint w1 = 0)
  /\ term_first_shown w1 = term_first_shown w
  /\ disable_update w1 = disable_update w.
Proof.
  unfold input_delete_selection, input_eval_marks.
  destruct (highlight w); repeat split; auto.
Qed.

(** What [insert_char] does to the fields that are not the text, when
    nothing is selected. *)
Lemma insert_char_fields (w : WInput) (c : Z) heap :
  highlight w = false ->
  let w' := snd (insert_char w c heap) in
  length (charbuf w') = length (charbuf w)
  /\ widget w' = widget w /\ history w' = history w /\ first w' = first w
  /\ highlight w' = false /\ mark w' = mark w
  /\ term_first_shown w' = term_first_shown w
  /\ disable_update w' = disable_update w
  /\ (0 <= charpoint w <= MB_LEN_MAX -> 0 <= charpoint w' <= MB_LEN_MAX).
Proof.
  intros Hh. unfold insert_char. rewrite Hh.
  destruct (c =? -1); [cbn [snd]; repeat split; auto; lia|].
  destruct (Z.leb_spec MB_LEN_MAX (charpoint w));
    [cbn [snd]; repeat split; auto; lia|].
  fields.
  destruct (_ <? 0).
  - destruct (negb _); cbn [snd]; fields; rewrite ?length_wr;
      repeat split; auto; unfold MB_LEN_MAX in *; lia.
  - fields.
    destruct (_ <=? _); [destruct (g_try_renew _ _ _)|]; fields;
      destruct (_ <? _); cbn [snd]; fields; rewrite ?length_wr;
      repeat split; auto; unfold MB_LEN_MAX in *; lia.
Qed.

(** The buffer stays a terminated array of [current_max_size] bytes when
    nothing is selected and point lies in the text. *)
Lemma insert_char_buffer_ok (w : WInput) (c : Z) heap :
  highlight w = false -> buffer_ok w -> assembler_ok w ->
  0 <= str_offset_to_pos (text_of w) (point w) <= strlen (buffer w) ->
  buffer_ok (snd (insert_char w c heap)).
Proof.
  intros Hh Hok Hasm Hins.
  destruct (Z.eq_dec c (-1)) as [->|Hc].
  { unfold insert_char. rewrite Hh. exact Hok. }
  destruct (Z.le_gt_cases MB_LEN_MAX (charpoint w)) as [Hcp|Hcp].
  { unfold insert_char. rewrite Hh.
    destruct (Z.eqb_spec c (-1)); [contradiction|].
    destruct (Z.leb_spec MB_LEN_MAX (charpoint w)); [exact Hok|lia]. }
  destruct (Z.lt_ge_cases
    (str_is_valid_char (wr (charbuf w) (charpoint w) (char_of_int c))
       (charpoint w + 1)) 0) as [Hres|Hres].
  { destruct (insert_char_incomplete w c heap Hh Hc ltac:(lia) Hres)
      as (w' & -> & Hb & _ & _ & _ & Hm & _).
    destruct Hok as [Hsz Ht]. split; cbn [snd]; rewrite Hb; [now rewrite Hm|exact Ht]. }
  destruct heap as [fresh|].
  - destruct (insert_char_complete w c (Some fresh) Hh Hok Hasm Hc ltac:(lia)
                Hres Hins ltac:(now left))
      as (w' & r & -> & Hb & _ & _ & _ & _ & Hl).
    split; cbn [snd]; [exact Hl|].
    rewrite Hb, !app_assoc. apply terminated_app_nul.
  - destruct (Z.lt_ge_cases (strlen (buffer w) + (charpoint w + 1))
                (current_max_size w)) as [Hfit|Hfull].
    + destruct (insert_char_complete w c None Hh Hok Hasm Hc ltac:(lia)
                  Hres Hins ltac:(now right))
        as (w' & r & -> & Hb & _ & _ & _ & _ & Hl).
      split; cbn [snd]; [exact Hl|].
      rewrite Hb, !app_assoc. apply terminated_app_nul.
    + destruct (insert_char_dropped w c Hh Hc ltac:(lia) Hres Hfull)
        as (w' & -> & Hb & Hm & _).
      destruct Hok as [Hsz Ht].
      split; cbn [snd]; rewrite Hb; [now rewrite Hm|exact Ht].
Qed.

End InsertCharInvariant.

(** *** Typing and yanking in a single-byte locale *)

Section SingleByte.

Lemma char_of_int_of_char (b : byte) : char_of_int (int_of_char b) = b.
Proof. destruct b; vm_compute; reflexivity. Qed.

Lemma int_of_char_minus_one (b : byte) : int_of_char b = -1 -> b = xff.
Proof. destruct b; vm_compute; intros H; try discriminate H; reflexivity. Qed.

(** The buffer does not shrink. *)
Lemma insert_char_current_max_size `{str_class} (w : WInput) (c : Z) heap :
  highlight w = false -> 0 <= cols (widget w) -> 0 <= charpoint w ->
  current_max_size w <= current_max_size (snd (insert_char w c heap)).
Proof.
  intros Hh Hcols Hcp. unfold insert_char. rewrite Hh.
  destruct (c =? -1); [cbn [snd]; lia|].
  destruct (_ <=? _); [cbn [snd]; lia|].
  fields.
  destruct (_ <? 0).
  - destruct (negb _); cbn [snd]; fields; lia.
  - fields.
    destruct (_ <=? _); [destruct heap; cbn [g_try_renew]|]; fields;
      destruct (_ <? _); cbn [snd]; fields; lia.
Qed.

(** A key that is one character of a text put in at point. *)
Lemma insert_char_8bit (w : WInput) (c : Z) heap :
  highlight w = false -> buffer_ok w -> assembler_ok w -> charpoint w = 0 ->
  0 <= point w <= strlen (buffer w) ->
  c <> -1 -> char_of_int c <> x00 ->
  heap <> None \/ strlen (buffer w) + 1 < current_max_size w ->
  let w' := snd (@insert_char str_8bit w c heap) in
  fst (@insert_char str_8bit w c heap) = MSG_HANDLED
  /\ text_of w'
     = take (Z.to_nat (point w)) (text_of w) ++ char_of_int c
       :: drop (Z.to_nat (point w)) (text_of w)
  /\ point w' = point w + 1 /\ charpoint w' = 0 /\ highlight w' = false
  /\ buffer_ok w' /\ assembler_ok w'
  /\ current_max_size w <= current_max_size w'
  /\ mark w' = mark w /\ history w' = history w /\ first w' = first w
  /\ disable_update w' = disable_update w /\ widget w' = widget w.
Proof.
  intros Hh Hok Hasm Hcp Hp Hc Hb0 Hroom w'.
  pose proof Hasm as (Hcb & _ & Hcols).
  destruct (@insert_char_complete str_8bit w c heap Hh Hok Hasm Hc)
    as (v & r & Hrun & Hbuf & Hpt & Hcp' & Hhl & Hmk & Hlen).
  - rewrite Hcp. reflexivity.
  - cbn. lia.
  - exact Hp.
  - rewrite Hcp. exact Hroom.
  - destruct (@insert_char_fields str_8bit w c heap Hh)
      as (Flen & Fw & Fh & Ff & _ & _ & _ & Fdu & Fcp).
    pose proof (@insert_char_current_max_size str_8bit w c heap
                  Hh Hcols ltac:(lia)) as Hgrow.
    fold w' in Flen, Fw, Fh, Ff, Fcp, Hgrow, Fdu.
    assert (Ev : w' = v) by (unfold w'; now rewrite Hrun).
    rewrite Hrun. rewrite Ev in *.
    cbn [str_offset_to_pos str_8bit] in Hbuf.
    rewrite Hcp in Hbuf.
    assert (Htake : take (Z.to_nat (0 + 1)) (wr (charbuf w) 0 (char_of_int c))
                    = [char_of_int c]).
    { destruct (charbuf w) as [|y l]; [simpl in Hcb; discriminate|].
      reflexivity. }
    rewrite Htake in Hbuf.
    assert (Htext : text_of v
      = take (Z.to_nat (point w)) (text_of w) ++ char_of_int c
        :: drop (Z.to_nat (point w)) (text_of w)).
    { unfold text_of at 1. rewrite Hbuf.
      change (take (Z.to_nat (point w)) (text_of w) ++ [char_of_int c]
              ++ drop (Z.to_nat (point w)) (text_of w) ++ x00 :: r)
        with (take (Z.to_nat (point w)) (text_of w)
              ++ (char_of_int c :: drop (Z.to_nat (point w)) (text_of w))
              ++ x00 :: r).
      rewrite app_assoc. apply c_str_split.
      rewrite not_elem_of_app. split.
      - apply not_elem_of_take, c_str_no_nul.
      - apply not_elem_of_cons. split; [congruence|].
        apply not_elem_of_drop, c_str_no_nul. }
    repeat split; try assumption.
    + rewrite Hbuf, !app_assoc. apply terminated_app_nul.
    + rewrite Flen. exact Hcb.
    + lia.
    + rewrite Fw. exact Hcols.
Qed.

(** The bytes of a text put in one after the other. *)
Lemma insert_chars_8bit (kb : list byte) :
  forall (w : WInput) (heap : nat -> option (list byte)) (k : nat),
    highlight w = false -> buffer_ok w -> assembler_ok w -> charpoint w = 0 ->
    0 <= point w <= strlen (buffer w) ->
    x00 ∉ kb -> xff ∉ kb ->
    (forall j, heap j <> None)
    \/ strlen (buffer w) + Z.of_nat (length kb) < current_max_size w ->
    let w' := @insert_chars str_8bit w kb heap k in
    text_of w'
    = take (Z.to_nat (point w)) (text_of w) ++ kb
      ++ drop (Z.to_nat (point w)) (text_of w)
    /\ point w' = point w + Z.of_nat (length kb)
    /\ charpoint w' = 0 /\ highlight w' = false
    /\ buffer_ok w' /\ assembler_ok w'
    /\ mark w' = mark w /\ history w' = history w /\ first w' = first w
    /\ disable_update w' = disable_update w /\ widget w' = widget w.
Proof.
  induction kb as [|b kb IH]; intros w heap k Hh Hok Hasm Hcp Hp H0 Hf Hroom.
  - cbn [insert_chars app length]. rewrite take_drop.
    pose proof Hok as [? ?]. pose proof Hasm as (? & ? & ?).
    repeat split; try assumption; lia.
  - apply not_elem_of_cons in H0 as [Hb0 H0].
    apply not_elem_of_cons in Hf as [Hbf Hf].
    cbn [insert_chars].
    destruct (insert_char_8bit w (int_of_char b) (heap k) Hh Hok Hasm Hcp Hp)
      as (_ & Ht & Hpt & Hcp1 & Hh1 & Hok1 & Hasm1 & Hgrow & Hm1 & Hhist1 & Hf1
          & Hdu1 & Hwid1).
    { intros E. apply int_of_char_minus_one in E. congruence. }
    { rewrite char_of_int_of_char. congruence. }
    { destruct Hroom as [Hall|Hfit]; [left; apply Hall|right].
      simpl in Hfit. lia. }
    rewrite char_of_int_of_char in Ht.
    set (w1 := snd (@insert_char str_8bit w (int_of_char b) (heap k))) in *.
    assert (Hsl : strlen (buffer w1) = strlen (buffer w) + 1).
    { unfold strlen at 1. fold (text_of w1). rewrite Ht.
      rewrite length_app. simpl. rewrite length_take, length_drop.
      unfold strlen, text_of in *. lia. }
    destruct (IH w1 heap (S k) Hh1 Hok1 Hasm1 Hcp1)
      as (Ht2 & Hpt2 & Hcp2 & Hh2 & Hok2 & Hasm2 & Hm2 & Hhist2 & Hf2
          & Hdu2 & Hwid2);
      [lia|assumption|assumption| |].
    { destruct Hroom as [Hall|Hfit]; [now left|right].
      simpl in Hfit. lia. }
    pose proof Hok2 as [? ?]. pose proof Hasm2 as (? & ? & ?).
    repeat split; try assumption; try congruence.
    + rewrite Ht2, Ht, Hpt.
      assert (Hlen : length (take (Z.to_nat (point w)) (text_of w))
                     = Z.to_nat (point w)).
      { rewrite length_take. unfold strlen, text_of in *. lia. }
      assert (HT1 : take (Z.to_nat (point w)) (text_of w) ++ b
                    :: drop (Z.to_nat (point w)) (text_of w)
                    = (take (Z.to_nat (point w)) (text_of w) ++ [b])
                      ++ drop (Z.to_nat (point w)) (text_of w))
        by (now rewrite <- app_assoc).
      rewrite HT1.
      rewrite take_app_length', drop_app_length'
        by (rewrite length_app, Hlen; simpl; lia).
      now rewrite <- !app_assoc.
    + rewrite Hpt2, Hpt. simpl length. lia.
Qed.

End SingleByte.

(** *** The invariants under [insert_char], for every key *)

Section InsertCharAnyKey.

Context {used_class : str_class}.

Lemma insert_char_assembler_ok (w : WInput) (c : Z) heap :
  highlight w = false -> assembler_ok w ->
  assembler_ok (snd (insert_char w c heap)).
Proof.
  intros Hh (Hlen & Hcp & Hcols).
  destruct (insert_char_fields w c heap Hh)
    as (Flen & Fw & _ & _ & _ & _ & _ & _ & Fcp).
  destruct (Z.le_gt_cases (charpoint w) MB_LEN_MAX) as [Hle|Hgt].
  - repeat split; [now rewrite Flen|lia|now rewrite Fw].
  - assert (E : snd (insert_char w c heap) = w).
    { unfold insert_char. rewrite Hh.
      destruct (c =? -1); [reflexivity|].
      destruct (Z.leb_spec MB_LEN_MAX (charpoint w)); [reflexivity|lia]. }
    rewrite E. repeat split; assumption.
Qed.

Lemma input_delete_selection_ok (w : WInput) :
  buffer_ok w -> assembler_ok w -> text_ok (text_of w) ->
  valid_offset w (point w) ->
  (highlight w = true -> valid_offset w (mark w)) ->
  let w1 := input_delete_selection w in
  highlight w1 = false /\ buffer_ok w1 /\ assembler_ok w1
  /\ 0 <= str_offset_to_pos (text_of w1) (point w1) <= strlen (buffer w1).
Proof.
  intros Hok Hasm Htxt Hp Hm w1. unfold w1, input_delete_selection.
  destruct (highlight w) eqn:Hh.
  - rewrite input_eval_marks_active by exact Hh.
    specialize (Hm eq_refl).
    assert (Hlo : valid_offset w (Z.min (mark w) (point w)))
      by (unfold valid_offset in *; lia).
    assert (Hhi : valid_offset w (Z.max (mark w) (point w)))
      by (unfold valid_offset in *; lia).
    destruct (delete_region_text w _ _ Hok Htxt Hlo Hhi) as (Ht & Hhl & _ & Hok').
    pose proof (delete_region_point w _ _ Hok Htxt Hlo Hhi) as Hpos.
    cbv zeta in Ht, Hpos.
    destruct (valid_offsets_pos w _ _ Htxt Hlo Hhi) as [Hb1 Hb2].
    replace (Z.min (Z.min (mark w) (point w)) (Z.max (mark w) (point w)))
      with (Z.min (mark w) (point w)) in * by lia.
    replace (Z.max (Z.min (mark w) (point w)) (Z.max (mark w) (point w)))
      with (Z.max (mark w) (point w)) in * by lia.
    split; [exact Hhl|]. split; [exact Hok'|].
    split; [destruct Hasm as (? & ? & ?); repeat split; [assumption|reflexivity|assumption]|].
    rewrite Hpos. unfold strlen.
    fold (text_of (delete_region w (Z.min (mark w) (point w))
                     (Z.max (mark w) (point w)))).
    rewrite Ht, length_app, length_take, length_drop.
    unfold strlen, text_of in *. lia.
  - rewrite input_eval_marks_inactive by exact Hh.
    pose proof (offset_bounds _ Htxt _ Hp) as Hb.
    unfold strlen. fold (text_of w).
    split; [exact Hh|]. split; [exact Hok|]. split; [exact Hasm|]. lia.
Qed.

Lemma insert_char_invariants (w : WInput) (c : Z) heap :
  buffer_ok w -> assembler_ok w -> text_ok (text_of w) ->
  valid_offset w (point w) ->
  (highlight w = true -> valid_offset w (mark w)) ->
  buffer_ok (snd (insert_char w c heap))
  /\ assembler_ok (snd (insert_char w c heap))
  /\ highlight (snd (insert_char w c heap)) = false.
Proof.
  intros Hok Hasm Htxt Hp Hm.
  destruct (input_delete_selection_ok w Hok Hasm Htxt Hp Hm)
    as (Hh1 & Hok1 & Hasm1 & Hpos1).
  rewrite insert_char_after_selection.
  split; [now apply insert_char_buffer_ok|].
  split; [now apply insert_char_assembler_ok|].
  now destruct (insert_char_fields (input_delete_selection w) c heap Hh1)
    as (_ & _ & _ & _ & -> & _).
Qed.

End InsertCharAnyKey.

(** *** The commands that delete *)

Section CutStrings.

Implicit Types a u : list byte.

Lemma c_str_take a (n : nat) : c_str (take n a) = take n (c_str a).
Proof.
  revert n. induction a as [|b a IH]; intros [|n];
    rewrite ?take_0, ?take_nil; try reflexivity.
  cbn [take c_str].
  destruct (decide (b = x00)); [reflexivity|]. cbn [take]. now rewrite IH.
Qed.

(** [a[n] = '\0'] inside the text cuts the text at [n]. *)
Lemma c_str_cut a (n : nat) :
  (n < length a)%nat -> c_str (<[n := x00]> a) = take n (c_str a).
Proof.
  revert n. induction a as [|b a IH]; intros [|n] Hn; simpl in Hn; try lia.
  - rewrite take_0. cbn. now destruct (decide (x00 = x00)).
  - cbn [c_str]. change (<[S n:=x00]> (b :: a)) with (b :: <[n:=x00]> a).
    cbn [c_str].
    destruct (decide (b = x00)); [reflexivity|]. cbn [take].
    rewrite IH by lia. reflexivity.
Qed.

End CutStrings.

Section DeleteCommands.

Context {used_class : str_class}.

(** The fields [move_buffer_backward] leaves alone, and the buffer when the
    characters between two offsets go. *)
Lemma move_buffer_backward_ok (w : WInput) (start end_ : Z) :
  buffer_ok w -> text_ok (text_of w) ->
  0 <= start < end_ -> end_ <= str_length (text_of w) ->
  let lo := str_offset_to_pos (text_of w) start in
  let hi := str_offset_to_pos (text_of w) end_ in
  let w' := move_buffer_backward w start end_ in
  text_of w' = take (Z.to_nat lo) (text_of w) ++ drop (Z.to_nat hi) (text_of w)
  /\ buffer_ok w' /\ point w' = point w /\ mark w' = mark w
  /\ highlight w' = highlight w /\ history w' = history w
  /\ first w' = first w.
Proof.
  intros Hok Htxt Hse Hend lo hi w'.
  destruct (move_buffer_backward_text w start end_ Hok Htxt Hse Hend)
    as (a & Hrun & Hc & Hlen).
  fold lo hi in Hc. unfold w'. rewrite Hrun.
  destruct Hok as [Hsz Ht].
  pose proof (offset_bounds _ Htxt start ltac:(lia)) as Hlo.
  pose proof (offset_bounds _ Htxt end_ ltac:(lia)) as Hhi.
  pose proof (offset_strict _ Htxt start end_ ltac:(lia) Hend) as Hlt.
  fold lo in Hlo, Hlt. fold hi in Hhi, Hlt.
  split; [exact Hc|]. split; [|repeat split].
  unfold buffer_ok, terminated, strlen in *. fields.
  rewrite Hc, Hlen, length_app, length_take, length_drop.
  split; [exact Hsz|]. unfold text_of in *. lia.
Qed.

(** [delete_char] takes the character at point out of the text. *)
Lemma delete_char_text (w : WInput) (n : Z) :
  buffer_ok w -> text_ok (text_of w) -> 0 <= point w ->
  str_cnext_noncomb_char
    (c_str (drop (Z.to_nat (str_offset_to_pos (text_of w) (point w)))
              (buffer w))) = n ->
  0 < n -> point w + n <= str_length (text_of w) ->
  let lo := str_offset_to_pos (text_of w) (point w) in
  let hi := str_offset_to_pos (text_of w) (point w + n) in
  let w' := delete_char w in
  text_of w' = take (Z.to_nat lo) (text_of w) ++ drop (Z.to_nat hi) (text_of w)
  /\ point w' = point w /\ need_push w' = true /\ charpoint w' = 0
  /\ buffer_ok w' /\ mark w' = mark w /\ highlight w' = highlight w
  /\ history w' = history w.
Proof.
  intros Hok Htxt Hp Hn Hpos Hend lo hi w'.
  destruct (move_buffer_backward_ok w (point w) (point w + n) Hok Htxt
              ltac:(lia) Hend) as (Ht & Hok' & Hpt & Hm & Hh & Hhist & _).
  unfold w', delete_char. fold (text_of w). rewrite Hn.
  fold lo hi in Ht.
  split; [exact Ht|]. split; [exact Hpt|]. split; [reflexivity|].
  split; [reflexivity|]. split; [exact Hok'|]. repeat split; assumption.
Qed.

(** The backspace command takes the character before point out of the
    text and steps back over it. *)
Lemma backspace_text (w : WInput) (n : Z) :
  buffer_ok w -> text_ok (text_of w) -> highlight w = false ->
  point w <= str_length (text_of w) ->
  str_cprev_noncomb_char (text_of w)
    (str_offset_to_pos (text_of w) (point w)) = n ->
  0 < n <= point w ->
  let lo := str_offset_to_pos (text_of w) (point w - n) in
  let hi := str_offset_to_pos (text_of w) (point w) in
  let w' := mc_winput_cmd_backspace w in
  text_of w' = take (Z.to_nat lo) (text_of w) ++ drop (Z.to_nat hi) (text_of w)
  /\ point w' = point w - n /\ need_push w' = true /\ charpoint w' = 0
  /\ buffer_ok w' /\ mark w' = mark w /\ highlight w' = false
  /\ history w' = history w.
Proof.
  intros Hok Htxt Hh Hend Hn Hpos lo hi w'.
  destruct (move_buffer_backward_ok w (point w - n) (point w) Hok Htxt
              ltac:(lia) Hend) as (Ht & Hok' & Hpt & Hm & Hh' & Hhist & _).
  unfold w', mc_winput_cmd_backspace. rewrite Hh, Hn.
  destruct (Z.eqb_spec (point w) 0) as [E|_]; [lia|]. cbn [negb].
  fold lo hi in Ht.
  split; [exact Ht|]. split; [reflexivity|]. split; [reflexivity|].
  split; [reflexivity|]. split; [exact Hok'|].
  split; [exact Hm|]. split; [now rewrite <- Hh|exact Hhist].
Qed.

(** With nothing before point, and nothing selected, the backspace command
    does nothing, not even to the assembler. *)
Lemma backspace_at_start (w : WInput) :
  highlight w = false -> point w = 0 -> mc_winput_cmd_backspace w = w.
Proof.
  intros Hh Hp. unfold mc_winput_cmd_backspace. now rewrite Hh, Hp.
Qed.

(** The kill-to-end command splits the text at point: what is before point
    stays, what is behind it goes to the kill ring. *)
Lemma delete_to_end_text (w : WInput) (g : process) :
  buffer_ok w -> text_ok (text_of w) -> valid_offset w (point w) ->
  let chp := str_offset_to_pos (text_of w) (point w) in
  let w' := fst (mc_winput_cmd_delete_to_end w g) in
  let g' := snd (mc_winput_cmd_delete_to_end w g) in
  text_of w' = take (Z.to_nat chp) (text_of w)
  /\ kill_buffer g' = Some (drop (Z.to_nat chp) (text_of w))
  /\ raised g' = raised g
  /\ point w' = point w /\ charpoint w' = 0 /\ buffer_ok w'
  /\ need_push w' = need_push w /\ mark w' = mark w
  /\ highlight w' = highlight w /\ history w' = history w
  /\ current_max_size w' = current_max_size w
  /\ charbuf w' = charbuf w /\ widget w' = widget w.
Proof.
  intros [Hsz Ht] Htxt Hp chp w' g'.
  pose proof (offset_bounds _ Htxt _ Hp) as Hb. fold chp in Hb.
  unfold w', g', mc_winput_cmd_delete_to_end. fold chp. cbn [fst snd].
  unfold terminated, strlen in Ht.
  assert (Hw : wr (buffer w) chp x00 = <[Z.to_nat chp := x00]> (buffer w)).
  { rewrite <- (Z2Nat.id chp) at 1 by lia. apply wr_nat. }
  assert (Hc : c_str (wr (buffer w) chp x00)
               = take (Z.to_nat chp) (c_str (buffer w))).
  { rewrite Hw. apply c_str_cut. unfold text_of in Hb. lia. }
  split; [exact Hc|].
  split.
  { cbn [kill_buffer set_kill_buffer]. f_equal. unfold g_strdup_at.
    apply c_str_drop. unfold text_of in Hb. lia. }
  split; [reflexivity|]. split; [reflexivity|]. split; [reflexivity|].
  split; [|repeat split].
  unfold buffer_ok, terminated, strlen. fields.
  rewrite Hc, length_take, length_wr. split; [exact Hsz|].
  unfold text_of in Hb. lia.
Qed.

(** The cut command: the text between mark and point goes to the kill
    ring and out of the buffer. *)
Lemma clipboard_cut_text (w : WInput) (g : process) :
  buffer_ok w -> text_ok (text_of w) ->
  valid_offset w (mark w) -> valid_offset w (point w) -> mark w <> point w ->
  let lo := str_offset_to_pos (text_of w) (Z.min (mark w) (point w)) in
  let hi := str_offset_to_pos (text_of w) (Z.max (mark w) (point w)) in
  let region := take (Z.to_nat (hi - lo)) (drop (Z.to_nat lo) (text_of w)) in
  let w' := fst (mc_winput_cmd_clipboard_cut w g) in
  let g' := snd (mc_winput_cmd_clipboard_cut w g) in
  kill_buffer g' = Some region
  /\ raised g'
     = raised g
       ++ [ {| ev_group := MCEVENT_GROUP_CORE;
               ev_name := "clipboard_text_to_file";
               ev_data := Some region |};
            {| ev_group := MCEVENT_GROUP_CORE;
               ev_name := "clipboard_file_to_ext_clip";
               ev_data := None |} ]
  /\ text_of w' = take (Z.to_nat lo) (text_of w) ++ drop (Z.to_nat hi) (text_of w)
  /\ point w' = Z.min (mark w) (point w)
  /\ highlight w' = false /\ buffer_ok w'.
Proof.
  intros Hok Htxt Hm Hp Hne lo hi region w' g'.
  destruct (valid_offsets_pos w _ _ Htxt Hm Hp) as [Hlo Hhi].
  fold lo hi in Hlo, Hhi.
  assert (Hregion : g_strndup (buffer w) lo (hi - lo) = region).
  { unfold g_strndup, region. rewrite c_str_take. f_equal.
    apply c_str_drop. unfold strlen in Hhi. lia. }
  destruct (delete_region_text w (point w) (mark w) Hok Htxt Hp Hm)
    as (Ht & Hh & Hpt & Hok').
  cbv zeta in Ht. rewrite (Z.min_comm (point w)), (Z.max_comm (point w)) in Ht.
  rewrite (Z.min_comm (point w)) in Hpt.
  fold lo hi in Ht.
  unfold w', g', mc_winput_cmd_clipboard_cut, mc_winput_cmd_clipboard_copy,
    mc_winput_cmd_remove.
  destruct (Z.eqb_spec (Z.max (mark w) (point w)) (Z.min (mark w) (point w)));
    [lia|].
  cbn [fst snd]. fold lo hi. rewrite Hregion.
  split; [reflexivity|]. split.
  { unfold mc_event_raise, set_kill_buffer. cbn [raised kill_buffer].
    now rewrite <- app_assoc. }
  split; [exact Ht|]. split; [exact Hpt|]. split; assumption.
Qed.

End DeleteCommands.

(** *** The kill ring *)

Section Yank.

Lemma strlen_text_of (w : WInput) :
  strlen (buffer w) = Z.of_nat (length (text_of w)).
Proof. reflexivity. Qed.

(** The yank command puts the kill ring in at point. *)
Lemma yank_8bit (w : WInput) (g : process) (kb : list byte) heap :
  kill_buffer g = Some kb ->
  highlight w = false -> buffer_ok w -> assembler_ok w ->
  0 <= point w <= strlen (buffer w) ->
  x00 ∉ kb -> xff ∉ kb ->
  (forall j, heap j <> None)
  \/ strlen (buffer w) + Z.of_nat (length kb) < current_max_size w ->
  let w' := @mc_winput_cmd_yank str_8bit w g heap in
  text_of w'
  = take (Z.to_nat (point w)) (text_of w) ++ kb
    ++ drop (Z.to_nat (point w)) (text_of w)
  /\ point w' = point w + Z.of_nat (length kb)
  /\ charpoint w' = 0 /\ highlight w' = false
  /\ buffer_ok w' /\ assembler_ok w'
  /\ mark w' = mark w /\ history w' = history w.
Proof.
  intros Hk Hh Hok Hasm Hp H0 Hf Hroom w'.
  unfold w', mc_winput_cmd_yank. rewrite Hk.
  destruct (insert_chars_8bit kb (set_charpoint 0 w) heap 0%nat)
    as (Ht & Hpt & Hcp & Hh' & Hok' & Hasm' & Hm & Hhist & _);
    try assumption; try reflexivity.
  { destruct Hasm as (? & ? & ?). repeat split; [assumption|reflexivity|assumption]. }
  cbv zeta in Ht, Hpt, Hcp, Hh', Hok', Hasm', Hm, Hhist.
  split; [exact Ht|]. split; [exact Hpt|]. split; [reflexivity|].
  split; [exact Hh'|]. split; [exact Hok'|].
  split; [|split; assumption].
  destruct Hasm' as (? & ? & ?). repeat split; [assumption|reflexivity|assumption].
Qed.

(** Killing to the end of the line and yanking gives the text back,
    whatever the allocator answers: the buffer held the text before. *)
Lemma delete_to_end_yank_8bit (w : WInput) (g : process) heap :
  highlight w = false -> buffer_ok w -> assembler_ok w ->
  0 <= point w <= strlen (buffer w) ->
  xff ∉ drop (Z.to_nat (point w)) (text_of w) ->
  let w1 := fst (@mc_winput_cmd_delete_to_end str_8bit w g) in
  let g1 := snd (@mc_winput_cmd_delete_to_end str_8bit w g) in
  let w2 := @mc_winput_cmd_yank str_8bit w1 g1 heap in
  text_of w2 = text_of w /\ point w2 = strlen (buffer w)
  /\ charpoint w2 = 0 /\ buffer_ok w2.
Proof.
  intros Hh Hok Hasm Hp Hf w1 g1 w2.
  destruct (@delete_to_end_text str_8bit w g Hok (str_8bit_text_ok _))
    as (Ht1 & Hk1 & _ & Hp1 & Hcp1 & Hok1 & _ & _ & Hh1 & _ & Hm1 & Hcb1 & Hwid1).
  { exact Hp. }
  fold w1 g1 in Ht1, Hk1, Hp1, Hcp1, Hok1, Hh1, Hm1, Hcb1, Hwid1.
  cbn [str_offset_to_pos str_8bit] in Ht1, Hk1.
  assert (Hl1 : strlen (buffer w1) = point w).
  { rewrite strlen_text_of, Ht1, length_take.
    rewrite strlen_text_of in Hp. lia. }
  assert (Hfit : strlen (buffer w1)
                 + Z.of_nat (length (drop (Z.to_nat (point w)) (text_of w)))
                 < current_max_size w1).
  { rewrite Hl1, length_drop, Hm1.
    destruct Hok as [Hsz Hterm]. unfold terminated in Hterm.
    rewrite strlen_text_of in Hp, Hterm. lia. }
  assert (Hasm1 : assembler_ok w1).
  { destruct Hasm as (? & ? & ?). unfold assembler_ok.
    rewrite Hcb1, Hcp1, Hwid1. repeat split; [assumption|lia|assumption]. }
  destruct (yank_8bit w1 g1 _ heap Hk1) as (Ht2 & Hp2 & Hcp2 & _ & Hok2 & _).
  - now rewrite Hh1.
  - exact Hok1.
  - exact Hasm1.
  - rewrite Hp1, Hl1. lia.
  - apply not_elem_of_drop, c_str_no_nul.
  - exact Hf.
  - right. exact Hfit.
  - fold w2 in Ht2, Hp2, Hcp2, Hok2.
    split.
    { rewrite Ht2, Hp1, Ht1.
      rewrite take_take, Nat.min_id.
      rewrite (drop_ge (take _ _)) by (rewrite length_take; lia).
      rewrite app_nil_r. apply take_drop. }
    split.
    { rewrite Hp2, Hp1, length_drop. rewrite strlen_text_of in *. lia. }
    split; [exact Hcp2|exact Hok2].
Qed.

End Yank.

Section CutYank.

(** Cutting the text between mark and point and yanking it gives the text
    back, with point behind what was cut. *)
Lemma clipboard_cut_yank_8bit (w : WInput) (g : process) heap :
  buffer_ok w -> assembler_ok w ->
  @valid_offset str_8bit w (mark w) -> @valid_offset str_8bit w (point w) ->
  mark w <> point w ->
  xff ∉ take (Z.to_nat (Z.max (mark w) (point w) - Z.min (mark w) (point w)))
         (drop (Z.to_nat (Z.min (mark w) (point w))) (text_of w)) ->
  let w1 := fst (@mc_winput_cmd_clipboard_cut str_8bit w g) in
  let g1 := snd (@mc_winput_cmd_clipboard_cut str_8bit w g) in
  let w2 := @mc_winput_cmd_yank str_8bit w1 g1 heap in
  text_of w2 = text_of w /\ point w2 = Z.max (mark w) (point w)
  /\ highlight w2 = false /\ buffer_ok w2.
Proof.
  intros Hok Hasm Hm Hp Hne Hf w1 g1 w2.
  destruct (@clipboard_cut_text str_8bit w g Hok (str_8bit_text_ok _) Hm Hp Hne)
    as (Hk1 & _ & Ht1 & Hp1 & Hh1 & Hok1).
  fold w1 g1 in Hk1, Ht1, Hp1, Hh1, Hok1.
  cbn [str_offset_to_pos str_8bit] in Hk1, Ht1.
  unfold valid_offset in Hm, Hp. cbn [str_length str_8bit] in Hm, Hp.
  set (lo := Z.min (mark w) (point w)) in *.
  set (hi := Z.max (mark w) (point w)) in *.
  set (t := text_of w) in *.
  assert (Hasm1 : assembler_ok w1).
  { destruct Hasm as (? & ? & ?). repeat split; [assumption|reflexivity|assumption]. }
  assert (Hl1 : strlen (buffer w1) = Z.of_nat (length t) - (hi - lo)).
  { rewrite strlen_text_of, Ht1, length_app, length_take, length_drop. lia. }
  destruct (yank_8bit w1 g1 _ heap Hk1 Hh1 Hok1 Hasm1)
    as (Ht2 & Hp2 & _ & Hh2 & Hok2 & _).
  - rewrite Hp1, Hl1. lia.
  - apply not_elem_of_take, not_elem_of_drop, c_str_no_nul.
  - exact Hf.
  - right. rewrite Hl1, length_take, length_drop.
    destruct Hok as [Hsz Hterm]. unfold terminated in Hterm.
    rewrite strlen_text_of in Hterm.
    replace (current_max_size w1) with (current_max_size w) by reflexivity.
    fold t in Hterm. lia.
  - fold w2 in Ht2, Hp2, Hh2, Hok2.
    split.
    { rewrite Ht2, Hp1, Ht1.
      rewrite take_app_le by (rewrite length_take; lia).
      rewrite take_take, Nat.min_id.
      rewrite drop_app_ge by (rewrite length_take; lia).
      rewrite length_take.
      replace (Z.to_nat lo - Z.to_nat lo `min` length t)%nat with 0%nat by lia.
      rewrite drop_0.
      rewrite <- (take_drop (Z.to_nat lo) t) at 4.
      f_equal.
      rewrite <- (take_drop (Z.to_nat (hi - lo)) (drop (Z.to_nat lo) t)) at 2.
      f_equal. rewrite drop_drop. f_equal. lia. }
    split; [|split; assumption].
    rewrite Hp2, Hp1, length_take, length_drop. lia.
Qed.

End CutYank.

(** *** The keys *)

Section Keys.

Context {used_class : str_class}.

Lemma input_update_first (w : WInput) (clear_first : bool) :
  first w = false -> first (input_update w clear_first) = false.
Proof.
  intros Hf. unfold input_update.
  destruct (negb _); [exact Hf|].
  destruct (owner (widget w)) as [d|]; [|exact Hf].
  destruct (negb _); [exact Hf|].
  fields.
  destruct (_ || _); fields;
    [destruct (_ <? _)|]; destruct clear_first; fields; auto.
Qed.

(** [insert_char] does not touch the flag of the highlight commands. *)
Lemma insert_char_is_highlight_cmd (w : WInput) (c : Z) heap :
  is_highlight_cmd (snd (insert_char w c heap)) = is_highlight_cmd w.
Proof.
  unfold insert_char.
  assert (H1 : is_highlight_cmd
                 (if highlight w
                  then match input_eval_marks w with
                       | (true, m1, m2) => delete_region w m1 m2
                       | _ => w
                       end
                  else w) = is_highlight_cmd w).
  { unfold input_eval_marks. destruct (highlight w); reflexivity. }
  revert H1.
  generalize (if highlight w
              then match input_eval_marks w with
                   | (true, m1, m2) => delete_region w m1 m2
                   | _ => w
                   end
              else w).
  intros v Hv.
  destruct (c =? -1); [exact Hv|].
  destruct (_ <=? _); [exact Hv|].
  fields.
  destruct (_ <? 0).
  - destruct (negb _); cbn [snd]; fields; exact Hv.
  - fields.
    destruct (_ <=? _); [destruct (g_try_renew _ _ _)|]; fields;
      destruct (_ <? _); cbn [snd]; fields; exact Hv.
Qed.

Variable keymap : Z -> WInput -> option (WInput * bool).

(** What [input_handle_char] adds to the commands bound to a key, and what
    it does with a key that is bound to nothing and is no character. *)
Lemma input_handle_char_flags (w : WInput) (key : Z) heap :
  is_highlight_cmd (snd (input_handle_char keymap w key heap)) = false
  /\ (forall w1 cc,
        keymap key w = Some (w1, cc) ->
        let w' := snd (input_handle_char keymap w key heap) in
        fst (input_handle_char keymap w key heap) = MSG_HANDLED
        /\ buffer w' = buffer w1 /\ point w' = point w1
        /\ highlight w' = (highlight w1 && is_highlight_cmd w1)
        /\ history w' = history w1
        /\ completions w' = (if cc then completions w1 else None))
  /\ (keymap key w = None -> 255 < key ->
      let w' := snd (input_handle_char keymap w key heap) in
      fst (input_handle_char keymap w key heap) = MSG_NOT_HANDLED
      /\ buffer w' = buffer w /\ point w' = point w
      /\ highlight w' = (highlight w && is_highlight_cmd w)
      /\ first w' = first w /\ completions w' = completions w
      /\ need_push w' = need_push w).
Proof.
  unfold input_handle_char.
  destruct (keymap key w) as [[w1 cc]|] eqn:Hk.
  - set (v := set_is_highlight_cmd false
                (if negb (is_highlight_cmd w1) then set_highlight false w1
                 else w1)).
    assert (Hv : buffer v = buffer w1 /\ point v = point w1
                 /\ highlight v = (highlight w1 && is_highlight_cmd w1)
                 /\ history v = history w1 /\ completions v = completions w1
                 /\ is_highlight_cmd v = false).
    { unfold v. destruct (is_highlight_cmd w1); cbn [negb]; fields;
        rewrite ?andb_true_r, ?andb_false_r; repeat split. }
    destruct Hv as (Hb & Hp & Hh & Hhist & Hc & Hi).
    set (v1 := if negb cc then input_free_completions v else v).
    assert (Hv1 : buffer v1 = buffer w1 /\ point v1 = point w1
                 /\ highlight v1 = (highlight w1 && is_highlight_cmd w1)
                 /\ history v1 = history w1
                 /\ completions v1 = (if cc then completions w1 else None)
                 /\ is_highlight_cmd v1 = false).
    { unfold v1, input_free_completions. destruct cc; cbn [negb]; fields;
        repeat split; assumption. }
    destruct Hv1 as (Hb1 & Hp1 & Hh1 & Hhist1 & Hc1 & Hi1).
    set (v2 := if first v1 then input_update v1 true else v1).
    assert (Hv2 : buffer v2 = buffer v1 /\ point v2 = point v1
                  /\ highlight v2 = highlight v1 /\ history v2 = history v1
                  /\ completions v2 = completions v1
                  /\ is_highlight_cmd v2 = is_highlight_cmd v1).
    { unfold v2. destruct (first v1); [|repeat split].
      destruct (input_update_fields v1 true)
        as (? & ? & ? & _ & _ & _ & ? & _ & _ & _ & ? & _ & ?).
      repeat split; assumption. }
    destruct Hv2 as (Hb2 & Hp2 & Hh2 & Hhist2 & Hc2 & Hi2).
    destruct (input_update_fields v2 true)
      as (Eb & Ep & Eh & _ & _ & _ & Ehist & _ & _ & _ & Ei & _ & Ec).
    cbn [fst snd]. split; [congruence|]. split.
    + intros w1' cc' E. injection E as <- <-. cbv zeta.
      repeat split; congruence.
    + discriminate.
  - set (v := set_is_highlight_cmd false
                (if negb (is_highlight_cmd w) then set_highlight false w
                 else w)).
    assert (Hv : buffer v = buffer w /\ point v = point w
                 /\ highlight v = (highlight w && is_highlight_cmd w)
                 /\ first v = first w /\ completions v = completions w
                 /\ need_push v = need_push w
                 /\ is_highlight_cmd v = false).
    { unfold v. destruct (is_highlight_cmd w); cbn [negb]; fields;
        rewrite ?andb_true_r, ?andb_false_r; repeat split. }
    destruct Hv as (Hb & Hp & Hh & Hf & Hc & Hn & Hi).
    destruct (Z.ltb_spec 255 key) as [Hbig|Hsmall].
    + cbn [fst snd]. split; [exact Hi|]. split; [discriminate|].
      intros _ _. cbv zeta. repeat split; assumption.
    + split; [|split; [discriminate|intros _ ?; lia]].
      destruct (insert_char _ key heap) as [r v'] eqn:Hrun.
      cbn [snd].
      destruct (input_update_fields v' true)
        as (_ & _ & _ & _ & _ & _ & _ & _ & _ & _ & -> & _).
      replace v' with (snd (insert_char
        (input_free_completions
           (if first v then port_region_marked_for_delete v else v))
        key heap)) by (now rewrite Hrun).
      rewrite insert_char_is_highlight_cmd.
      unfold input_free_completions, port_region_marked_for_delete.
      destruct (first v); fields; exact Hi.
Qed.

End Keys.

Section TypedKeys.

Variable keymap : Z -> WInput -> option (WInput * bool).

(** A key that is bound to nothing and is the code of a character puts the
    character in at point; what was selected is not deleted, only no
    longer selected. *)
Lemma input_handle_char_typed_8bit (w : WInput) (key : Z) heap :
  keymap key w = None -> key <= 255 -> key <> -1 -> char_of_int key <> x00 ->
  is_highlight_cmd w = false -> first w = false ->
  buffer_ok w -> assembler_ok w -> charpoint w = 0 ->
  0 <= point w <= strlen (buffer w) ->
  heap <> None \/ strlen (buffer w) + 1 < current_max_size w ->
  let w' := snd (@input_handle_char str_8bit keymap w key heap) in
  fst (@input_handle_char str_8bit keymap w key heap) = MSG_HANDLED
  /\ text_of w'
     = take (Z.to_nat (point w)) (text_of w) ++ char_of_int key
       :: drop (Z.to_nat (point w)) (text_of w)
  /\ point w' = point w + 1 /\ charpoint w' = 0 /\ highlight w' = false
  /\ buffer_ok w' /\ assembler_ok w'
  /\ is_highlight_cmd w' = false /\ first w' = false
  /\ history w' = history w /\ disable_update w' = disable_update w
  /\ current_max_size w <= current_max_size w'.
Proof.
  intros Hk Hkey Hc Hb0 Hi Hf Hok Hasm Hcp Hp Hroom w'.
  pose proof (@input_handle_char_flags str_8bit keymap w key heap) as (Hflag & _).
  fold w' in Hflag.
  unfold w', input_handle_char in *. rewrite Hk, Hi in *. cbn [negb] in *.
  destruct (Z.ltb_spec 255 key) as [Hbig|_]; [lia|].
  fields. rewrite Hf in *.
  set (v := input_free_completions
              (set_is_highlight_cmd false (set_highlight false w))) in *.
  destruct (insert_char_8bit v key heap)
    as (Hr & Ht & Hpt & Hcp' & Hh' & Hok' & Hasm' & Hgrow & _ & Hhist & Hf' & Hdu & Hwid);
    try assumption; try reflexivity.
  destruct (@insert_char str_8bit v key heap) as [r v'] eqn:Hrun.
  cbn [fst snd] in *.
  destruct (@input_update_fields str_8bit v' true)
    as (Eb & Ep & Eh & Em & Ecb & Ecp & Ehist & _ & Ewid & Edu & _).
  split; [exact Hr|].
  split; [unfold text_of; rewrite Eb; exact Ht|].
  split; [now rewrite Ep|]. split; [now rewrite Ecp|].
  split; [now rewrite Eh|].
  split; [now apply buffer_ok_input_update|].
  split.
  { destruct Hasm' as (? & ? & ?). unfold assembler_ok.
    rewrite Ecb, Ecp, Ewid. repeat split; assumption. }
  split; [exact Hflag|].
  split; [apply input_update_first; now rewrite Hf'|].
  split; [now rewrite Ehist, Hhist|].
  split; [now rewrite Edu, Hdu|].
  rewrite Em. exact Hgrow.
Qed.

(** The first key of a character typed into a widget that was not touched
    yet replaces the text. *)
Lemma input_handle_char_first_8bit (w : WInput) (key : Z) heap :
  keymap key w = None -> key <= 255 -> key <> -1 -> char_of_int key <> x00 ->
  is_highlight_cmd w = false -> first w = true ->
  buffer_ok w -> assembler_ok w ->
  heap <> None \/ 1 < current_max_size w ->
  let w' := snd (@input_handle_char str_8bit keymap w key heap) in
  fst (@input_handle_char str_8bit keymap w key heap) = MSG_HANDLED
  /\ text_of w' = [char_of_int key]
  /\ point w' = 1 /\ first w' = false /\ highlight w' = false
  /\ buffer_ok w'
  /\ assembler_ok w' /\ charpoint w' = 0 /\ is_highlight_cmd w' = false
  /\ history w' = history w /\ disable_update w' = disable_update w
  /\ current_max_size w <= current_max_size w'.
Proof.
  intros Hk Hkey Hc Hb0 Hi Hf Hok Hasm Hroom w'.
  pose proof (@input_handle_char_flags str_8bit keymap w key heap) as (Hflag & _).
  fold w' in Hflag.
  unfold w', input_handle_char in *. rewrite Hk, Hi in *. cbn [negb] in *.
  destruct (Z.ltb_spec 255 key) as [Hbig|_]; [lia|].
  fields. rewrite Hf in *.
  set (v := input_free_completions
              (port_region_marked_for_delete
                 (set_is_highlight_cmd false (set_highlight false w)))) in *.
  destruct Hok as [Hsz Hterm].
  assert (Hbuf : exists r, buffer v = x00 :: r /\ length (buffer v) = length (buffer w)).
  { unfold v, input_free_completions, port_region_marked_for_delete. fields.
    destruct (buffer w) as [|b r] eqn:E.
    - unfold terminated, strlen in Hterm. simpl in Hterm. lia.
    - exists r. split; reflexivity. }
  destruct Hbuf as (r & Hbuf & Hlen).
  assert (Hs : strlen (buffer v) = 0).
  { unfold strlen. rewrite Hbuf. cbn. now destruct (decide (x00 = x00)). }
  destruct (insert_char_8bit v key heap)
    as (Hr & Ht & Hpt & Hcp' & Hh' & Hok' & Hasm' & Hgrow & _ & Hhist & Hf'
        & Hdu & Hwid);
    try assumption; try reflexivity.
  { split; [rewrite Hlen; exact Hsz|].
    unfold terminated. rewrite Hs, Hbuf. simpl length. lia. }
  { destruct Hasm as (? & ? & ?). repeat split; [assumption|reflexivity|assumption]. }
  { rewrite Hs. change (point v) with 0. lia. }
  { rewrite Hs. exact Hroom. }
  destruct (@insert_char str_8bit v key heap) as [res v'] eqn:Hrun.
  cbn [fst snd] in *.
  destruct (@input_update_fields str_8bit v' true)
    as (Eb & Ep & Eh & Em & Ecb & Ecp & Ehist & _ & Ewid & Edu & _).
  assert (Htv : text_of v = []).
  { unfold text_of. rewrite Hbuf. cbn. now destruct (decide (x00 = x00)). }
  rewrite Htv in Ht. change (point v) with 0 in Ht, Hpt.
  split; [exact Hr|].
  split; [unfold text_of; rewrite Eb; exact Ht|].
  split; [now rewrite Ep|].
  split; [apply input_update_first; now rewrite Hf'|].
  split; [now rewrite Eh|].
  split; [now apply buffer_ok_input_update|].
  split.
  { destruct Hasm' as (? & ? & ?). unfold assembler_ok.
    rewrite Ecb, Ecp, Ewid. repeat split; assumption. }
  split; [now rewrite Ecp|].
  split; [exact Hflag|].
  split; [now rewrite Ehist, Hhist|].
  split; [now rewrite Edu, Hdu|].
  rewrite Em. exact Hgrow.
Qed.

End TypedKeys.

(** *** Inserting a text *)

Section InsertText.

Variable keymap : Z -> WInput -> option (WInput * bool).

Lemma unsigned_char_range (b : byte) :
  0 <= Z.of_N (Byte.to_N b) <= 255
  /\ char_of_int (Z.of_N (Byte.to_N b)) = b.
Proof. destruct b; vm_compute; repeat split; discriminate. Qed.

Lemma input_insert_loop_app (t1 t2 : list byte) :
  forall (w : WInput) heap (k : nat),
    @input_insert_loop str_8bit keymap w (t1 ++ t2) heap k
    = @input_insert_loop str_8bit keymap
        (@input_insert_loop str_8bit keymap w t1 heap k) t2 heap
        (k + length t1).
Proof.
  induction t1 as [|b t1 IH]; intros w heap k; cbn [app input_insert_loop length].
  - now rewrite Nat.add_0_r.
  - rewrite IH. f_equal. lia.
Qed.

(** The bytes of a text, none of them bound to a command, typed one after
    the other. *)
Lemma input_insert_loop_8bit (text : list byte) :
  forall (w : WInput) heap (k : nat),
    (forall b v, b ∈ text -> keymap (Z.of_N (Byte.to_N b)) v = None) ->
    x00 ∉ text ->
    is_highlight_cmd w = false -> first w = false ->
    buffer_ok w -> assembler_ok w -> charpoint w = 0 ->
    0 <= point w <= strlen (buffer w) ->
    (forall j, heap j <> None)
    \/ strlen (buffer w) + Z.of_nat (length text) < current_max_size w ->
    let w' := @input_insert_loop str_8bit keymap w text heap k in
    text_of w'
    = take (Z.to_nat (point w)) (text_of w) ++ text
      ++ drop (Z.to_nat (point w)) (text_of w)
    /\ point w' = point w + Z.of_nat (length text)
    /\ charpoint w' = 0
    /\ buffer_ok w' /\ assembler_ok w'
    /\ is_highlight_cmd w' = false /\ first w' = false
    /\ history w' = history w /\ disable_update w' = disable_update w.
Proof.
  induction text as [|b text IH];
    intros w heap k Hkm H0 Hi Hf Hok Hasm Hcp Hp Hroom.
  - cbn [input_insert_loop app length]. rewrite take_drop.
    split; [reflexivity|]. split; [lia|]. repeat split; try assumption;
      try apply Hok; try apply Hasm.
  - apply not_elem_of_cons in H0 as [Hb0 H0].
    cbn [input_insert_loop].
    destruct (unsigned_char_range b) as [Hrange Hchar].
    destruct (input_handle_char_typed_8bit keymap w (Z.of_N (Byte.to_N b))
                (heap k))
      as (_ & Ht & Hpt & Hcp1 & _ & Hok1 & Hasm1 & Hi1 & Hf1 & Hhist1 & Hdu1
          & Hgrow);
      try assumption; try lia.
    { apply Hkm. now left. }
    { rewrite Hchar. congruence. }
    { destruct Hroom as [Hall|Hfit]; [left; apply Hall|right].
      simpl in Hfit. lia. }
    rewrite Hchar in Ht.
    set (w1 := snd (@input_handle_char str_8bit keymap w
                      (Z.of_N (Byte.to_N b)) (heap k))) in *.
    assert (Hsl : strlen (buffer w1) = strlen (buffer w) + 1).
    { rewrite !strlen_text_of, Ht.
      rewrite length_app. simpl. rewrite length_take, length_drop.
      rewrite strlen_text_of in Hp. lia. }
    destruct (IH w1 heap (S k))
      as (Ht2 & Hpt2 & Hcp2 & Hok2 & Hasm2 & Hi2 & Hf2 & Hhist2 & Hdu2);
      try assumption.
    { intros b' v Hin. apply Hkm. now right. }
    { rewrite Hpt, Hsl. lia. }
    { destruct Hroom as [Hall|Hfit]; [now left|right].
      simpl in Hfit. lia. }
    split.
    { rewrite Ht2, Ht, Hpt.
      assert (Hlen : length (take (Z.to_nat (point w)) (text_of w))
                     = Z.to_nat (point w)).
      { rewrite length_take. rewrite strlen_text_of in Hp. lia. }
      assert (HT1 : take (Z.to_nat (point w)) (text_of w) ++ b
                    :: drop (Z.to_nat (point w)) (text_of w)
                    = (take (Z.to_nat (point w)) (text_of w) ++ [b])
                      ++ drop (Z.to_nat (point w)) (text_of w))
        by (now rewrite <- app_assoc).
      rewrite HT1.
      rewrite take_app_length', drop_app_length'
        by (rewrite length_app, Hlen; simpl; lia).
      now rewrite <- !app_assoc. }
    split; [rewrite Hpt2, Hpt; simpl length; lia|].
    split; [exact Hcp2|]. split; [exact Hok2|]. split; [exact Hasm2|].
    split; [exact Hi2|]. split; [exact Hf2|].
    split; congruence.
Qed.

(** The bytes of a text, none of them bound to a command, typed into a
    widget that was not touched yet: the first takes the place of the
    text. *)
Lemma input_insert_loop_first_8bit (b : byte) (rest : list byte) (w : WInput)
    heap (k : nat) :
  (forall b' v, b' ∈ b :: rest -> keymap (Z.of_N (Byte.to_N b')) v = None) ->
  x00 ∉ b :: rest ->
  is_highlight_cmd w = false -> first w = true ->
  buffer_ok w -> assembler_ok w ->
  (forall j, heap j <> None)
  \/ Z.of_nat (length (b :: rest)) < current_max_size w ->
  let w' := @input_insert_loop str_8bit keymap w (b :: rest) heap k in
  text_of w' = b :: rest
  /\ point w' = Z.of_nat (length (b :: rest))
  /\ charpoint w' = 0
  /\ buffer_ok w' /\ first w' = false
  /\ history w' = history w /\ disable_update w' = disable_update w.
Proof.
  intros Hkm H0 Hi Hf Hok Hasm Hroom.
  apply not_elem_of_cons in H0 as [Hb0 H0].
  cbn [input_insert_loop].
  destruct (unsigned_char_range b) as [Hrange Hchar].
  destruct (input_handle_char_first_8bit keymap w (Z.of_N (Byte.to_N b))
              (heap k))
    as (_ & Ht & Hpt & Hf1 & _ & Hok1 & Hasm1 & Hcp1 & Hi1 & Hhist1 & Hdu1
        & Hgrow);
    try assumption; try lia.
  { apply Hkm. now left. }
  { rewrite Hchar. congruence. }
  { destruct Hroom as [Hall|Hfit]; [left; apply Hall|right].
    simpl length in Hfit. lia. }
  rewrite Hchar in Ht.
  set (w1 := snd (@input_handle_char str_8bit keymap w
                    (Z.of_N (Byte.to_N b)) (heap k))) in *.
  assert (Hsl : strlen (buffer w1) = 1).
  { rewrite strlen_text_of, Ht. reflexivity. }
  destruct (input_insert_loop_8bit rest w1 heap (S k))
    as (Ht2 & Hpt2 & Hcp2 & Hok2 & _ & _ & Hf2 & Hhist2 & Hdu2);
    try assumption.
  { intros b' v Hin. apply Hkm. now right. }
  { rewrite Hpt, Hsl. lia. }
  { destruct Hroom as [Hall|Hfit]; [now left|right].
    simpl length in Hfit. lia. }
  split.
  { rewrite Ht2, Ht, Hpt. change (Z.to_nat 1) with 1%nat.
    cbn [take drop app]. now rewrite app_nil_r. }
  split; [rewrite Hpt2, Hpt; simpl length; lia|].
  split; [exact Hcp2|]. split; [exact Hok2|]. split; [exact Hf2|].
  split; congruence.
Qed.

(** [input_insert] is its loop between a pair of calls that disable and
    enable the updates, and a last update. *)
Lemma input_insert_unfold (w : WInput) (text : list byte) (extra : bool) heap :
  @input_insert str_8bit keymap w text extra heap
  = @input_update str_8bit
      (@input_enable_update str_8bit
         (@input_insert_loop str_8bit keymap (input_disable_update w)
            (text ++ (if extra then [x20] else [])) heap 0))
      true.
Proof.
  unfold input_insert. destruct extra.
  - rewrite input_insert_loop_app. reflexivity.
  - now rewrite app_nil_r.
Qed.

(** What the calls behind the loop keep. *)
Lemma input_insert_finish (w v : WInput) :
  buffer_ok v -> disable_update v = disable_update (input_disable_update w) ->
  let w' := @input_update str_8bit (@input_enable_update str_8bit v) true in
  text_of w' = text_of v /\ point w' = point v /\ charpoint w' = charpoint v
  /\ buffer_ok w' /\ history w' = history v
  /\ disable_update w' = disable_update w
  /\ (first v = false -> first w' = false).
Proof.
  intros Hok Hdu w'. unfold w', input_enable_update.
  set (v1 := set_disable_update (disable_update v - 1) v).
  destruct (@input_update_fields str_8bit v1 false)
    as (Eb & Ep & _ & Em & _ & Ecp & Ehist & _ & _ & Edu & _).
  destruct (@input_update_fields str_8bit (@input_update str_8bit v1 false) true)
    as (Fb & Fp & _ & Fm & _ & Fcp & Fhist & _ & _ & Fdu & _).
  split; [unfold text_of; now rewrite Fb, Eb|].
  split; [now rewrite Fp, Ep|].
  split; [now rewrite Fcp, Ecp|].
  split; [apply buffer_ok_input_update, buffer_ok_input_update; exact Hok|].
  split; [now rewrite Fhist, Ehist|].
  split.
  - rewrite Fdu, Edu. unfold v1. cbn [disable_update set_disable_update].
    rewrite Hdu. unfold input_disable_update.
    cbn [disable_update set_disable_update]. lia.
  - intros Hf. apply input_update_first, input_update_first. exact Hf.
Qed.

(** [input_insert] puts a text in at point, and a blank behind it when
    asked to; in a widget that was not touched yet what it puts in takes
    the place of the text. *)
Lemma input_insert_8bit (w : WInput) (text : list byte) (extra : bool) heap :
  let typed := text ++ (if extra then [x20] else []) in
  (forall b v, b ∈ typed -> keymap (Z.of_N (Byte.to_N b)) v = None) ->
  x00 ∉ text ->
  is_highlight_cmd w = false ->
  buffer_ok w -> assembler_ok w -> charpoint w = 0 ->
  0 <= point w <= strlen (buffer w) ->
  let w' := @input_insert str_8bit keymap w text extra heap in
  (first w = false ->
   (forall j, heap j <> None)
   \/ strlen (buffer w) + Z.of_nat (length typed) < current_max_size w ->
   text_of w'
   = take (Z.to_nat (point w)) (text_of w) ++ typed
     ++ drop (Z.to_nat (point w)) (text_of w)
   /\ point w' = point w + Z.of_nat (length typed)
   /\ charpoint w' = 0 /\ buffer_ok w'
   /\ history w' = history w /\ disable_update w' = disable_update w)
  /\ (first w = true -> typed <> [] ->
      (forall j, heap j <> None)
      \/ Z.of_nat (length typed) < current_max_size w ->
      text_of w' = typed
      /\ point w' = Z.of_nat (length typed)
      /\ charpoint w' = 0 /\ buffer_ok w' /\ first w' = false
      /\ history w' = history w /\ disable_update w' = disable_update w)
  /\ (typed = [] ->
      text_of w' = text_of w /\ point w' = point w
      /\ history w' = history w /\ disable_update w' = disable_update w).
Proof.
  intros typed Hkm H0 Hi Hok Hasm Hcp Hp w'.
  assert (H0' : x00 ∉ typed).
  { unfold typed. destruct extra; [|now rewrite app_nil_r].
    rewrite not_elem_of_app. split; [exact H0|].
    apply not_elem_of_cons. split; [discriminate|apply not_elem_of_nil]. }
  unfold w'. rewrite input_insert_unfold. fold typed.
  split; [|split].
  - intros Hf Hroom.
    destruct (input_insert_loop_8bit typed (input_disable_update w) heap 0%nat)
      as (Ht & Hpt & Hcp1 & Hok1 & _ & _ & _ & Hhist1 & Hdu1);
      try assumption.
    cbv zeta in Ht, Hpt, Hcp1, Hok1, Hhist1, Hdu1.
    revert Ht Hpt Hcp1 Hok1 Hhist1 Hdu1.
    generalize (@input_insert_loop str_8bit keymap (input_disable_update w)
                  typed heap 0).
    intros v Ht Hpt Hcp1 Hok1 Hhist1 Hdu1.
    destruct (input_insert_finish w v Hok1 Hdu1)
      as (Gt & Gp & Gcp & Gok & Ghist & Gdu & _).
    split; [rewrite Gt; exact Ht|]. split; [rewrite Gp; exact Hpt|].
    split; [rewrite Gcp; exact Hcp1|]. split; [exact Gok|].
    split; [rewrite Ghist; exact Hhist1|exact Gdu].
  - intros Hf Hne Hroom.
    destruct typed as [|b rest] eqn:Etyped; [congruence|].
    destruct (input_insert_loop_first_8bit b rest (input_disable_update w)
                heap 0%nat)
      as (Ht & Hpt & Hcp1 & Hok1 & Hf1 & Hhist1 & Hdu1);
      try assumption.
    cbv zeta in Ht, Hpt, Hcp1, Hok1, Hf1, Hhist1, Hdu1.
    revert Ht Hpt Hcp1 Hok1 Hf1 Hhist1 Hdu1.
    generalize (@input_insert_loop str_8bit keymap (input_disable_update w)
                  (b :: rest) heap 0).
    intros v Ht Hpt Hcp1 Hok1 Hf1 Hhist1 Hdu1.
    destruct (input_insert_finish w v Hok1 Hdu1)
      as (Gt & Gp & Gcp & Gok & Ghist & Gdu & Gf).
    split; [rewrite Gt; exact Ht|]. split; [rewrite Gp; exact Hpt|].
    split; [rewrite Gcp; exact Hcp1|]. split; [exact Gok|].
    split; [exact (Gf Hf1)|].
    split; [rewrite Ghist; exact Hhist1|exact Gdu].
  - intros ->. cbn [input_insert_loop].
    destruct (input_insert_finish w (input_disable_update w))
      as (Gt & Gp & _ & _ & Ghist & Gdu & _); [exact Hok|reflexivity|].
    split; [exact Gt|]. split; [exact Gp|]. split; [exact Ghist|exact Gdu].
Qed.

End InsertText.

(** *** Walking the history, and the functions on the whole line *)

Section HistoryWalk.

Context {used_class : str_class}.

Variable list_append_unique : list (list byte) -> list byte -> list (list byte).

(** The history-previous command on a line that needs no push shows the
    next older entry. *)
Lemma history_previous_entry (w : WInput) (i : nat) (e : list byte) :
  need_push w = false -> h_current (history w) = Some i ->
  h_list (history w) !! S i = Some e ->
  x00 ∉ e -> 0 <= cols (widget w) ->
  let w' := mc_winput_cmd_history_previous list_append_unique w in
  text_of w' = e /\ point w' = str_length e
  /\ h_list (history w') = h_list (history w)
  /\ h_current (history w') = Some (S i)
  /\ h_changed (history w') = true
  /\ h_name (history w') = h_name (history w)
  /\ need_push w' = false /\ buffer_ok w'
  /\ widget w' = widget w.
Proof.
  intros Hnp Hcur Hent He Hcols w'.
  destruct (input_assign_text_fields w e Hcols He)
    as (Ht & Hp & _ & Hok & _ & _ & _ & Hhist & Hwid & _).
  unfold w', mc_winput_cmd_history_previous.
  destruct (h_list (history w)) as [|e0 l] eqn:Hl; [discriminate|].
  rewrite bool_decide_eq_false_2 by discriminate.
  rewrite Hnp, Hcur. unfold g_list_previous. rewrite Hl.
  rewrite bool_decide_eq_true_2 by (eapply lookup_lt_Some; exact Hent).
  rewrite Hent.
  revert Ht Hp Hok Hhist Hwid.
  generalize (input_assign_text w (Some e)). intros v Ht Hp Hok Hhist Hwid.
  unfold set_h_current. fields.
  cbn [h_list h_current h_changed h_name].
  rewrite Hhist, Hl.
  destruct Hok as [Hsz Hterm].
  split; [exact Ht|]. split; [exact Hp|]. do 5 (split; [reflexivity|]).
  split; [|exact Hwid].
  unfold buffer_ok. fields. split; [exact Hsz|exact Hterm].
Qed.

(** At the oldest entry the command changes nothing. *)
Lemma history_previous_oldest (w : WInput) (i : nat) :
  need_push w = false -> h_current (history w) = Some i ->
  (length (h_list (history w)) <= S i)%nat ->
  mc_winput_cmd_history_previous list_append_unique w = w.
Proof.
  intros Hnp Hcur Hlen. unfold mc_winput_cmd_history_previous.
  destruct (bool_decide _); [reflexivity|].
  rewrite Hnp, Hcur. unfold g_list_previous.
  now rewrite bool_decide_eq_false_2 by lia.
Qed.

(** The history-next command on a line that needs no push shows the next
    newer entry. *)
Lemma history_next_entry (w : WInput) (i : nat) (e : list byte) :
  need_push w = false -> h_current (history w) = Some (S i) ->
  h_list (history w) !! i = Some e ->
  x00 ∉ e -> 0 <= cols (widget w) ->
  let w' := mc_winput_cmd_history_next list_append_unique w in
  text_of w' = e /\ point w' = str_length e
  /\ h_list (history w') = h_list (history w)
  /\ h_current (history w') = Some i
  /\ h_changed (history w') = true
  /\ h_name (history w') = h_name (history w)
  /\ need_push w' = false /\ buffer_ok w'.
Proof.
  intros Hnp Hcur Hent He Hcols w'.
  destruct (input_assign_text_fields w e Hcols He)
    as (Ht & Hp & _ & Hok & _ & _ & _ & Hhist & Hwid & _).
  unfold w', mc_winput_cmd_history_next.
  destruct (h_list (history w)) as [|e0 l] eqn:Hl; [discriminate|].
  rewrite bool_decide_eq_false_2 by discriminate.
  rewrite Hnp, Hcur. unfold g_list_next.
  rewrite Hent.
  revert Ht Hp Hok Hhist Hwid.
  generalize (input_assign_text w (Some e)). intros v Ht Hp Hok Hhist Hwid.
  unfold set_h_current. fields.
  cbn [h_list h_current h_changed h_name].
  rewrite Hhist, Hl.
  destruct Hok as [Hsz Hterm].
  split; [exact Ht|]. split; [exact Hp|]. do 5 (split; [reflexivity|]).
  unfold buffer_ok. fields. split; [exact Hsz|exact Hterm].
Qed.

(** Going back one entry and forward again shows the entry the walk
    started from. *)
Lemma history_previous_next (w : WInput) (i : nat) (e0 e1 : list byte) :
  need_push w = false -> h_current (history w) = Some i ->
  h_list (history w) !! i = Some e0 -> h_list (history w) !! S i = Some e1 ->
  x00 ∉ e0 -> x00 ∉ e1 -> 0 <= cols (widget w) ->
  let w1 := mc_winput_cmd_history_previous list_append_unique w in
  let w2 := mc_winput_cmd_history_next list_append_unique w1 in
  text_of w1 = e1 /\ text_of w2 = e0
  /\ h_current (history w2) = h_current (history w)
  /\ h_list (history w2) = h_list (history w)
  /\ need_push w2 = false.
Proof.
  intros Hnp Hcur H0 H1 He0 He1 Hcols w1 w2.
  destruct (history_previous_entry w i e1 Hnp Hcur H1 He1 Hcols)
    as (Ht1 & _ & Hl1 & Hc1 & _ & _ & Hnp1 & _ & Hwid1).
  fold w1 in Ht1, Hl1, Hc1, Hnp1, Hwid1.
  destruct (history_next_entry w1 i e0 Hnp1 Hc1)
    as (Ht2 & _ & Hl2 & Hc2 & _ & _ & Hnp2 & _).
  - now rewrite Hl1.
  - exact He0.
  - now rewrite Hwid1.
  - fold w2 in Ht2, Hl2, Hc2, Hnp2.
    repeat split; congruence.
Qed.

(** On a line that was edited the history-next command offers the text to
    the history and empties the line. *)
Lemma history_next_edited (w : WInput) :
  need_push w = true -> 0 <= cols (widget w) ->
  let w' := mc_winput_cmd_history_next list_append_unique w in
  text_of w' = [] /\ point w' = str_length []
  /\ history w'
     = history (push_history list_append_unique w (Some (text_of w)))
  /\ need_push w' = true /\ buffer_ok w'.
Proof.
  intros Hnp Hcols w'. unfold w', mc_winput_cmd_history_next. rewrite Hnp.
  assert (Hwid : widget (push_history list_append_unique w (Some (text_of w)))
                 = widget w).
  { unfold push_history. destruct (_ || _); reflexivity. }
  revert Hwid.
  generalize (push_history list_append_unique w (Some (text_of w))).
  intros v Hwid.
  destruct (input_assign_text_fields v [])
    as (Ht & Hp & _ & Hok & _ & Hnp' & _ & Hhist & _).
  - now rewrite Hwid.
  - apply not_elem_of_nil.
  - revert Ht Hp Hok Hnp' Hhist.
    generalize (input_assign_text v (Some [])). intros v' Ht Hp Hok Hnp' Hhist.
    destruct Hok as [Hsz Hterm].
    split; [exact Ht|]. split; [exact Hp|]. split; [exact Hhist|].
    split; [exact Hnp'|]. split; [exact Hsz|exact Hterm].
Qed.

(** At the newest entry the history-next command empties the line, keeps
    the history, and leaves the line marked as to be pushed. *)
Lemma history_next_newest (w : WInput) :
  need_push w = false -> h_list (history w) <> [] ->
  h_current (history w) = Some 0%nat \/ h_current (history w) = None ->
  0 <= cols (widget w) ->
  let w' := mc_winput_cmd_history_next list_append_unique w in
  text_of w' = []
  /\ h_list (history w') = h_list (history w)
  /\ h_current (history w') = Some 0%nat
  /\ h_changed (history w') = h_changed (history w)
  /\ need_push w' = true.
Proof.
  intros Hnp Hl Hcur Hcols w'.
  destruct (input_assign_text_fields w [] Hcols)
    as (Ht & _ & _ & _ & _ & Hnp' & _ & Hhist & _);
    [apply not_elem_of_nil|].
  unfold w', mc_winput_cmd_history_next. rewrite Hnp.
  rewrite bool_decide_eq_false_2 by exact Hl.
  assert (Hn : g_list_next (h_list (history w)) (h_current (history w)) = None)
    by (destruct Hcur as [-> | ->]; reflexivity).
  rewrite Hn.
  revert Ht Hnp' Hhist.
  generalize (input_assign_text w (Some [])). intros v Ht Hnp' Hhist.
  unfold set_h_current. fields.
  cbn [h_list h_current h_changed]. rewrite Hhist.
  destruct (h_list (history w)); [congruence|].
  split; [exact Ht|]. do 3 (split; [reflexivity|]). exact Hnp'.
Qed.

End HistoryWalk.

Section Lines.

Context {used_class : str_class}.

(** [input_set_point] never puts point behind the text. *)
Lemma input_set_point_fields (w : WInput) (pos : Z) :
  let w' := input_set_point w pos in
  point w' = Z.min pos (str_length (text_of w))
  /\ point w' <= str_length (text_of w')
  /\ text_of w' = text_of w /\ charpoint w' = 0
  /\ completions w'
     = (if Z.min pos (str_length (text_of w)) =? point w then completions w
        else None)
  /\ highlight w' = highlight w /\ need_push w' = need_push w
  /\ history w' = history w.
Proof.
  intros w'. unfold w', input_set_point.
  set (v := set_charpoint 0 _).
  destruct (input_update_fields v true)
    as (Eb & Ep & Eh & _ & _ & Ecp & Ehist & Enp & _ & _ & _ & _ & Ec).
  unfold text_of. rewrite Eb, Ep, Ecp, Eh, Ehist, Enp, Ec.
  unfold v, input_free_completions.
  destruct (Z.eqb_spec (Z.min pos (str_length (text_of w))) (point w));
    cbn [negb]; fields; repeat split; try reflexivity; try lia.
  - now rewrite (proj2 (Z.eqb_eq _ _)) by assumption.
  - now rewrite (proj2 (Z.eqb_neq _ _)) by assumption.
Qed.

Lemma wr_0_text (a : list byte) : a <> [] -> c_str (wr a 0 x00) = [].
Proof.
  destruct a as [|b a]; [congruence|]. intros _. cbn.
  now destruct (decide (x00 = x00)).
Qed.

Lemma buffer_ok_not_nil (w : WInput) : buffer_ok w -> buffer w <> [].
Proof.
  intros [_ Ht] E. unfold terminated, strlen in Ht. rewrite E in Ht.
  simpl in Ht. lia.
Qed.

(** [input_clean] offers the text to the history and empties the line. *)
Lemma input_clean_fields
    (list_append_unique : list (list byte) -> list byte -> list (list byte))
    (w : WInput) :
  buffer_ok w ->
  let w' := input_clean list_append_unique w in
  text_of w' = [] /\ point w' = 0 /\ charpoint w' = 0
  /\ highlight w' = false /\ need_push w' = true /\ completions w' = None
  /\ history w'
     = history (push_history list_append_unique w (Some (text_of w)))
  /\ buffer_ok w'.
Proof.
  intros Hok w'. unfold w', input_clean.
  set (v := push_history list_append_unique w (Some (text_of w))).
  assert (Hv : buffer v = buffer w /\ current_max_size v = current_max_size w).
  { unfold v, push_history. destruct (_ || _); split; reflexivity. }
  destruct Hv as [Hb Hm].
  set (v1 := input_free_completions _).
  destruct (input_update_fields v1 false)
    as (Eb & Ep & Eh & Em & _ & Ecp & Ehist & Enp & _ & _ & _ & _ & Ec).
  pose proof (buffer_ok_not_nil w Hok) as Hne.
  assert (Hc : c_str (buffer v1) = []).
  { unfold v1, input_free_completions. fields. rewrite Hb.
    now apply wr_0_text. }
  unfold text_of, buffer_ok, terminated, strlen.
  rewrite Eb, Ep, Eh, Em, Ecp, Ehist, Enp, Ec, Hc.
  unfold v1, input_free_completions. fields.
  rewrite length_wr, Hb, Hm.
  destruct Hok as [Hsz _].
  repeat split; try assumption.
  destruct (buffer w); [congruence|simpl; lia].
Qed.

(** The clear command empties the line and leaves the history alone. *)
Lemma clear_all_fields (w : WInput) :
  buffer_ok w ->
  let w' := mc_winput_cmd_clear_all w in
  text_of w' = [] /\ point w' = 0 /\ mark w' = 0 /\ charpoint w' = 0
  /\ highlight w' = false /\ need_push w' = true
  /\ history w' = history w /\ completions w' = completions w
  /\ first w' = first w /\ buffer_ok w'.
Proof.
  intros Hok w'. pose proof (buffer_ok_not_nil w Hok) as Hne.
  unfold w', mc_winput_cmd_clear_all, text_of, buffer_ok, terminated, strlen.
  fields. rewrite wr_0_text, length_wr by exact Hne.
  destruct Hok as [Hsz _].
  repeat split; try assumption.
  destruct (buffer w); [congruence|simpl; lia].
Qed.

Lemma input_assign_text_no_owner (w : WInput) (text : option (list byte)) :
  owner (widget w) = None ->
  first (input_assign_text w text) = first w
  /\ mark (input_assign_text w text) = 0
  /\ completions (input_assign_text w text) = None
  /\ term_first_shown (input_assign_text w text) = term_first_shown w
  /\ is_highlight_cmd (input_assign_text w text) = is_highlight_cmd w.
Proof.
  intros Hown. unfold input_assign_text.
  rewrite input_update_disabled.
  - unfold input_free_completions. fields.
    destruct (_ <? _); fields; repeat split.
  - right. unfold input_free_completions. fields.
    destruct (_ <? _); fields; exact Hown.
Qed.

(** What [input_new] makes. *)
Lemma input_new_fields (width : Z) (def_text histname : option (list byte)) :
  0 <= width -> x00 ∉ default [] def_text ->
  let text := default [] def_text in
  let w := input_new width def_text histname in
  text_of w = text /\ point w = str_length text /\ mark w = 0
  /\ buffer_ok w /\ assembler_ok w /\ charpoint w = 0
  /\ current_max_size w = 1 + Z.max width (Z.of_nat (length text))
  /\ highlight w = false /\ first w = true /\ need_push w = true
  /\ disable_update w = 0 /\ strip_password w = false
  /\ completions w = None
  /\ h_list (history w) = [] /\ h_changed (history w) = false
  /\ (h_name (history w) = None <-> (histname = None \/ histname = Some []))
  /\ cols (widget w) = width /\ owner (widget w) = None.
Proof.
  intros Hw Htext text w. unfold w, input_new.
  set (v := {| widget := _ |}).
  destruct (input_assign_text_fields v text Hw Htext)
    as (Ht & Hp & Hm & Hok & Hcp & Hnp & Hh & Hhist & Hwid & Hcb & Hsp & Hdu).
  destruct (input_assign_text_no_owner v (Some text) eq_refl)
    as (Hf & Hmk & Hc & _).
  fold text.
  split; [exact Ht|]. split; [exact Hp|]. split; [exact Hmk|].
  split; [exact Hok|].
  split.
  { unfold assembler_ok. rewrite Hcb, Hcp, Hwid. cbn.
    repeat split; lia. }
  split; [exact Hcp|].
  split; [exact Hm|]. split; [exact Hh|]. split; [exact Hf|].
  split; [exact Hnp|]. split; [exact Hdu|]. split; [exact Hsp|].
  split; [exact Hc|].
  rewrite Hhist, Hwid. cbn.
  repeat split; try reflexivity.
  - destruct histname as [[|b n]|]; intros E; try discriminate; auto.
  - intros [-> | ->]; reflexivity.
Qed.

End Lines.

(** *** Moving by characters and by words *)

Section Reading.

Implicit Types a : list byte.

Lemma leading_le f (l : list byte) : (leading f l <= length l)%nat.
Proof. induction l as [|b l IH]; simpl; [lia|]. destruct (f b); lia. Qed.

Lemma rd_text a (p : nat) (b : byte) :
  c_str a !! p = Some b -> rd a (Z.of_nat p) = b /\ b <> x00.
Proof.
  intros Hb. rewrite rd_nat.
  assert (Ha : a !! p = Some b).
  { revert p Hb. induction a as [|y a IH]; intros p Hb; [discriminate|].
    cbn [c_str] in Hb. destruct (decide (y = x00)); [discriminate|].
    destruct p as [|p]; [exact Hb|]. apply IH, Hb. }
  rewrite Ha. split; [reflexivity|].
  intros ->. apply (c_str_no_nul a). eapply list_elem_of_lookup_2, Hb.
Qed.

Lemma rd_end a : terminated a -> rd a (strlen a) = x00.
Proof.
  intros Ht. destruct (terminated_split a Ht) as [r Hr].
  unfold strlen. rewrite rd_nat.
  replace (a !! length (c_str a))
    with ((c_str a ++ x00 :: r) !! length (c_str a)) by (now rewrite <- Hr).
  rewrite lookup_app_r by lia. now rewrite Nat.sub_diag.
Qed.

Lemma text_at_drop (w : WInput) (p : Z) :
  0 <= p <= strlen (buffer w) ->
  text_at w p = drop (Z.to_nat p) (text_of w).
Proof.
  intros Hp. unfold text_at, text_of. apply c_str_drop.
  unfold strlen in Hp. lia.
Qed.

Lemma set_point_id (w : WInput) : set_point (point w) w = w.
Proof. now destruct w. Qed.

End Reading.

Section CharMotion.

(** One character forward and back again, in a single-byte locale. *)
Lemma forward_char_8bit (w : WInput) :
  buffer_ok w -> 0 <= point w <= strlen (buffer w) ->
  let w' := @mc_winput_cmd_forward_char str_8bit w in
  point w' = (if point w <? strlen (buffer w) then point w + 1 else point w)
  /\ buffer w' = buffer w /\ charpoint w' = 0
  /\ mark w' = mark w /\ highlight w' = highlight w
  /\ need_push w' = need_push w.
Proof.
  intros [_ Hterm] Hp w'. unfold w', mc_winput_cmd_forward_char.
  cbn [str_offset_to_pos str_8bit].
  destruct (Z.ltb_spec (point w) (strlen (buffer w))) as [Hlt|Hge].
  - destruct (lookup_lt_is_Some_2 (c_str (buffer w)) (Z.to_nat (point w)))
      as [b Hb]; [unfold strlen in Hlt; lia|].
    destruct (rd_text _ _ _ Hb) as [Hrd Hne].
    rewrite Z2Nat.id in Hrd by lia.
    rewrite bool_decide_eq_false_2 by (rewrite Hrd; exact Hne).
    cbn [negb]. rewrite text_at_drop by lia.
    unfold text_of. rewrite (drop_S _ _ _ Hb).
    cbn [str_cnext_noncomb_char str_8bit]. fields. repeat split.
  - assert (E : point w = strlen (buffer w)) by lia.
    rewrite E, rd_end by exact Hterm.
    rewrite bool_decide_eq_true_2 by reflexivity. cbn [negb]. fields.
    repeat split. exact E.
Qed.

Lemma backward_char_8bit (w : WInput) :
  let w' := @mc_winput_cmd_backward_char str_8bit w in
  point w' = (if 0 <? point w then point w - 1 else point w)
  /\ buffer w' = buffer w /\ charpoint w' = 0
  /\ mark w' = mark w /\ highlight w' = highlight w
  /\ need_push w' = need_push w.
Proof.
  intros w'. unfold w', mc_winput_cmd_backward_char.
  cbn [str_offset_to_pos str_cprev_noncomb_char str_8bit].
  destruct (0 <? point w); fields; repeat split.
Qed.

Lemma forward_backward_char_8bit (w : WInput) :
  buffer_ok w -> 0 <= point w <= strlen (buffer w) ->
  let fwd := @mc_winput_cmd_forward_char str_8bit in
  let bwd := @mc_winput_cmd_backward_char str_8bit in
  (point w < strlen (buffer w) ->
   point (bwd (fwd w)) = point w /\ buffer (bwd (fwd w)) = buffer w)
  /\ (0 < point w ->
      point (fwd (bwd w)) = point w /\ buffer (fwd (bwd w)) = buffer w)
  /\ (point w = strlen (buffer w) -> point (fwd w) = point w)
  /\ (point w = 0 -> point (bwd w) = point w).
Proof.
  intros Hok Hp fwd bwd.
  destruct (forward_char_8bit w Hok Hp) as (Fp & Fb & _).
  destruct (backward_char_8bit w) as (Bp & Bb & _).
  fold (fwd w) in Fp, Fb. fold (bwd w) in Bp, Bb.
  split; [|split; [|split]].
  - intros Hlt.
    destruct (backward_char_8bit (fwd w)) as (Bp' & Bb' & _).
    fold (bwd (fwd w)) in Bp', Bb'.
    rewrite Bp', Bb', Fp, Fb.
    destruct (Z.ltb_spec (point w) (strlen (buffer w))); [|lia].
    destruct (Z.ltb_spec 0 (point w + 1)); [|lia].
    split; [lia|reflexivity].
  - intros Hgt.
    assert (Hok' : buffer_ok (bwd w)).
    { unfold bwd, mc_winput_cmd_backward_char.
      destruct (0 <? point w); exact Hok. }
    assert (Hp' : 0 <= point (bwd w) <= strlen (buffer (bwd w))).
    { rewrite Bp, Bb. destruct (0 <? point w); lia. }
    destruct (forward_char_8bit (bwd w) Hok' Hp') as (Fp' & Fb' & _).
    fold (fwd (bwd w)) in Fp', Fb'.
    rewrite Fp', Fb', Bp, Bb.
    destruct (Z.ltb_spec 0 (point w)); [|lia].
    destruct (Z.ltb_spec (point w - 1) (strlen (buffer w))); [|lia].
    split; [lia|reflexivity].
  - intros E. rewrite Fp.
    destruct (Z.ltb_spec (point w) (strlen (buffer w))); [lia|reflexivity].
  - intros E. rewrite Bp.
    destruct (Z.ltb_spec 0 (point w)); [lia|reflexivity].
Qed.

End CharMotion.

Section ForwardWord.

Variables isspace ispunct : byte -> bool.

Let words : str_word_class := str_8bit_word isspace ispunct.
Let sep : byte -> bool := separator_byte isspace ispunct.

Lemma is_separator_8bit (w : WInput) (p : nat) (b : byte) :
  text_of w !! p = Some b ->
  @is_separator words w (Z.of_nat p) = sep b.
Proof.
  intros Hb. unfold is_separator.
  rewrite text_at_drop
    by (unfold strlen; apply lookup_lt_Some in Hb; unfold text_of in Hb; lia).
  rewrite Nat2Z.id, (drop_S _ _ _ Hb). reflexivity.
Qed.

(** One loop of the forward-word command steps over the leading bytes of
    one kind. *)
Lemma forward_word_loop_8bit (skip : bool) :
  forall (rounds : nat) (p : nat) (w : WInput),
    terminated (buffer w) -> (p <= length (text_of w))%nat ->
    let n := leading (fun b => eqb (sep b) skip) (drop p (text_of w)) in
    (n <= rounds)%nat ->
    @forward_word_loop words rounds skip (Z.of_nat p) w
    = (Z.of_nat (p + n), set_point (point w + Z.of_nat n) w).
Proof.
  induction rounds as [|rounds IH]; intros p w Hterm Hp n Hn.
  - assert (n = 0%nat) as -> by lia.
    cbn [forward_word_loop]. rewrite Nat.add_0_r, Z.add_0_r, set_point_id.
    reflexivity.
  - cbn [forward_word_loop].
    destruct (text_of w !! p) as [b|] eqn:Hb.
    + destruct (rd_text (buffer w) p b Hb) as [Hrd Hne].
      rewrite Hrd, bool_decide_eq_false_2 by exact Hne. cbn [negb andb].
      rewrite (is_separator_8bit w p b Hb).
      unfold n. unfold text_of in Hb |- *. rewrite (drop_S _ _ _ Hb).
      cbn [leading].
      destruct (eqb (sep b) skip) eqn:Hs.
      * cbn [str_cnext_char str_8bit_word words].
        replace (Z.of_nat p + 1) with (Z.of_nat (S p)) by lia.
        rewrite IH.
        -- fields. f_equal; [lia|].
           unfold set_point. fields. f_equal. lia.
        -- exact Hterm.
        -- apply lookup_lt_Some in Hb. unfold text_of. fields. lia.
        -- fields. unfold n in Hn. unfold text_of in Hn.
           rewrite (drop_S _ _ _ Hb) in Hn. cbn [leading] in Hn.
           rewrite Hs in Hn. lia.
      * rewrite Nat.add_0_r, Z.add_0_r, set_point_id. reflexivity.
    + apply lookup_ge_None in Hb.
      assert (E : p = length (text_of w)) by lia.
      assert (Hrd : rd (buffer w) (Z.of_nat p) = x00).
      { rewrite E. apply (rd_end _ Hterm). }
      rewrite Hrd, bool_decide_eq_true_2 by reflexivity. cbn [negb andb].
      unfold n. rewrite drop_ge by lia. cbn [leading].
      rewrite Nat.add_0_r, Z.add_0_r, set_point_id. reflexivity.
Qed.

(** The forward-word command steps over the separators at point and then
    over the word behind them. *)
Lemma forward_word_8bit (w : WInput) :
  buffer_ok w -> 0 <= point w <= strlen (buffer w) ->
  let rest := drop (Z.to_nat (point w)) (text_of w) in
  let n1 := leading sep rest in
  let n2 := leading (fun b => negb (sep b)) (drop n1 rest) in
  @mc_winput_cmd_forward_word str_8bit words w
  = set_point (point w + Z.of_nat (n1 + n2)) w.
Proof.
  intros [Hsz Hterm] Hp rest n1 n2.
  unfold mc_winput_cmd_forward_word. cbn [str_offset_to_pos str_8bit].
  assert (Hlen : (length (text_of w) < length (buffer w))%nat).
  { unfold terminated, strlen in Hterm. unfold text_of. lia. }
  assert (E1 : leading (fun b => eqb (sep b) true) rest = n1).
  { unfold n1. generalize rest. intros l.
    induction l as [|b l IH]; simpl; [reflexivity|].
    destruct (sep b); simpl; [now rewrite IH|reflexivity]. }
  assert (E2 : forall l, leading (fun b => eqb (sep b) false) l
                         = leading (fun b => negb (sep b)) l).
  { intros l. induction l as [|b l IH]; simpl; [reflexivity|].
    destruct (sep b); simpl; [reflexivity|now rewrite IH]. }
  pose proof (leading_le sep rest) as L1.
  pose proof (leading_le (fun b => negb (sep b)) (drop n1 rest)) as L2.
  assert (Hrest : length rest = (length (text_of w) - Z.to_nat (point w))%nat)
    by (unfold rest; apply length_drop).
  rewrite length_drop in L2. fold n1 in L1, L2. fold n2 in L2.
  rewrite <- (Z2Nat.id (point w)) at 1 by lia.
  rewrite (forward_word_loop_8bit true (length (buffer w)) _ w Hterm)
    by (fold rest; rewrite ?E1; unfold strlen in Hp; unfold text_of in *; lia).
  fold rest. rewrite E1.
  cbv iota beta.
  rewrite (forward_word_loop_8bit false).
  - fields. fold (text_of w). rewrite <- drop_drop. fold rest.
    rewrite E2. unfold set_point. fields. f_equal. unfold n2, rest. lia.
  - exact Hterm.
  - fields. fold (text_of w). unfold strlen in Hp. unfold text_of in *. lia.
  - fields. rewrite <- drop_drop, E2. unfold n2, rest in *. lia.
Qed.

End ForwardWord.

Section BackwardWord.

Variables isspace ispunct : byte -> bool.

Let words : str_word_class := str_8bit_word isspace ispunct.
Let sep : byte -> bool := separator_byte isspace ispunct.

Lemma valid_offset_8bit (w : WInput) (n : Z) :
  0 <= n <= strlen (buffer w) -> @valid_offset str_8bit w n.
Proof. intros H. exact H. Qed.

(** The kill-word command deletes from point to where the forward-word
    command would go. *)
Lemma kill_word_8bit (w : WInput) :
  buffer_ok w -> 0 <= point w <= strlen (buffer w) ->
  let rest := drop (Z.to_nat (point w)) (text_of w) in
  let n1 := leading sep rest in
  let n2 := leading (fun b => negb (sep b)) (drop n1 rest) in
  let w' := @mc_winput_cmd_kill_word str_8bit words w in
  text_of w'
  = take (Z.to_nat (point w)) (text_of w)
    ++ drop (Z.to_nat (point w) + n1 + n2) (text_of w)
  /\ point w' = point w /\ highlight w' = false
  /\ need_push w' = true /\ charpoint w' = 0 /\ buffer_ok w'.
Proof.
  intros Hok Hp rest n1 n2 w'.
  pose proof (forward_word_8bit isspace ispunct w Hok Hp) as Hfw.
  cbv zeta in Hfw. fold words sep rest in Hfw. fold n1 in Hfw. fold n2 in Hfw.
  pose proof (leading_le sep rest) as L1.
  pose proof (leading_le (fun b => negb (sep b)) (drop n1 rest)) as L2.
  rewrite length_drop in L2. fold n1 in L1, L2. fold n2 in L2.
  assert (Hrest : length rest = (length (text_of w) - Z.to_nat (point w))%nat)
    by (unfold rest; apply length_drop).
  set (new := point w + Z.of_nat (n1 + n2)) in *.
  assert (Hnew : point w <= new <= strlen (buffer w)).
  { unfold new, strlen in *. unfold text_of in *. lia. }
  set (v := set_point (point w) (set_point new w)).
  assert (Hokv : buffer_ok v) by exact Hok.
  destruct (@delete_region_text str_8bit v (point w) new Hokv
              (str_8bit_text_ok _))
    as (Ht & Hh & Hpt & Hok').
  { apply valid_offset_8bit. exact Hp. }
  { apply valid_offset_8bit. change (buffer v) with (buffer w). lia. }
  cbn [str_offset_to_pos str_8bit] in Ht. cbv zeta in Ht, Hh, Hpt, Hok'.
  rewrite Z.min_l in Ht, Hpt by lia. rewrite Z.max_r in Ht by lia.
  change (text_of v) with (text_of w) in Ht.
  assert (Hrun : w' = set_charpoint 0
                        (set_need_push true
                           (@delete_region str_8bit v (point w) new))).
  { unfold w', mc_winput_cmd_kill_word. fold words. rewrite Hfw. reflexivity. }
  rewrite Hrun. clear Hrun.
  revert Ht Hh Hpt Hok'.
  generalize (@delete_region str_8bit v (point w) new).
  intros d Ht Hh Hpt Hok'. fields.
  split. { rewrite Ht. unfold new. do 2 f_equal. lia. }
  split; [exact Hpt|]. split; [exact Hh|]. split; [reflexivity|].
  split; [reflexivity|]. exact Hok'.
Qed.

Lemma backward_word_rewind_8bit (rounds : nat) (w : WInput) (p : Z) :
  terminated (buffer w) -> 0 <= p <= strlen (buffer w) -> (1 <= rounds)%nat ->
  let p1 := backward_word_start (text_of w) p in
  @backward_word_rewind words rounds p w
  = (p1, set_point (point w - (p - p1)) w).
Proof.
  intros Hterm Hp Hr p1. unfold p1, backward_word_start.
  destruct rounds as [|rounds]; [lia|]. cbn [backward_word_rewind].
  destruct (Z.eqb_spec p 0) as [E0|Hne].
  - rewrite andb_false_r. cbn [negb andb].
    rewrite Z.sub_diag, Z.sub_0_r, set_point_id. reflexivity.
  - cbn [negb andb].
    destruct (Z.eqb_spec p (Z.of_nat (length (text_of w)))) as [Eend|Hmid].
    + assert (Hrd : rd (buffer w) p = x00).
      { rewrite Eend. apply (rd_end _ Hterm). }
      rewrite bool_decide_eq_true_2 by exact Hrd. cbn [andb].
      cbn [str_cprev_char str_8bit_word words].
      assert (Hstop : forall v, buffer v = buffer w ->
                @backward_word_rewind words rounds (p - 1) v = (p - 1, v)).
      { intros v Hv. destruct rounds as [|rounds']; [reflexivity|].
        cbn [backward_word_rewind].
        destruct (lookup_lt_is_Some_2 (c_str (buffer w)) (Z.to_nat (p - 1)))
          as [b Hb]; [unfold text_of in Eend; lia|].
        destruct (rd_text _ _ _ Hb) as [Hrd' Hnb].
        rewrite Z2Nat.id in Hrd' by lia.
        rewrite Hv, Hrd', (bool_decide_eq_false_2 _ Hnb).
        now rewrite andb_false_r. }
      rewrite Hstop by reflexivity. f_equal. f_equal. lia.
    + destruct (lookup_lt_is_Some_2 (c_str (buffer w)) (Z.to_nat p))
        as [b Hb]; [unfold strlen, text_of in *; lia|].
      destruct (rd_text _ _ _ Hb) as [Hrd Hnb].
      rewrite Z2Nat.id in Hrd by lia.
      rewrite Hrd, (bool_decide_eq_false_2 _ Hnb). cbn [andb].
      rewrite Z.sub_diag, Z.sub_0_r, set_point_id. reflexivity.
Qed.

Lemma text_at_byte (w : WInput) (q : nat) (b : byte) :
  text_of w !! q = Some b ->
  exists l, text_at w (Z.of_nat q) = b :: l.
Proof.
  intros Hb. exists (drop (S q) (text_of w)).
  rewrite text_at_drop
    by (unfold strlen; apply lookup_lt_Some in Hb; unfold text_of in Hb; lia).
  rewrite Nat2Z.id. apply drop_S, Hb.
Qed.

Lemma backward_word_separators_8bit :
  forall (rounds p : nat) (w : WInput),
    (p <= length (text_of w))%nat ->
    let n := leading sep (reverse (take p (text_of w))) in
    (n <= rounds)%nat ->
    @backward_word_separators words rounds (Z.of_nat p) w
    = (Z.of_nat (p - n), set_point (point w - Z.of_nat n) w).
Proof.
  induction rounds as [|rounds IH]; intros p w Hp n Hn.
  - assert (n = 0%nat) as -> by lia. cbn [backward_word_separators].
    rewrite Nat.sub_0_r, Z.sub_0_r, set_point_id. reflexivity.
  - cbn [backward_word_separators].
    destruct p as [|q].
    + cbn [Z.of_nat Z.eqb negb]. unfold n. rewrite take_0. cbn.
      rewrite Z.sub_0_r, set_point_id. reflexivity.
    + destruct (Z.eqb_spec (Z.of_nat (S q)) 0) as [E|_]; [lia|]. cbn [negb].
      cbn [str_cprev_char str_8bit_word words].
      replace (Z.of_nat (S q) - 1) with (Z.of_nat q) by lia.
      destruct (lookup_lt_is_Some_2 (text_of w) q) as [b Hb]; [lia|].
      destruct (text_at_byte w q b Hb) as [l Hl]. rewrite Hl.
      cbn [str_isspace str_ispunct str_8bit_word words].
      unfold n. rewrite (take_S_r _ _ _ Hb), reverse_snoc. cbn [leading].
      unfold n in Hn. rewrite (take_S_r _ _ _ Hb), reverse_snoc in Hn.
      cbn [leading] in Hn.
      change (isspace b || ispunct b) with (sep b) in *.
      rewrite <- negb_orb. change (isspace b || ispunct b) with (sep b).
      destruct (sep b) eqn:Hs; cbn [negb].
      * rewrite IH;
          change (text_of (set_point (point w - 1) w)) with (text_of w);
          [|lia|lia].
        f_equal.
        unfold set_point. fields. f_equal. lia.
      * rewrite Nat.sub_0_r, Z.sub_0_r, set_point_id. reflexivity.
Qed.

Lemma backward_word_word_8bit :
  forall (rounds p : nat) (w : WInput),
    (p <= length (text_of w))%nat ->
    let n := leading (fun b => negb (sep b)) (reverse (take p (text_of w))) in
    (n <= rounds)%nat ->
    snd (@backward_word_word words rounds (Z.of_nat p) w)
    = set_point (point w - Z.of_nat n) w.
Proof.
  induction rounds as [|rounds IH]; intros p w Hp n Hn.
  - assert (n = 0%nat) as -> by lia. cbn [backward_word_word snd].
    rewrite Z.sub_0_r, set_point_id. reflexivity.
  - cbn [backward_word_word].
    destruct p as [|q].
    + cbn [Z.of_nat Z.eqb negb snd]. unfold n. rewrite take_0. cbn.
      rewrite Z.sub_0_r, set_point_id. reflexivity.
    + destruct (Z.eqb_spec (Z.of_nat (S q)) 0) as [E|_]; [lia|]. cbn [negb].
      cbn [str_cprev_char str_8bit_word words].
      replace (Z.of_nat (S q) - 1) with (Z.of_nat q) by lia.
      destruct (lookup_lt_is_Some_2 (text_of w) q) as [b Hb]; [lia|].
      destruct (text_at_byte w q b Hb) as [l Hl]. rewrite Hl.
      cbn [str_isspace str_ispunct str_8bit_word words].
      unfold n. rewrite (take_S_r _ _ _ Hb), reverse_snoc. cbn [leading].
      unfold n in Hn. rewrite (take_S_r _ _ _ Hb), reverse_snoc in Hn.
      cbn [leading] in Hn.
      change (isspace b || ispunct b) with (sep b) in *.
      destruct (sep b) eqn:Hs; cbn [negb snd].
      * rewrite Z.sub_0_r, set_point_id. reflexivity.
      * cbn [negb] in Hn.
        rewrite IH;
          change (text_of (set_point (point w - 1) w)) with (text_of w);
          [|lia|lia].
        unfold set_point. fields. f_equal. lia.
Qed.

(** The backward-word command steps back over the separators before point
    and then over the word before them; from the end of a text it first
    steps over the last character, whatever it is. *)
Lemma backward_word_8bit (w : WInput) :
  buffer_ok w -> 0 <= point w <= strlen (buffer w) ->
  let p1 := Z.to_nat (backward_word_start (text_of w) (point w)) in
  let n1 := leading sep (reverse (take p1 (text_of w))) in
  let n2 :=
    leading (fun b => negb (sep b)) (reverse (take (p1 - n1) (text_of w))) in
  @mc_winput_cmd_backward_word str_8bit words w
  = set_point (Z.of_nat (p1 - n1 - n2)) w.
Proof.
  intros [Hsz Hterm] Hp p1 n1 n2.
  unfold mc_winput_cmd_backward_word. cbn [str_offset_to_pos str_8bit].
  assert (Hlen : (length (text_of w) < length (buffer w))%nat).
  { unfold terminated, strlen in Hterm. unfold text_of. lia. }
  assert (Hstart : 0 <= backward_word_start (text_of w) (point w) <= point w
                   /\ point w - 1 <= backward_word_start (text_of w) (point w)).
  { unfold backward_word_start.
    destruct (Z.eqb_spec (point w) (Z.of_nat (length (text_of w))));
      destruct (Z.eqb_spec (point w) 0); cbn [negb andb]; lia. }
  rewrite (backward_word_rewind_8bit _ w (point w) Hterm Hp) by lia.
  cbv iota beta.
  set (w1 := set_point _ w).
  assert (Hp1 : (p1 <= length (text_of w1))%nat).
  { unfold w1, p1. fields. unfold strlen in Hp. lia. }
  pose proof (leading_le sep (reverse (take p1 (text_of w)))) as L1.
  rewrite length_reverse, length_take in L1. fold n1 in L1.
  pose proof (leading_le (fun b => negb (sep b))
                (reverse (take (p1 - n1) (text_of w)))) as L2.
  rewrite length_reverse, length_take in L2. fold n2 in L2.
  replace (backward_word_start (text_of w) (point w)) with (Z.of_nat p1)
    by (unfold p1; lia).
  rewrite (backward_word_separators_8bit _ p1 w1 Hp1)
    by (change (text_of w1) with (text_of w); fold n1;
        change (buffer w1) with (buffer w); lia).
  cbv iota beta. change (text_of w1) with (text_of w). fold n1.
  set (w2 := set_point _ w1).
  pose proof (backward_word_word_8bit (S (length (buffer w2))) (p1 - n1) w2)
    as Hword.
  change (text_of w2) with (text_of w) in Hword. fold n2 in Hword.
  cbv zeta in Hword.
  destruct (@backward_word_word words (S (length (buffer w2)))
              (Z.of_nat (p1 - n1)) w2) as [p3 w3].
  cbn [snd] in Hword. rewrite Hword.
  - unfold w2, w1, set_point. fields. f_equal. unfold p1 in *. lia.
  - unfold p1 in *. unfold strlen in Hp. unfold text_of in *. lia.
  - change (buffer w2) with (buffer w). lia.
Qed.

(** The backward-kill-word command deletes from where the backward-word
    command would go up to point. *)
Lemma back_kill_word_8bit (w : WInput) :
  buffer_ok w -> 0 <= point w <= strlen (buffer w) ->
  let p1 := Z.to_nat (backward_word_start (text_of w) (point w)) in
  let n1 := leading sep (reverse (take p1 (text_of w))) in
  let n2 :=
    leading (fun b => negb (sep b)) (reverse (take (p1 - n1) (text_of w))) in
  let w' := @mc_winput_cmd_back_kill_word str_8bit words w in
  text_of w'
  = take (p1 - n1 - n2) (text_of w) ++ drop (Z.to_nat (point w)) (text_of w)
  /\ point w' = Z.of_nat (p1 - n1 - n2) /\ highlight w' = false
  /\ need_push w' = true /\ buffer_ok w'.
Proof.
  intros Hok Hp p1 n1 n2 w'.
  pose proof (backward_word_8bit w Hok Hp) as Hbw.
  cbv zeta in Hbw. fold words sep in Hbw.
  fold p1 in Hbw. fold n1 in Hbw. fold n2 in Hbw.
  assert (Hstart : (p1 <= Z.to_nat (point w))%nat).
  { unfold p1, backward_word_start.
    destruct (Z.eqb_spec (point w) (Z.of_nat (length (text_of w))));
      destruct (Z.eqb_spec (point w) 0); cbn [negb andb]; lia. }
  set (new := Z.of_nat (p1 - n1 - n2)) in *.
  assert (Hnew : 0 <= new <= point w) by (unfold new; lia).
  set (v := set_point (point w) (set_point new w)).
  assert (Hokv : buffer_ok v) by exact Hok.
  destruct (@delete_region_text str_8bit v (point w) new Hokv
              (str_8bit_text_ok _))
    as (Ht & Hh & Hpt & Hok').
  { apply valid_offset_8bit. exact Hp. }
  { apply valid_offset_8bit. change (buffer v) with (buffer w). lia. }
  cbn [str_offset_to_pos str_8bit] in Ht. cbv zeta in Ht, Hh, Hpt, Hok'.
  rewrite Z.min_r in Ht, Hpt by lia. rewrite Z.max_l in Ht by lia.
  change (text_of v) with (text_of w) in Ht.
  assert (Hrun : w' = set_need_push true
                        (@delete_region str_8bit v (point w) new)).
  { unfold w', mc_winput_cmd_back_kill_word. fold words. rewrite Hbw.
    reflexivity. }
  rewrite Hrun. clear Hrun.
  revert Ht Hh Hpt Hok'.
  generalize (@delete_region str_8bit v (point w) new).
  intros d Ht Hh Hpt Hok'. fields.
  split. { rewrite Ht. unfold new. now rewrite Nat2Z.id. }
  split; [exact Hpt|]. split; [exact Hh|]. split; [reflexivity|].
  exact Hok'.
Qed.

End BackwardWord.

(** *** The clipboard file *)

(** The paste command raises its two events and puts what the clipboard
    file holds in at point. *)
Lemma clipboard_paste_8bit (w : WInput) (g : process)
    (clip : option (list byte)) heap :
  let w' := fst (@mc_winput_cmd_clipboard_paste str_8bit w g clip heap) in
  let g' := snd (@mc_winput_cmd_clipboard_paste str_8bit w g clip heap) in
  kill_buffer g' = kill_buffer g
  /\ raised g'
     = raised g
       ++ [ {| ev_group := MCEVENT_GROUP_CORE;
               ev_name := "clipboard_file_from_ext_clip";
               ev_data := None |};
            {| ev_group := MCEVENT_GROUP_CORE;
               ev_name := "clipboard_text_from_file";
               ev_data := None |} ]
  /\ (clip = None -> w' = w)
  /\ (forall p,
        clip = Some p ->
        highlight w = false -> buffer_ok w -> assembler_ok w ->
        charpoint w = 0 -> 0 <= point w <= strlen (buffer w) ->
        x00 ∉ p -> xff ∉ p ->
        (forall j, heap j <> None)
        \/ strlen (buffer w) + Z.of_nat (length p) < current_max_size w ->
        text_of w'
        = take (Z.to_nat (point w)) (text_of w) ++ p
          ++ drop (Z.to_nat (point w)) (text_of w)
        /\ point w' = point w + Z.of_nat (length p)
        /\ buffer_ok w').
Proof.
  intros w' g'. unfold w', g', mc_winput_cmd_clipboard_paste.
  split; [now destruct clip|].
  split.
  { destruct clip; cbn [snd]; unfold mc_event_raise; cbn [raised];
      now rewrite <- app_assoc. }
  split; [now intros ->|].
  intros p -> Hh Hok Hasm Hcp Hp H0 Hf Hroom. cbn [fst].
  destruct (insert_chars_8bit p w heap 0%nat Hh Hok Hasm Hcp Hp H0 Hf Hroom)
    as (Ht & Hpt & _ & _ & Hok' & _).
  split; [exact Ht|]. split; [exact Hpt|exact Hok'].
Qed.

(** *** Extending a selection *)

Section ExtendSelection.

Context {used_class : str_class}.

Lemma input_update_mark_inside (w : WInput) (clear_first : bool) :
  mark w <= str_length (text_of w) ->
  mark (input_update w clear_first) = mark w.
Proof.
  intros Hm. unfold input_update.
  destruct (negb _); [reflexivity|].
  destruct (owner (widget w)) as [d|]; [|reflexivity].
  destruct (negb _); [reflexivity|].
  fields.
  destruct (_ || _); fields;
    [destruct (_ <? _)|]; destruct clear_first; fields; lia.
Qed.

Variable keymap : Z -> WInput -> option (WInput * bool).

(** A key bound to commands that leave a highlight command's flag set and
    the mark inside the text: the mark and the selection are kept. *)
Lemma input_handle_char_highlight_cmd (w w1 : WInput) (key : Z) (cc : bool)
    heap :
  keymap key w = Some (w1, cc) -> is_highlight_cmd w1 = true ->
  mark w1 <= str_length (text_of w1) ->
  let w' := snd (input_handle_char keymap w key heap) in
  mark w' = mark w1 /\ highlight w' = highlight w1
  /\ point w' = point w1 /\ buffer w' = buffer w1.
Proof.
  intros Hk Hi Hm w'.
  destruct (input_handle_char_flags keymap w key heap) as (_ & Hbound & _).
  destruct (Hbound w1 cc Hk) as (_ & Hb & Hp & Hh & _).
  fold w' in Hb, Hp, Hh. rewrite Hi, andb_true_r in Hh.
  split; [|split; [exact Hh|split; [exact Hp|exact Hb]]].
  unfold w', input_handle_char. rewrite Hk, Hi. cbn [negb snd].
  set (v := if negb cc then _ else _).
  assert (Hv : mark v = mark w1 /\ buffer v = buffer w1).
  { unfold v, input_free_completions. destruct cc; cbn [negb]; fields;
      split; reflexivity. }
  destruct Hv as [Hmv Hbv].
  assert (Hv2 : mark (if first v then input_update v true else v) = mark w1
                /\ buffer (if first v then input_update v true else v)
                   = buffer w1).
  { destruct (first v); [|split; assumption].
    destruct (input_update_fields v true) as (-> & _).
    rewrite input_update_mark_inside; [split; assumption|].
    unfold text_of. rewrite Hmv, Hbv. exact Hm. }
  destruct Hv2 as [Hm2 Hb2].
  rewrite input_update_mark_inside; [exact Hm2|].
  unfold text_of. rewrite Hm2, Hb2. exact Hm.
Qed.

End ExtendSelection.

Section ExtendSelectionLeft.

Variable keymap : Z -> WInput -> option (WInput * bool).

(** One key bound to the two commands that extend the selection by one
    character to the left, in a single-byte locale. *)
Lemma extend_left_8bit (w : WInput) (key : Z) heap :
  keymap key w
  = Some (@mc_winput_cmd_backward_char str_8bit
            (mc_winput_cmd_start_highlight w), false) ->
  1 <= point w <= strlen (buffer w) ->
  (highlight w = true -> mark w <= strlen (buffer w)) ->
  let w' := snd (@input_handle_char str_8bit keymap w key heap) in
  highlight w' = true
  /\ mark w' = (if highlight w then mark w else point w)
  /\ point w' = point w - 1 /\ buffer w' = buffer w.
Proof.
  intros Hk Hp Hmark w'.
  set (w1 := @mc_winput_cmd_backward_char str_8bit
               (mc_winput_cmd_start_highlight w)) in *.
  assert (H1 : is_highlight_cmd w1 = true /\ highlight w1 = true
               /\ mark w1 = (if highlight w then mark w else point w)
               /\ point w1 = point w - 1 /\ buffer w1 = buffer w).
  { unfold w1, mc_winput_cmd_backward_char, mc_winput_cmd_start_highlight,
      input_mark_cmd, input_set_markers.
    cbn [str_offset_to_pos str_cprev_noncomb_char str_8bit].
    destruct (highlight w) eqn:Hh; cbn [negb]; fields;
      (destruct (Z.ltb_spec 0 (point w)); [|lia]); fields;
      rewrite ?Hh; repeat split. }
  destruct H1 as (Hi & Hh1 & Hm1 & Hp1 & Hb1).
  destruct (@input_handle_char_highlight_cmd str_8bit keymap w w1 key false
              heap Hk Hi) as (Hm & Hh & Hpt & Hb).
  { cbn [str_length str_8bit]. unfold text_of. rewrite Hm1, Hb1.
    unfold strlen in *. destruct (highlight w); [now apply Hmark|lia]. }
  fold w' in Hm, Hh, Hpt, Hb.
  rewrite Hm, Hh, Hpt, Hb, Hh1, Hm1, Hp1, Hb1. repeat split.
Qed.

(** Two such keys in a row select the two characters before the place
    where the selection began. *)
Lemma extend_left_twice_8bit (w : WInput) (key : Z) heap heap' :
  (forall v,
     keymap key v
     = Some (@mc_winput_cmd_backward_char str_8bit
               (mc_winput_cmd_start_highlight v), false)) ->
  highlight w = false -> 2 <= point w <= strlen (buffer w) ->
  let w1 := snd (@input_handle_char str_8bit keymap w key heap) in
  let w2 := snd (@input_handle_char str_8bit keymap w1 key heap') in
  input_eval_marks w2 = (true, point w - 2, point w)
  /\ mark w2 = point w /\ point w2 = point w - 2 /\ buffer w2 = buffer w.
Proof.
  intros Hk Hh Hp w1 w2.
  destruct (extend_left_8bit w key heap (Hk w)) as (Hh1 & Hm1 & Hp1 & Hb1);
    [lia|rewrite Hh; discriminate|].
  fold w1 in Hh1, Hm1, Hp1, Hb1. rewrite Hh in Hm1.
  destruct (extend_left_8bit w1 key heap' (Hk w1)) as (Hh2 & Hm2 & Hp2 & Hb2).
  { rewrite Hp1, Hb1. lia. }
  { intros _. rewrite Hm1, Hb1. lia. }
  fold w2 in Hh2, Hm2, Hp2, Hb2. rewrite Hh1 in Hm2.
  unfold input_eval_marks. rewrite Hh2, Hm2, Hp2, Hb2, Hm1, Hp1.
  repeat split; try lia; try exact Hb1.
  f_equal; [f_equal|]; lia.
Qed.

End ExtendSelectionLeft.

(** ** The properties of the other functions *)

(** X1: [input_update] changes the view only: the mark, which it clamps,
    the origin of the viewport and the flag [first].  The text, the
    cursor, the selection flag, the assembler, the history, the flags of
    the commands, the completions and the size of the buffer stay as they
    are, whether the widget is redrawn or not. *)
Theorem input_update_changes_view_only `{str_class} (w : WInput)
    (clear_first : bool) :
  let w' := input_update w clear_first in
  buffer w' = buffer w /\ point w' = point w /\ highlight w' = highlight w
  /\ current_max_size w' = current_max_size w
  /\ charbuf w' = charbuf w /\ charpoint w' = charpoint w
  /\ history w' = history w /\ need_push w' = need_push w
  /\ widget w' = widget w /\ disable_update w' = disable_update w
  /\ is_highlight_cmd w' = is_highlight_cmd w
  /\ strip_password w' = strip_password w
  /\ completions w' = completions w.
Proof. apply input_update_fields. Qed.

(** X2: a redraw, which takes place when updates are not disabled and the
    widget belongs to an active dialog, leaves the mark at the end of the
    text when it was behind it, and clears [first] when asked to. *)
Theorem input_update_clamps_mark `{str_class} (w : WInput)
    (clear_first : bool) (d : WDialog) :
  disable_update w = 0 -> owner (widget w) = Some d -> state d = DLG_ACTIVE ->
  let w' := input_update w clear_first in
  mark w' = Z.min (mark w) (str_length (text_of w))
  /\ first w' = (if clear_first then false else first w).
Proof. apply input_update_mark_first. Qed.

Lemma input_update_clamps_mark_witness :
  mark (@input_update str_8bit (set_mark 30 Scenario.wide) false) = 20.
Proof.
  destruct (@input_update_clamps_mark str_8bit (set_mark 30 Scenario.wide)
              false {| state := DLG_ACTIVE; ret_value := 0 |})
    as (Hmark & _).
  - reflexivity.
  - reflexivity.
  - reflexivity.
  - rewrite Hmark. reflexivity.
Defined.

(** X3: [input_assign_text] with a text makes it the text of the widget,
    puts point at its end, resets the assembler, marks the line as to be
    pushed, and leaves a terminated buffer of one byte more than the
    longer of the width and the text.  It keeps the selection flag, the
    history and the counter of disabled updates. *)
Theorem input_assign_text_stores_text `{str_class} (w : WInput)
    (text : list byte) :
  0 <= cols (widget w) -> x00 ∉ text ->
  let w' := input_assign_text w (Some text) in
  text_of w' = text
  /\ point w' = str_length text
  /\ current_max_size w'
     = 1 + Z.max (cols (widget w)) (Z.of_nat (length text))
  /\ buffer_ok w'
  /\ charpoint w' = 0 /\ need_push w' = true
  /\ highlight w' = highlight w /\ history w' = history w
  /\ widget w' = widget w /\ charbuf w' = charbuf w
  /\ strip_password w' = strip_password w
  /\ disable_update w' = disable_update w.
Proof. apply input_assign_text_fields. Qed.

Lemma input_assign_text_stores_text_witness :
  let w' := @input_assign_text str_8bit Scenario.marked
              (Some (bytes "a longer text")) in
  text_of w' = bytes "a longer text" /\ point w' = 13
  /\ current_max_size w' = 14 /\ highlight w' = true.
Proof.
  destruct (@input_assign_text_stores_text str_8bit Scenario.marked
              (bytes "a longer text"))
    as (Ht & Hp & Hm & _ & _ & _ & Hh & _).
  - discriminate.
  - absent.
  - cbv zeta. rewrite Ht, Hp, Hm, Hh. repeat split.
Defined.

(** X4: [input_new] with a width that is not negative makes a widget that
    holds the default text, or the empty text when there is none, with
    point at its end, a terminated buffer of the recorded size, an
    assembler of [MB_LEN_MAX] bytes that holds none ([charpoint] is 0), no
    selection, no history entries, and [first] set; the history is named
    only when a name that is not empty was given. *)
Theorem input_new_makes_consistent_widget `{str_class} (width : Z)
    (def_text histname : option (list byte)) :
  0 <= width -> x00 ∉ default [] def_text ->
  let text := default [] def_text in
  let w := input_new width def_text histname in
  text_of w = text /\ point w = str_length text /\ mark w = 0
  /\ buffer_ok w /\ assembler_ok w /\ charpoint w = 0
  /\ current_max_size w = 1 + Z.max width (Z.of_nat (length text))
  /\ highlight w = false /\ first w = true /\ need_push w = true
  /\ disable_update w = 0 /\ strip_password w = false
  /\ completions w = None
  /\ h_list (history w) = [] /\ h_changed (history w) = false
  /\ (h_name (history w) = None <-> (histname = None \/ histname = Some []))
  /\ cols (widget w) = width /\ owner (widget w) = None.
Proof. apply input_new_fields. Qed.

Lemma input_new_makes_consistent_widget_witness :
  let w := @input_new str_8bit 10 (Some (bytes "abc")) (Some []) in
  text_of w = bytes "abc" /\ point w = 3 /\ charpoint w = 0
  /\ current_max_size w = 11.
Proof.
  destruct (@input_new_makes_consistent_widget str_8bit 10
              (Some (bytes "abc")) (Some []))
    as (Ht & Hp & _ & _ & _ & Hcp & Hm & _).
  - discriminate.
  - absent.
  - cbv zeta. rewrite Ht, Hp, Hcp, Hm. repeat split.
Defined.

(** X5: [insert_char] keeps the invariants of the widget for every key
    and every answer of the allocator: the buffer stays a terminated array
    of [current_max_size] bytes, the assembler stays within its array, and
    nothing is selected afterwards. *)
Theorem insert_char_keeps_invariants `{str_class} (w : WInput) (c : Z) heap :
  buffer_ok w -> assembler_ok w -> text_ok (text_of w) ->
  valid_offset w (point w) ->
  (highlight w = true -> valid_offset w (mark w)) ->
  buffer_ok (snd (insert_char w c heap))
  /\ assembler_ok (snd (insert_char w c heap))
  /\ highlight (snd (insert_char w c heap)) = false.
Proof. apply insert_char_invariants. Qed.

Lemma insert_char_keeps_invariants_witness :
  buffer_ok (snd (@insert_char str_8bit Scenario.marked 120 None))
  /\ highlight (snd (@insert_char str_8bit Scenario.marked 120 None)) = false.
Proof.
  destruct (@insert_char_keeps_invariants str_8bit Scenario.marked 120 None)
    as (Hok & _ & Hh).
  - split; vm_compute; reflexivity.
  - run.
  - apply str_8bit_text_ok.
  - run.
  - intros _. run.
  - split; assumption.
Defined.

(** X6: [delete_char] with a character at point takes it out of the text:
    the bytes from the position of point up to the position of the next
    character go, what is behind them moves up, point stays, the assembler
    is reset and the line is marked as to be pushed. *)
Theorem delete_char_removes_character `{str_class} (w : WInput) (n : Z) :
  buffer_ok w -> text_ok (text_of w) -> 0 <= point w ->
  str_cnext_noncomb_char
    (c_str (drop (Z.to_nat (str_offset_to_pos (text_of w) (point w)))
              (buffer w))) = n ->
  0 < n -> point w + n <= str_length (text_of w) ->
  let lo := str_offset_to_pos (text_of w) (point w) in
  let hi := str_offset_to_pos (text_of w) (point w + n) in
  let w' := delete_char w in
  text_of w' = take (Z.to_nat lo) (text_of w) ++ drop (Z.to_nat hi) (text_of w)
  /\ point w' = point w /\ need_push w' = true /\ charpoint w' = 0
  /\ buffer_ok w' /\ mark w' = mark w /\ highlight w' = highlight w
  /\ history w' = history w.
Proof. apply delete_char_text. Qed.

Lemma delete_char_removes_character_witness :
  text_of (@delete_char str_8bit Session.touched) = bytes "abcef"
  /\ point (@delete_char str_8bit Session.touched) = 3.
Proof.
  destruct (@delete_char_removes_character str_8bit Session.touched 1)
    as (Ht & Hp & _).
  - split; vm_compute; reflexivity.
  - apply str_8bit_text_ok.
  - discriminate.
  - reflexivity.
  - reflexivity.
  - discriminate.
  - rewrite Ht, Hp. split; reflexivity.
Defined.

(** X7: with nothing selected, the backspace command takes the character
    before point out of the text and moves point back over it; at the
    beginning of the line it changes nothing at all. *)
Theorem backspace_removes_previous_character `{str_class} (w : WInput) :
  buffer_ok w -> text_ok (text_of w) -> highlight w = false ->
  point w <= str_length (text_of w) ->
  (forall n,
     str_cprev_noncomb_char (text_of w)
       (str_offset_to_pos (text_of w) (point w)) = n ->
     0 < n <= point w ->
     let lo := str_offset_to_pos (text_of w) (point w - n) in
     let hi := str_offset_to_pos (text_of w) (point w) in
     let w' := mc_winput_cmd_backspace w in
     text_of w'
     = take (Z.to_nat lo) (text_of w) ++ drop (Z.to_nat hi) (text_of w)
     /\ point w' = point w - n /\ need_push w' = true /\ charpoint w' = 0
     /\ buffer_ok w' /\ mark w' = mark w /\ highlight w' = false
     /\ history w' = history w)
  /\ (point w = 0 -> mc_winput_cmd_backspace w = w).
Proof.
  intros Hok Htxt Hh Hend. split.
  - intros n Hn Hpos. now apply backspace_text.
  - now apply backspace_at_start.
Qed.

Lemma backspace_removes_previous_character_witness :
  text_of (@mc_winput_cmd_backspace str_8bit Session.touched) = bytes "abdef"
  /\ point (@mc_winput_cmd_backspace str_8bit Session.touched) = 2.
Proof.
  destruct (@backspace_removes_previous_character str_8bit Session.touched)
    as (Hback & _).
  - split; vm_compute; reflexivity.
  - apply str_8bit_text_ok.
  - reflexivity.
  - discriminate.
  - destruct (Hback 1) as (Ht & Hp & _).
    + reflexivity.
    + split; [reflexivity|discriminate].
    + rewrite Ht, Hp. split; reflexivity.
Defined.

(** X8: the kill-to-end command splits the text at point: what is before
    point stays in the buffer, what is behind it becomes the kill ring.
    Point stays, no event is raised, and the line is not marked as to be
    pushed. *)
Theorem delete_to_end_splits_text `{str_class} (w : WInput) (g : process) :
  buffer_ok w -> text_ok (text_of w) -> valid_offset w (point w) ->
  let chp := str_offset_to_pos (text_of w) (point w) in
  let w' := fst (mc_winput_cmd_delete_to_end w g) in
  let g' := snd (mc_winput_cmd_delete_to_end w g) in
  text_of w' = take (Z.to_nat chp) (text_of w)
  /\ kill_buffer g' = Some (drop (Z.to_nat chp) (text_of w))
  /\ raised g' = raised g
  /\ point w' = point w /\ charpoint w' = 0 /\ buffer_ok w'
  /\ need_push w' = need_push w /\ mark w' = mark w
  /\ highlight w' = highlight w /\ history w' = history w
  /\ current_max_size w' = current_max_size w
  /\ charbuf w' = charbuf w /\ widget w' = widget w.
Proof. apply delete_to_end_text. Qed.

Lemma delete_to_end_splits_text_witness :
  let r := @mc_winput_cmd_delete_to_end str_8bit Session.touched
             Scenario.fresh_process in
  text_of (fst r) = bytes "abc" /\ kill_buffer (snd r) = Some (bytes "def").
Proof.
  destruct (@delete_to_end_splits_text str_8bit Session.touched
              Scenario.fresh_process) as (Ht & Hk & _).
  - split; vm_compute; reflexivity.
  - apply str_8bit_text_ok.
  - run.
  - cbv zeta. rewrite Ht, Hk. split; reflexivity.
Defined.

(** X9: in a single-byte locale, with nothing selected, the yank command
    puts the text of the kill ring, when it holds no byte 255, in at point
    and moves point behind it, if the allocator never fails or the buffer
    has room for the text. *)
Theorem yank_inserts_kill_ring (w : WInput) (g : process) (kb : list byte)
    heap :
  kill_buffer g = Some kb ->
  highlight w = false -> buffer_ok w -> assembler_ok w ->
  0 <= point w <= strlen (buffer w) ->
  x00 ∉ kb -> xff ∉ kb ->
  (forall j, heap j <> None)
  \/ strlen (buffer w) + Z.of_nat (length kb) < current_max_size w ->
  let w' := @mc_winput_cmd_yank str_8bit w g heap in
  text_of w'
  = take (Z.to_nat (point w)) (text_of w) ++ kb
    ++ drop (Z.to_nat (point w)) (text_of w)
  /\ point w' = point w + Z.of_nat (length kb)
  /\ charpoint w' = 0 /\ highlight w' = false
  /\ buffer_ok w' /\ assembler_ok w'
  /\ mark w' = mark w /\ history w' = history w.
Proof. apply yank_8bit. Qed.

Lemma yank_inserts_kill_ring_witness :
  let w' := @mc_winput_cmd_yank str_8bit Scenario.ab Scenario.killed_xyz
              (fun _ => None) in
  text_of w' = bytes "axyzb" /\ point w' = 4.
Proof.
  destruct (yank_inserts_kill_ring Scenario.ab Scenario.killed_xyz
              (bytes "xyz") (fun _ => None))
    as (Ht & Hp & _).
  - reflexivity.
  - reflexivity.
  - split; vm_compute; reflexivity.
  - run.
  - run.
  - absent.
  - absent.
  - right. vm_compute. reflexivity.
  - cbv zeta. rewrite Ht, Hp. split; reflexivity.
Defined.

(** X10: in a single-byte locale, with nothing selected and no byte 255
    behind point, killing to the end of the line and yanking gives the
    text back and leaves point at its end, whatever the allocator
    answers. *)
Theorem delete_to_end_yank_restores_text (w : WInput) (g : process) heap :
  highlight w = false -> buffer_ok w -> assembler_ok w ->
  0 <= point w <= strlen (buffer w) ->
  xff ∉ drop (Z.to_nat (point w)) (text_of w) ->
  let w1 := fst (@mc_winput_cmd_delete_to_end str_8bit w g) in
  let g1 := snd (@mc_winput_cmd_delete_to_end str_8bit w g) in
  let w2 := @mc_winput_cmd_yank str_8bit w1 g1 heap in
  text_of w2 = text_of w /\ point w2 = strlen (buffer w)
  /\ charpoint w2 = 0 /\ buffer_ok w2.
Proof. apply delete_to_end_yank_8bit. Qed.

Lemma delete_to_end_yank_restores_text_witness :
  let r := @mc_winput_cmd_delete_to_end str_8bit (set_point 1 Scenario.full)
             Scenario.killed_xyz in
  let w2 := @mc_winput_cmd_yank str_8bit (fst r) (snd r) (fun _ => None) in
  text_of w2 = bytes "abc" /\ point w2 = 3.
Proof.
  destruct (delete_to_end_yank_restores_text (set_point 1 Scenario.full)
              Scenario.killed_xyz (fun _ => None)) as (Ht & Hp & _).
  - reflexivity.
  - split; vm_compute; reflexivity.
  - run.
  - run.
  - absent.
  - cbv zeta. rewrite Ht, Hp. split; reflexivity.
Defined.

(** X11: the cut command with mark and point at two different offsets of
    the text puts the text between them into the kill ring, raises the two
    events that hand it to the clipboard file, takes it out of the buffer,
    moves point to the lower of the two and clears the selection. *)
Theorem clipboard_cut_moves_region `{str_class} (w : WInput) (g : process) :
  buffer_ok w -> text_ok (text_of w) ->
  valid_offset w (mark w) -> valid_offset w (point w) -> mark w <> point w ->
  let lo := str_offset_to_pos (text_of w) (Z.min (mark w) (point w)) in
  let hi := str_offset_to_pos (text_of w) (Z.max (mark w) (point w)) in
  let region := take (Z.to_nat (hi - lo)) (drop (Z.to_nat lo) (text_of w)) in
  let w' := fst (mc_winput_cmd_clipboard_cut w g) in
  let g' := snd (mc_winput_cmd_clipboard_cut w g) in
  kill_buffer g' = Some region
  /\ raised g'
     = raised g
       ++ [ {| ev_group := MCEVENT_GROUP_CORE;
               ev_name := "clipboard_text_to_file";
               ev_data := Some region |};
            {| ev_group := MCEVENT_GROUP_CORE;
               ev_name := "clipboard_file_to_ext_clip";
               ev_data := None |} ]
  /\ text_of w' = take (Z.to_nat lo) (text_of w) ++ drop (Z.to_nat hi) (text_of w)
  /\ point w' = Z.min (mark w) (point w)
  /\ highlight w' = false /\ buffer_ok w'.
Proof. apply clipboard_cut_text. Qed.

Lemma clipboard_cut_moves_region_witness :
  let r := @mc_winput_cmd_clipboard_cut str_8bit Session.selected
             Scenario.fresh_process in
  text_of (fst r) = bytes "abf" /\ kill_buffer (snd r) = Some (bytes "cde")
  /\ point (fst r) = 2.
Proof.
  destruct (@clipboard_cut_moves_region str_8bit Session.selected
              Scenario.fresh_process) as (Hk & _ & Ht & Hp & _).
  - split; vm_compute; reflexivity.
  - apply str_8bit_text_ok.
  - run.
  - run.
  - discriminate.
  - cbv zeta. rewrite Hk, Ht, Hp. repeat split.
Defined.

(** X12: in a single-byte locale, with mark and point at two different
    offsets of the text and no byte 255 between them, cutting the text
    between mark and point and yanking it at once gives the text back, with
    point behind what was cut, whatever the allocator answers. *)
Theorem clipboard_cut_yank_restores_text (w : WInput) (g : process) heap :
  buffer_ok w -> assembler_ok w ->
  @valid_offset str_8bit w (mark w) -> @valid_offset str_8bit w (point w) ->
  mark w <> point w ->
  xff ∉ take (Z.to_nat (Z.max (mark w) (point w) - Z.min (mark w) (point w)))
         (drop (Z.to_nat (Z.min (mark w) (point w))) (text_of w)) ->
  let w1 := fst (@mc_winput_cmd_clipboard_cut str_8bit w g) in
  let g1 := snd (@mc_winput_cmd_clipboard_cut str_8bit w g) in
  let w2 := @mc_winput_cmd_yank str_8bit w1 g1 heap in
  text_of w2 = text_of w /\ point w2 = Z.max (mark w) (point w)
  /\ highlight w2 = false /\ buffer_ok w2.
Proof. apply clipboard_cut_yank_8bit. Qed.

Lemma clipboard_cut_yank_restores_text_witness :
  let r := @mc_winput_cmd_clipboard_cut str_8bit Session.selected
             Scenario.fresh_process in
  let w2 := @mc_winput_cmd_yank str_8bit (fst r) (snd r) (fun _ => None) in
  text_of w2 = bytes "abcdef" /\ point w2 = 5.
Proof.
  destruct (clipboard_cut_yank_restores_text Session.selected
              Scenario.fresh_process (fun _ => None)) as (Ht & Hp & _).
  - split; vm_compute; reflexivity.
  - run.
  - run.
  - run.
  - discriminate.
  - absent.
  - cbv zeta. rewrite Ht, Hp. split; reflexivity.
Defined.

(** X13: [input_handle_char] always leaves the flag of the highlight
    commands cleared.  For a key that is bound it returns [MSG_HANDLED]
    and adds nothing to what the bound commands did to the text and point;
    the selection survives only when one of them was a highlight command,
    and the completions only when one was the completion command.  A key
    above 255 that is bound to nothing is not handled: text, point and the
    flag [first] stay, but the selection is dropped all the same. *)
Theorem input_handle_char_clears_flags `{str_class}
    (keymap : Z -> WInput -> option (WInput * bool))
    (w : WInput) (key : Z) heap :
  is_highlight_cmd (snd (input_handle_char keymap w key heap)) = false
  /\ (forall w1 cc,
        keymap key w = Some (w1, cc) ->
        let w' := snd (input_handle_char keymap w key heap) in
        fst (input_handle_char keymap w key heap) = MSG_HANDLED
        /\ buffer w' = buffer w1 /\ point w' = point w1
        /\ highlight w' = (highlight w1 && is_highlight_cmd w1)
        /\ history w' = history w1
        /\ completions w' = (if cc then completions w1 else None))
  /\ (keymap key w = None -> 255 < key ->
      let w' := snd (input_handle_char keymap w key heap) in
      fst (input_handle_char keymap w key heap) = MSG_NOT_HANDLED
      /\ buffer w' = buffer w /\ point w' = point w
      /\ highlight w' = (highlight w && is_highlight_cmd w)
      /\ first w' = first w /\ completions w' = completions w
      /\ need_push w' = need_push w).
Proof. apply input_handle_char_flags. Qed.

Lemma input_handle_char_clears_flags_witness :
  highlight (snd (@input_handle_char str_8bit Session.two_keys
                    Session.selected 1000 None)) = true
  /\ point (snd (@input_handle_char str_8bit Session.two_keys
                   Session.selected 1000 None)) = 4
  /\ highlight (snd (@input_handle_char str_8bit Session.two_keys
                       Session.selected 1 None)) = false
  /\ fst (@input_handle_char str_8bit Session.two_keys
            Session.selected 2000 None) = MSG_NOT_HANDLED
  /\ highlight (snd (@input_handle_char str_8bit Session.two_keys
                       Session.selected 2000 None)) = false.
Proof.
  destruct (@input_handle_char_clears_flags str_8bit Session.two_keys
              Session.selected 1000 None) as (_ & Hbound & _).
  destruct (Hbound _ _ eq_refl) as (_ & _ & Hp & Hh & _).
  destruct (@input_handle_char_clears_flags str_8bit Session.two_keys
              Session.selected 1 None) as (_ & Hbound1 & _).
  destruct (Hbound1 _ _ eq_refl) as (_ & _ & _ & Hh1 & _).
  destruct (@input_handle_char_clears_flags str_8bit Session.two_keys
              Session.selected 2000 None) as (_ & _ & Hfree).
  destruct Hfree as (Hr & _ & _ & Hh2 & _); [reflexivity|reflexivity|].
  rewrite Hp, Hh, Hh1, Hr, Hh2. repeat split.
Defined.

(** X14: in a single-byte locale, a key of at most 255 that is bound to
    nothing and is the code of a character is put in at point by
    [input_handle_char], when the widget was touched before and the
    allocator does not fail or the buffer has room.  What was selected is
    not deleted: the selection is dropped before the character is
    inserted. *)
Theorem typed_key_keeps_selected_text
    (keymap : Z -> WInput -> option (WInput * bool))
    (w : WInput) (key : Z) heap :
  keymap key w = None -> key <= 255 -> key <> -1 -> char_of_int key <> x00 ->
  is_highlight_cmd w = false -> first w = false ->
  buffer_ok w -> assembler_ok w -> charpoint w = 0 ->
  0 <= point w <= strlen (buffer w) ->
  heap <> None \/ strlen (buffer w) + 1 < current_max_size w ->
  let w' := snd (@input_handle_char str_8bit keymap w key heap) in
  fst (@input_handle_char str_8bit keymap w key heap) = MSG_HANDLED
  /\ text_of w'
     = take (Z.to_nat (point w)) (text_of w) ++ char_of_int key
       :: drop (Z.to_nat (point w)) (text_of w)
  /\ point w' = point w + 1 /\ charpoint w' = 0 /\ highlight w' = false
  /\ buffer_ok w' /\ assembler_ok w'
  /\ is_highlight_cmd w' = false /\ first w' = false
  /\ history w' = history w /\ disable_update w' = disable_update w
  /\ current_max_size w <= current_max_size w'.
Proof. apply input_handle_char_typed_8bit. Qed.

Lemma typed_key_keeps_selected_text_witness :
  highlight Session.selected = true
  /\ text_of (snd (@input_handle_char str_8bit Session.no_keys
                     Session.selected 120 None)) = bytes "abcdexf".
Proof.
  split; [reflexivity|].
  destruct (typed_key_keeps_selected_text Session.no_keys Session.selected 120
              None) as (_ & Ht & _).
  - reflexivity.
  - discriminate.
  - discriminate.
  - discriminate.
  - reflexivity.
  - reflexivity.
  - split; vm_compute; reflexivity.
  - run.
  - reflexivity.
  - run.
  - right. vm_compute. reflexivity.
  - rewrite Ht. reflexivity.
Defined.

(** X15: in a single-byte locale, the first key of a character that
    [input_handle_char] gets for a widget that was not touched yet takes
    the place of the whole text. *)
Theorem first_key_replaces_text
    (keymap : Z -> WInput -> option (WInput * bool))
    (w : WInput) (key : Z) heap :
  keymap key w = None -> key <= 255 -> key <> -1 -> char_of_int key <> x00 ->
  is_highlight_cmd w = false -> first w = true ->
  buffer_ok w -> assembler_ok w ->
  heap <> None \/ 1 < current_max_size w ->
  let w' := snd (@input_handle_char str_8bit keymap w key heap) in
  fst (@input_handle_char str_8bit keymap w key heap) = MSG_HANDLED
  /\ text_of w' = [char_of_int key]
  /\ point w' = 1 /\ first w' = false /\ highlight w' = false
  /\ buffer_ok w'.
Proof.
  intros Hk Hkey Hc Hb0 Hi Hf Hok Hasm Hroom w'.
  destruct (input_handle_char_first_8bit keymap w key heap Hk Hkey Hc Hb0 Hi
              Hf Hok Hasm Hroom) as (Hr & Ht & Hp & Hf' & Hh & Hok' & _).
  split; [exact Hr|]. split; [exact Ht|]. split; [exact Hp|].
  split; [exact Hf'|]. split; [exact Hh|exact Hok'].
Qed.

Lemma first_key_replaces_text_witness :
  text_of (snd (@input_handle_char str_8bit Session.no_keys
                  Scenario.marked 120 None)) = bytes "x".
Proof.
  destruct (first_key_replaces_text Session.no_keys Scenario.marked 120 None)
    as (_ & Ht & _).
  - reflexivity.
  - discriminate.
  - discriminate.
  - discriminate.
  - reflexivity.
  - reflexivity.
  - split; vm_compute; reflexivity.
  - run.
  - right. reflexivity.
  - rewrite Ht. reflexivity.
Defined.

(** X16: in a single-byte locale, for a text without NUL whose bytes, and
    the blank when one is asked for, are bound to no command, and a widget
    with the flag of the highlight commands clear, an empty assembler and
    point in the text.  When the widget was touched before ([first]
    clear) and the allocator never fails or the buffer has room,
    [input_insert] puts the text in at point, with the blank behind it
    when asked to, and moves point behind what it put in; what was
    selected is not deleted.  When the widget was not touched yet
    ([first] set), there is something to put in, and the allocator never
    fails or the buffer has room, what is put in takes the place of the
    whole text, with point behind it, and [first] is cleared.  With
    nothing to put in, text and point stay.  In every case the counter of
    disabled updates is back at its value and the history stays. *)
Theorem input_insert_puts_text
    (keymap : Z -> WInput -> option (WInput * bool))
    (w : WInput) (text : list byte) (extra : bool) heap :
  let typed := text ++ (if extra then [x20] else []) in
  (forall b v, b ∈ typed -> keymap (Z.of_N (Byte.to_N b)) v = None) ->
  x00 ∉ text ->
  is_highlight_cmd w = false ->
  buffer_ok w -> assembler_ok w -> charpoint w = 0 ->
  0 <= point w <= strlen (buffer w) ->
  let w' := @input_insert str_8bit keymap w text extra heap in
  (first w = false ->
   (forall j, heap j <> None)
   \/ strlen (buffer w) + Z.of_nat (length typed) < current_max_size w ->
   text_of w'
   = take (Z.to_nat (point w)) (text_of w) ++ typed
     ++ drop (Z.to_nat (point w)) (text_of w)
   /\ point w' = point w + Z.of_nat (length typed)
   /\ charpoint w' = 0 /\ buffer_ok w'
   /\ history w' = history w /\ disable_update w' = disable_update w)
  /\ (first w = true -> typed <> [] ->
      (forall j, heap j <> None)
      \/ Z.of_nat (length typed) < current_max_size w ->
      text_of w' = typed
      /\ point w' = Z.of_nat (length typed)
      /\ charpoint w' = 0 /\ buffer_ok w' /\ first w' = false
      /\ history w' = history w /\ disable_update w' = disable_update w)
  /\ (typed = [] ->
      text_of w' = text_of w /\ point w' = point w
      /\ history w' = history w /\ disable_update w' = disable_update w).
Proof. apply input_insert_8bit. Qed.

Lemma input_insert_puts_text_witness :
  (let w' := @input_insert str_8bit Session.no_keys Session.touched
               (bytes "XY") true (fun _ => None) in
   text_of w' = bytes "abcXY def" /\ point w' = 6 /\ disable_update w' = 0)
  /\ (let w' := @input_insert str_8bit Session.no_keys Scenario.moved
                  (bytes "XY") false (fun _ => None) in
      first Scenario.moved = true /\ text_of Scenario.moved = bytes "abcdef"
      /\ text_of w' = bytes "XY" /\ point w' = 2).
Proof.
  split.
  - destruct (input_insert_puts_text Session.no_keys Session.touched
                (bytes "XY") true (fun _ => None)) as (Hput & _).
    + reflexivity.
    + absent.
    + reflexivity.
    + split; vm_compute; reflexivity.
    + run.
    + reflexivity.
    + run.
    + destruct Hput as (Ht & Hp & _ & _ & _ & Hd).
      * reflexivity.
      * right. vm_compute. reflexivity.
      * cbv zeta. rewrite Ht, Hp, Hd. repeat split.
  - destruct (input_insert_puts_text Session.no_keys Scenario.moved
                (bytes "XY") false (fun _ => None)) as (_ & Hfirst & _).
    + reflexivity.
    + absent.
    + reflexivity.
    + split; vm_compute; reflexivity.
    + run.
    + reflexivity.
    + run.
    + destruct Hfirst as (Ht & Hp & _).
      * reflexivity.
      * discriminate.
      * right. vm_compute. reflexivity.
      * cbv zeta. rewrite Ht, Hp. repeat split.
Defined.

(** X17: on a line that needs no push, the history-previous command shows
    the entry next older than the current one: its text becomes the text
    of the widget with point at its end, it becomes the current entry, the
    history is marked as changed and the line as pushed; the list stays.
    At the oldest entry the command changes nothing. *)
Theorem history_previous_shows_older_entry `{str_class}
    (list_append_unique : list (list byte) -> list byte -> list (list byte))
    (w : WInput) (i : nat) :
  need_push w = false -> h_current (history w) = Some i ->
  0 <= cols (widget w) ->
  (forall e,
     h_list (history w) !! S i = Some e -> x00 ∉ e ->
     let w' := mc_winput_cmd_history_previous list_append_unique w in
     text_of w' = e /\ point w' = str_length e
     /\ h_list (history w') = h_list (history w)
     /\ h_current (history w') = Some (S i)
     /\ h_changed (history w') = true
     /\ h_name (history w') = h_name (history w)
     /\ need_push w' = false /\ buffer_ok w'
     /\ widget w' = widget w)
  /\ ((length (h_list (history w)) <= S i)%nat ->
      mc_winput_cmd_history_previous list_append_unique w = w).
Proof.
  intros Hnp Hcur Hcols. split.
  - intros e Hent He. now apply history_previous_entry.
  - intros Hlen. now apply (history_previous_oldest _ w i).
Qed.

Lemma history_previous_shows_older_entry_witness :
  let w' := @mc_winput_cmd_history_previous str_8bit
              list_append_unique_distinct Session.recalled in
  text_of w' = bytes "cd /tmp" /\ h_current (history w') = Some 1%nat.
Proof.
  destruct (@history_previous_shows_older_entry str_8bit
              list_append_unique_distinct Session.recalled 0)
    as (Holder & _).
  - reflexivity.
  - reflexivity.
  - discriminate.
  - destruct (Holder (bytes "cd /tmp")) as (Ht & _ & _ & Hc & _).
    + reflexivity.
    + absent.
    + cbv zeta. rewrite Ht, Hc. split; reflexivity.
Defined.

(** X18: on a line that needs no push, going back one entry of the
    history and forward again shows the entry the walk started from, with
    the same current entry and the same list. *)
Theorem history_previous_next_round_trip `{str_class}
    (list_append_unique : list (list byte) -> list byte -> list (list byte))
    (w : WInput) (i : nat) (e0 e1 : list byte) :
  need_push w = false -> h_current (history w) = Some i ->
  h_list (history w) !! i = Some e0 -> h_list (history w) !! S i = Some e1 ->
  x00 ∉ e0 -> x00 ∉ e1 -> 0 <= cols (widget w) ->
  let w1 := mc_winput_cmd_history_previous list_append_unique w in
  let w2 := mc_winput_cmd_history_next list_append_unique w1 in
  text_of w1 = e1 /\ text_of w2 = e0
  /\ h_current (history w2) = h_current (history w)
  /\ h_list (history w2) = h_list (history w)
  /\ need_push w2 = false.
Proof. apply history_previous_next. Qed.

Lemma history_previous_next_round_trip_witness :
  text_of
    (@mc_winput_cmd_history_next str_8bit list_append_unique_distinct
       (@mc_winput_cmd_history_previous str_8bit list_append_unique_distinct
          Session.recalled))
  = bytes "ls".
Proof.
  destruct (@history_previous_next_round_trip str_8bit
              list_append_unique_distinct Session.recalled 0
              (bytes "ls") (bytes "cd /tmp")) as (_ & Ht & _).
  - reflexivity.
  - reflexivity.
  - reflexivity.
  - reflexivity.
  - absent.
  - absent.
  - discriminate.
  - exact Ht.
Defined.

(** X19: on a line that was edited, the history-next command offers the
    text to the history, as [push_history] does, and empties the line,
    which is again marked as to be pushed. *)
Theorem history_next_pushes_edited_line `{str_class}
    (list_append_unique : list (list byte) -> list byte -> list (list byte))
    (w : WInput) :
  need_push w = true -> 0 <= cols (widget w) ->
  let w' := mc_winput_cmd_history_next list_append_unique w in
  text_of w' = [] /\ point w' = str_length []
  /\ history w'
     = history (push_history list_append_unique w (Some (text_of w)))
  /\ need_push w' = true /\ buffer_ok w'.
Proof. apply history_next_edited. Qed.

Lemma history_next_pushes_edited_line_witness :
  let w' := @mc_winput_cmd_history_next str_8bit list_append_unique_distinct
              Session.edited in
  text_of w' = []
  /\ h_list (history w')
     = [bytes "ls -l"; bytes "ls"; bytes "cd /tmp"; bytes "make"].
Proof.
  destruct (@history_next_pushes_edited_line str_8bit
              list_append_unique_distinct Session.edited)
    as (Ht & _ & Hh & _).
  - reflexivity.
  - discriminate.
  - cbv zeta. rewrite Ht, Hh. split; reflexivity.
Defined.

(** X20: on a line that needs no push, at the newest entry of a history
    that is not empty, the history-next command empties the line and keeps
    the list and its changed flag; the newest entry stays the current one,
    and the line is left marked as to be pushed. *)
Theorem history_next_at_newest_clears_line `{str_class}
    (list_append_unique : list (list byte) -> list byte -> list (list byte))
    (w : WInput) :
  need_push w = false -> h_list (history w) <> [] ->
  h_current (history w) = Some 0%nat \/ h_current (history w) = None ->
  0 <= cols (widget w) ->
  let w' := mc_winput_cmd_history_next list_append_unique w in
  text_of w' = []
  /\ h_list (history w') = h_list (history w)
  /\ h_current (history w') = Some 0%nat
  /\ h_changed (history w') = h_changed (history w)
  /\ need_push w' = true.
Proof. apply history_next_newest. Qed.

Lemma history_next_at_newest_clears_line_witness :
  let w' := @mc_winput_cmd_history_next str_8bit list_append_unique_distinct
              Session.recalled in
  text_of w' = [] /\ need_push w' = true
  /\ h_list (history w') = [bytes "ls"; bytes "cd /tmp"; bytes "make"].
Proof.
  destruct (@history_next_at_newest_clears_line str_8bit
              list_append_unique_distinct Session.recalled)
    as (Ht & Hl & _ & _ & Hn).
  - reflexivity.
  - discriminate.
  - now left.
  - discriminate.
  - cbv zeta. rewrite Ht, Hl, Hn. repeat split.
Defined.

(** X21: [input_set_point] never puts point behind the end of the text:
    point becomes the lower of the position asked for and the length of
    the text.  The text stays, the assembler is reset, and the completions
    are kept only when point does not move. *)
Theorem input_set_point_clamps `{str_class} (w : WInput) (pos : Z) :
  let w' := input_set_point w pos in
  point w' = Z.min pos (str_length (text_of w))
  /\ point w' <= str_length (text_of w')
  /\ text_of w' = text_of w /\ charpoint w' = 0
  /\ completions w'
     = (if Z.min pos (str_length (text_of w)) =? point w then completions w
        else None)
  /\ highlight w' = highlight w /\ need_push w' = need_push w
  /\ history w' = history w.
Proof. apply input_set_point_fields. Qed.

(** X22: [input_clean] offers the text to the history, as [push_history]
    does, and then empties the line: no text, point at 0, nothing
    selected, no completions, the assembler reset, the line marked as to
    be pushed. *)
Theorem input_clean_pushes_and_clears `{str_class}
    (list_append_unique : list (list byte) -> list byte -> list (list byte))
    (w : WInput) :
  buffer_ok w ->
  let w' := input_clean list_append_unique w in
  text_of w' = [] /\ point w' = 0 /\ charpoint w' = 0
  /\ highlight w' = false /\ need_push w' = true /\ completions w' = None
  /\ history w'
     = history (push_history list_append_unique w (Some (text_of w)))
  /\ buffer_ok w'.
Proof. apply input_clean_fields. Qed.

Lemma input_clean_pushes_and_clears_witness :
  let w' := @input_clean str_8bit list_append_unique_distinct
              Session.edited in
  text_of w' = []
  /\ h_list (history w')
     = [bytes "ls -l"; bytes "ls"; bytes "cd /tmp"; bytes "make"].
Proof.
  destruct (@input_clean_pushes_and_clears str_8bit
              list_append_unique_distinct Session.edited)
    as (Ht & _ & _ & _ & _ & _ & Hh & _).
  - split; vm_compute; reflexivity.
  - cbv zeta. rewrite Ht, Hh. split; reflexivity.
Defined.

(** X23: the clear command empties the line, with point and mark at 0 and
    nothing selected, and marks it as to be pushed; unlike [input_clean]
    it leaves the history, the completions and the flag [first] alone. *)
Theorem clear_all_keeps_history (w : WInput) :
  buffer_ok w ->
  let w' := mc_winput_cmd_clear_all w in
  text_of w' = [] /\ point w' = 0 /\ mark w' = 0 /\ charpoint w' = 0
  /\ highlight w' = false /\ need_push w' = true
  /\ history w' = history w /\ completions w' = completions w
  /\ first w' = first w /\ buffer_ok w'.
Proof. apply clear_all_fields. Qed.

Lemma clear_all_keeps_history_witness :
  let w' := mc_winput_cmd_clear_all Session.edited in
  text_of w' = [] /\ history w' = Session.three_entries.
Proof.
  destruct (clear_all_keeps_history Session.edited)
    as (Ht & _ & _ & _ & _ & _ & Hh & _).
  - split; vm_compute; reflexivity.
  - cbv zeta. rewrite Ht, Hh. split; reflexivity.
Defined.

(** X24: in a single-byte locale, the forward-character command followed
    by the backward-character command, and the other way round, bring point
    back where it was and leave the buffer alone, unless the first of the
    two was stopped by an end of the text; there point does not move. *)
Theorem forward_backward_char_round_trip (w : WInput) :
  buffer_ok w -> 0 <= point w <= strlen (buffer w) ->
  let fwd := @mc_winput_cmd_forward_char str_8bit in
  let bwd := @mc_winput_cmd_backward_char str_8bit in
  (point w < strlen (buffer w) ->
   point (bwd (fwd w)) = point w /\ buffer (bwd (fwd w)) = buffer w)
  /\ (0 < point w ->
      point (fwd (bwd w)) = point w /\ buffer (fwd (bwd w)) = buffer w)
  /\ (point w = strlen (buffer w) -> point (fwd w) = point w)
  /\ (point w = 0 -> point (bwd w) = point w).
Proof. apply forward_backward_char_8bit. Qed.

Lemma forward_backward_char_round_trip_witness :
  point (@mc_winput_cmd_backward_char str_8bit
           (@mc_winput_cmd_forward_char str_8bit Session.touched)) = 3
  /\ point (@mc_winput_cmd_forward_char str_8bit (Scenario.created "abc")) = 3.
Proof.
  destruct (forward_backward_char_round_trip Session.touched)
    as (Hfb & _).
  { split; vm_compute; reflexivity. }
  { run. }
  destruct (forward_backward_char_round_trip (Scenario.created "abc"))
    as (_ & _ & Hend & _).
  { split; vm_compute; reflexivity. }
  { run. }
  destruct Hfb as [Hp _]; [vm_compute; reflexivity|].
  cbv zeta in Hend. rewrite Hp, Hend by (vm_compute; reflexivity).
  split; vm_compute; reflexivity.
Defined.

(** X25: in a single-byte locale, the forward-word command moves point
    over the separators at point and then over the word behind them, and
    changes nothing else. *)
Theorem forward_word_skips_separators_then_word
    (isspace ispunct : byte -> bool) (w : WInput) :
  buffer_ok w -> 0 <= point w <= strlen (buffer w) ->
  let sep := separator_byte isspace ispunct in
  let rest := drop (Z.to_nat (point w)) (text_of w) in
  let n1 := leading sep rest in
  let n2 := leading (fun b => negb (sep b)) (drop n1 rest) in
  @mc_winput_cmd_forward_word str_8bit (str_8bit_word isspace ispunct) w
  = set_point (point w + Z.of_nat (n1 + n2)) w.
Proof. intros Hok Hp. now apply forward_word_8bit. Qed.

Lemma forward_word_skips_separators_then_word_witness :
  point (@mc_winput_cmd_forward_word str_8bit
           (str_8bit_word Session.isspace Session.ispunct)
           Session.command_line) = 4.
Proof.
  rewrite (forward_word_skips_separators_then_word Session.isspace
             Session.ispunct Session.command_line).
  - reflexivity.
  - split; vm_compute; reflexivity.
  - run.
Defined.

(** X26: in a single-byte locale, the kill-word command deletes from point
    to where the forward-word command would move it: the separators at
    point and the word behind them; point stays. *)
Theorem kill_word_deletes_to_word_end
    (isspace ispunct : byte -> bool) (w : WInput) :
  buffer_ok w -> 0 <= point w <= strlen (buffer w) ->
  let sep := separator_byte isspace ispunct in
  let rest := drop (Z.to_nat (point w)) (text_of w) in
  let n1 := leading sep rest in
  let n2 := leading (fun b => negb (sep b)) (drop n1 rest) in
  let w' :=
    @mc_winput_cmd_kill_word str_8bit (str_8bit_word isspace ispunct) w in
  text_of w'
  = take (Z.to_nat (point w)) (text_of w)
    ++ drop (Z.to_nat (point w) + n1 + n2) (text_of w)
  /\ point w' = point w /\ highlight w' = false
  /\ need_push w' = true /\ charpoint w' = 0 /\ buffer_ok w'.
Proof. intros Hok Hp. now apply kill_word_8bit. Qed.

Lemma kill_word_deletes_to_word_end_witness :
  text_of (@mc_winput_cmd_kill_word str_8bit
             (str_8bit_word Session.isspace Session.ispunct)
             Session.command_line) = bytes "cp.c, b.c".
Proof.
  destruct (kill_word_deletes_to_word_end Session.isspace Session.ispunct
              Session.command_line) as (Ht & _).
  - split; vm_compute; reflexivity.
  - run.
  - rewrite Ht. reflexivity.
Defined.

(** X27: in a single-byte locale, the backward-word command moves point
    back over the separators before it and then over the word before
    them.  From the end of a text that is not empty it starts one byte
    earlier: the last character is stepped over without being looked
    at. *)
Theorem backward_word_skips_separators_then_word
    (isspace ispunct : byte -> bool) (w : WInput) :
  buffer_ok w -> 0 <= point w <= strlen (buffer w) ->
  let sep := separator_byte isspace ispunct in
  let p1 := Z.to_nat (backward_word_start (text_of w) (point w)) in
  let n1 := leading sep (reverse (take p1 (text_of w))) in
  let n2 :=
    leading (fun b => negb (sep b)) (reverse (take (p1 - n1) (text_of w))) in
  @mc_winput_cmd_backward_word str_8bit (str_8bit_word isspace ispunct) w
  = set_point (Z.of_nat (p1 - n1 - n2)) w.
Proof. intros Hok Hp. now apply backward_word_8bit. Qed.

Lemma backward_word_skips_separators_then_word_witness :
  point (@mc_winput_cmd_backward_word str_8bit
           (str_8bit_word Session.isspace Session.ispunct)
           (set_point 8 Session.command_line)) = 5
  /\ point (@mc_winput_cmd_backward_word str_8bit
              (str_8bit_word Session.isspace Session.ispunct)
              (Scenario.created "a b")) = 0.
Proof.
  rewrite (backward_word_skips_separators_then_word Session.isspace
             Session.ispunct (set_point 8 Session.command_line)).
  - rewrite (backward_word_skips_separators_then_word Session.isspace
               Session.ispunct (Scenario.created "a b")).
    + split; reflexivity.
    + split; vm_compute; reflexivity.
    + run.
  - split; vm_compute; reflexivity.
  - run.
Defined.

(** X28: in a single-byte locale, the backward-kill-word command deletes
    from where the backward-word command would move point up to point,
    and leaves point there. *)
Theorem back_kill_word_deletes_to_word_start
    (isspace ispunct : byte -> bool) (w : WInput) :
  buffer_ok w -> 0 <= point w <= strlen (buffer w) ->
  let sep := separator_byte isspace ispunct in
  let p1 := Z.to_nat (backward_word_start (text_of w) (point w)) in
  let n1 := leading sep (reverse (take p1 (text_of w))) in
  let n2 :=
    leading (fun b => negb (sep b)) (reverse (take (p1 - n1) (text_of w))) in
  let w' :=
    @mc_winput_cmd_back_kill_word str_8bit (str_8bit_word isspace ispunct) w in
  text_of w'
  = take (p1 - n1 - n2) (text_of w) ++ drop (Z.to_nat (point w)) (text_of w)
  /\ point w' = Z.of_nat (p1 - n1 - n2) /\ highlight w' = false
  /\ need_push w' = true /\ buffer_ok w'.
Proof. intros Hok Hp. now apply back_kill_word_8bit. Qed.

Lemma back_kill_word_deletes_to_word_start_witness :
  text_of (@mc_winput_cmd_back_kill_word str_8bit
             (str_8bit_word Session.isspace Session.ispunct)
             (set_point 8 Session.command_line)) = bytes "cp a.b.c".
Proof.
  destruct (back_kill_word_deletes_to_word_start Session.isspace
              Session.ispunct (set_point 8 Session.command_line))
    as (Ht & _).
  - split; vm_compute; reflexivity.
  - run.
  - rewrite Ht. reflexivity.
Defined.

(** X29: the paste command raises the two events that fetch the clipboard
    file and leaves the kill ring alone.  When the file gives no text the
    widget stays as it is.  In a single-byte locale, with nothing selected
    and the assembler empty, a text of the file that holds no byte 255 is
    put in at point, and point moves behind it, when the allocator never
    fails or the buffer has room. *)
Theorem clipboard_paste_inserts_text (w : WInput) (g : process)
    (clip : option (list byte)) heap :
  let w' := fst (@mc_winput_cmd_clipboard_paste str_8bit w g clip heap) in
  let g' := snd (@mc_winput_cmd_clipboard_paste str_8bit w g clip heap) in
  kill_buffer g' = kill_buffer g
  /\ raised g'
     = raised g
       ++ [ {| ev_group := MCEVENT_GROUP_CORE;
               ev_name := "clipboard_file_from_ext_clip";
               ev_data := None |};
            {| ev_group := MCEVENT_GROUP_CORE;
               ev_name := "clipboard_text_from_file";
               ev_data := None |} ]
  /\ (clip = None -> w' = w)
  /\ (forall p,
        clip = Some p ->
        highlight w = false -> buffer_ok w -> assembler_ok w ->
        charpoint w = 0 -> 0 <= point w <= strlen (buffer w) ->
        x00 ∉ p -> xff ∉ p ->
        (forall j, heap j <> None)
        \/ strlen (buffer w) + Z.of_nat (length p) < current_max_size w ->
        text_of w'
        = take (Z.to_nat (point w)) (text_of w) ++ p
          ++ drop (Z.to_nat (point w)) (text_of w)
        /\ point w' = point w + Z.of_nat (length p)
        /\ buffer_ok w').
Proof. apply clipboard_paste_8bit. Qed.

Lemma clipboard_paste_inserts_text_witness :
  text_of (fst (@mc_winput_cmd_clipboard_paste str_8bit Session.touched
                  Scenario.fresh_process (Some (bytes "XY")) (fun _ => None)))
  = bytes "abcXYdef".
Proof.
  destruct (clipboard_paste_inserts_text Session.touched
              Scenario.fresh_process (Some (bytes "XY")) (fun _ => None))
    as (_ & _ & _ & Hput).
  destruct (Hput (bytes "XY")) as (Ht & _).
  - reflexivity.
  - reflexivity.
  - split; vm_compute; reflexivity.
  - run.
  - reflexivity.
  - run.
  - absent.
  - absent.
  - right. vm_compute. reflexivity.
  - rewrite Ht. reflexivity.
Defined.

(** X30: in a single-byte locale, two keys in a row that are bound to the
    highlight command followed by the backward-character command select
    the two characters before the place where point was: the mark stays
    where the selection began, point moves back by two, and the text is
    not changed. *)
Theorem selection_keeps_its_anchor
    (keymap : Z -> WInput -> option (WInput * bool))
    (w : WInput) (key : Z) heap heap' :
  (forall v,
     keymap key v
     = Some (@mc_winput_cmd_backward_char str_8bit
               (mc_winput_cmd_start_highlight v), false)) ->
  highlight w = false -> 2 <= point w <= strlen (buffer w) ->
  let w1 := snd (@input_handle_char str_8bit keymap w key heap) in
  let w2 := snd (@input_handle_char str_8bit keymap w1 key heap') in
  input_eval_marks w2 = (true, point w - 2, point w)
  /\ mark w2 = point w /\ point w2 = point w - 2 /\ buffer w2 = buffer w.
Proof. apply extend_left_twice_8bit. Qed.

Lemma selection_keeps_its_anchor_witness :
  input_eval_marks
    (snd (@input_handle_char str_8bit Session.two_keys
            (snd (@input_handle_char str_8bit Session.two_keys
                    Session.touched 1000 None)) 1000 None))
  = (true, 1, 3).
Proof.
  destruct (selection_keeps_its_anchor Session.two_keys Session.touched 1000
              None None) as (Hmarks & _).
  - reflexivity.
  - reflexivity.
  - run.
  - exact Hmarks.
Defined.
